(** * Voice session orchestrator: embedding and verified properties

    A shallow embedding of the session core of the Telugu real-estate voice
    agent: [backend/ws_handler.py] (class [VoiceSession] and the inbound
    dispatch of [handle_voice_websocket]) and the adapters of
    [backend/services/streaming_service.py] ([_smart_truncate], [stream_llm],
    [_llm_fallback], [rest_stt], [rest_tts]).

    Conventions of the embedding:
    - a Python [str] is a list of Unicode code points ([pystr]), so that
      [len], slicing, [rfind] and [strip] count what Python counts;
    - [bytes] are [list byte];
    - [time.time()] is the [clock] of the world, in integer milliseconds;
    - the float returned by [_calculate_rms] is represented by its square
      (the exact mean of the squared samples, a rational), and a comparison
      [rms > T] by the comparison of that mean with [T * T]: the rounding
      of the floating-point square root is not modelled;
    - synchronous methods are functions on the session record; coroutines
      live in the monad [M], where an [await] is a point at which the
      running task may receive [CancelledError], and exceptions are
      explicit results;
    - the remote backends are a record of answers ([Backend]); what the
      session sends to the peer, which backend calls it makes and which
      tasks it creates and cancels are appended to the [trace] of the
      world;
    - log lines, the payload of the [perf] and [error] messages, the JSON
      and base64 codecs and the WAV header are left out; a [send_json]
      that fails is not modelled.

    The first part holds the definitions, in the order of the source; the
    second part holds the properties, one module per component. *)

From Stdlib Require Import ZArith NArith QArith List Bool Lia.
From Stdlib Require Import Strings.Byte.
Import ListNotations.
Local Open Scope Z_scope.

Set Implicit Arguments.

(* ===================================================================== *)
(** ** Python strings and slices *)
(* ===================================================================== *)

Module Py.

  (** A Python string: its code points, in order. *)
Definition pystr := list N.

Definition len {A : Type} (l : list A) : Z := Z.of_nat (length l).

  (** [l[:k]], with Python's reading of a negative bound. *)
Definition slice_to {A : Type} (l : list A) (k : Z) : list A :=
    if 0 <=? k then firstn (Z.to_nat k) l
    else firstn (Z.to_nat (len l + k)) l.

  (** [l[-k:]] for [k > 0]: the last [k] elements (all of them when the
      list is shorter). *)
Definition slice_last {A : Type} (l : list A) (k : Z) : list A :=
    skipn (Z.to_nat (len l - k)) l.

Fixpoint rfind_aux (l : pystr) (c : N) (i acc : Z) : Z :=
    match l with
    | [] => acc
    | x :: t => rfind_aux t c (i + 1) (if N.eqb x c then i else acc)
    end.

  (** [l.rfind(c)] for a one-character needle: the highest index holding
      [c], or [-1]. *)
Definition rfind (l : pystr) (c : N) : Z := rfind_aux l c 0 (-1).

  (** Truthiness of a string. *)
Definition truthy {A : Type} (l : list A) : bool :=
    match l with [] => false | _ => true end.

End Py.

Import Py.

(* ===================================================================== *)
(** ** streaming_service.py: text truncation for synthesis *)
(* ===================================================================== *)

Module Streaming.

Definition ch_period : N := 46.
Definition ch_bang : N := 33.
Definition ch_question : N := 63.
Definition ch_danda : N := 2404.
Definition ch_space : N := 32.

  (** The literal ["..."]. *)
Definition ellipsis : pystr := [46; 46; 46]%N.

Definition _smart_truncate (text : pystr) (limit : Z) : pystr :=
    if len text <=? limit then text
    else
      let truncated := slice_to text limit in
      let last_period :=
        Z.max (Z.max (Z.max (rfind truncated ch_period)
                            (rfind truncated ch_bang))
                     (rfind truncated ch_question))
              (rfind truncated ch_danda) in
      if limit / 2 <? last_period then slice_to truncated (last_period + 1)
      else
        let last_space := rfind truncated ch_space in
        if limit / 2 <? last_space
        then slice_to truncated last_space ++ ellipsis
        else truncated ++ ellipsis.

  (** The default of the [limit] argument. *)
Definition default_limit : Z := 490.

  (** Sentence punctuation the truncation looks for. *)
Definition sentence_end (c : N) : bool :=
    (N.eqb c ch_period || N.eqb c ch_bang || N.eqb c ch_question
     || N.eqb c ch_danda)%bool.

Definition word_gap (c : N) : bool := N.eqb c ch_space.

  (** [p] is the last position of [l] whose character satisfies [P]. *)
Definition last_at (P : N -> bool) (l : pystr) (p : nat) : Prop :=
    (exists c, nth_error l p = Some c /\ P c = true) /\
    forall j c, (p < j)%nat -> nth_error l j = Some c -> P c = false.

  (** No position of [l] beyond index [m] satisfies [P]. *)
Definition none_after (P : N -> bool) (l : pystr) (m : Z) : Prop :=
    forall j c, m < Z.of_nat j -> nth_error l j = Some c -> P c = false.

  (** The truncation as the specification words it: the word-boundary cut
      carries no ellipsis, only the hard cut does. *)
Definition spec_smart_truncate (text : pystr) (limit : Z) : pystr :=
    if len text <=? limit then text
    else
      let truncated := slice_to text limit in
      let last_period :=
        Z.max (Z.max (Z.max (rfind truncated ch_period)
                            (rfind truncated ch_bang))
                     (rfind truncated ch_question))
              (rfind truncated ch_danda) in
      if limit / 2 <? last_period then slice_to truncated (last_period + 1)
      else
        let last_space := rfind truncated ch_space in
        if limit / 2 <? last_space
        then slice_to truncated last_space
        else truncated ++ ellipsis.

End Streaming.

(* ===================================================================== *)
(** ** ws_handler.py: audio analysis *)
(* ===================================================================== *)

Module Audio.

  (** One little-endian signed 16-bit sample, [struct] format [<h]. *)
Definition sample (lo hi : byte) : Z :=
    let u := Z.of_N (Byte.to_N lo) + 256 * Z.of_N (Byte.to_N hi) in
    if u <? 32768 then u else u - 65536.

  (** [struct.unpack(f"<{n}h", bs)]: [None] stands for [struct.error], raised
      whenever the buffer is not exactly [2 * n] bytes long. *)
Fixpoint unpack_h (n : nat) (bs : list byte) : option (list Z) :=
    match n, bs with
    | O, [] => Some []
    | S n', lo :: hi :: rest =>
        match unpack_h n' rest with
        | Some ss => Some (sample lo hi :: ss)
        | None => None
        end
    | _, _ => None
    end.

Definition sum_squares (samples : list Z) : Z :=
    fold_right (fun s acc => s * s + acc) 0 samples.

  (** The value of [_calculate_rms], kept as the square of the float the
      code returns: the mean of the squared samples. *)
Definition rms := Q.

  (** [r > T] for a non-negative integer threshold [T]. *)
Definition rms_gt (r : rms) (T : Z) : bool :=
    negb (Qle_bool r (inject_Z (T * T))).

  (** [None] is the propagated [struct.error]. *)
Definition _calculate_rms (audio_bytes : list byte) : option rms :=
    if len audio_bytes <? 2 then Some 0%Q
    else
      match unpack_h (Z.to_nat (len audio_bytes / 2)) audio_bytes with
      | None => None
      | Some samples =>
          match samples with
          | [] => Some 0%Q
          | _ => Some (Qmake (sum_squares samples)
                             (Pos.of_nat (length samples)))
          end
      end.

End Audio.

Import Audio.

(* ===================================================================== *)
(** ** ws_handler.py: the session object *)
(* ===================================================================== *)

Inductive SessionState : Type :=
| GREETING | LISTENING | USER_SPEAKING | PROCESSING | AI_SPEAKING.

Definition SessionState_eqb (a b : SessionState) : bool :=
  match a, b with
  | GREETING, GREETING | LISTENING, LISTENING
  | USER_SPEAKING, USER_SPEAKING | PROCESSING, PROCESSING
  | AI_SPEAKING, AI_SPEAKING => true
  | _, _ => false
  end.

Inductive role : Type := RoleUser | RoleAssistant.

(** One entry of [conversation_history]. *)
Record turn : Type := Turn { turn_role : role; turn_content : pystr }.

(** Identifier of an [asyncio.Task]. *)
Definition task_id := nat.

Record VoiceSession : Type := mkSession {
  conversation_history : list turn;
  is_active : bool;
  _state : SessionState;
  _state_entered_at : Z;
  _audio_buffer : list byte;
  _silence_frames : Z;
  _speech_frames : Z;
  _is_speaking : bool;
  _last_speech_time : Z;
  _chunk_count : Z;
  _processing_task : option task_id;
  _barge_in_frames : Z;
  _playback_ended_at : Z
}.

(** The thresholds set once in [__init__] and never written again. *)
Definition SILENCE_THRESHOLD : Z := 80.
Definition SPEECH_THRESHOLD : Z := 200.
Definition SILENCE_DURATION_MS : Z := 1000.
Definition MIN_SPEECH_DURATION_MS : Z := 300.
Definition FRAME_DURATION_MS : Z := 256.
Definition MIN_AUDIO_BYTES : Z := 8192.
Definition BARGE_IN_THRESHOLD : Z := 500.
Definition MIN_BARGE_IN_FRAMES : Z := 3.
Definition PLAYBACK_COOLDOWN_MS : Z := 500.
Definition WATCHDOG_TIMEOUT_S : Z := 30.
Definition MAX_HISTORY_ENTRIES : Z := 10.

(** [VoiceSession.__init__] at time [now]. *)
Definition new_session (now : Z) : VoiceSession :=
  {| conversation_history := [];
     is_active := true;
     _state := GREETING;
     _state_entered_at := now;
     _audio_buffer := [];
     _silence_frames := 0;
     _speech_frames := 0;
     _is_speaking := false;
     _last_speech_time := 0;
     _chunk_count := 0;
     _processing_task := None;
     _barge_in_frames := 0;
     _playback_ended_at := 0 |}.

(** Field assignments. *)
Module Upd.
Definition history v s := mkSession v (is_active s) (_state s) (_state_entered_at s) (_audio_buffer s) (_silence_frames s) (_speech_frames s) (_is_speaking s) (_last_speech_time s) (_chunk_count s) (_processing_task s) (_barge_in_frames s) (_playback_ended_at s).
Definition active v s := mkSession (conversation_history s) v (_state s) (_state_entered_at s) (_audio_buffer s) (_silence_frames s) (_speech_frames s) (_is_speaking s) (_last_speech_time s) (_chunk_count s) (_processing_task s) (_barge_in_frames s) (_playback_ended_at s).
Definition state v s := mkSession (conversation_history s) (is_active s) v (_state_entered_at s) (_audio_buffer s) (_silence_frames s) (_speech_frames s) (_is_speaking s) (_last_speech_time s) (_chunk_count s) (_processing_task s) (_barge_in_frames s) (_playback_ended_at s).
Definition state_entered_at v s := mkSession (conversation_history s) (is_active s) (_state s) v (_audio_buffer s) (_silence_frames s) (_speech_frames s) (_is_speaking s) (_last_speech_time s) (_chunk_count s) (_processing_task s) (_barge_in_frames s) (_playback_ended_at s).
Definition audio_buffer v s := mkSession (conversation_history s) (is_active s) (_state s) (_state_entered_at s) v (_silence_frames s) (_speech_frames s) (_is_speaking s) (_last_speech_time s) (_chunk_count s) (_processing_task s) (_barge_in_frames s) (_playback_ended_at s).
Definition silence_frames v s := mkSession (conversation_history s) (is_active s) (_state s) (_state_entered_at s) (_audio_buffer s) v (_speech_frames s) (_is_speaking s) (_last_speech_time s) (_chunk_count s) (_processing_task s) (_barge_in_frames s) (_playback_ended_at s).
Definition speech_frames v s := mkSession (conversation_history s) (is_active s) (_state s) (_state_entered_at s) (_audio_buffer s) (_silence_frames s) v (_is_speaking s) (_last_speech_time s) (_chunk_count s) (_processing_task s) (_barge_in_frames s) (_playback_ended_at s).
Definition is_speaking v s := mkSession (conversation_history s) (is_active s) (_state s) (_state_entered_at s) (_audio_buffer s) (_silence_frames s) (_speech_frames s) v (_last_speech_time s) (_chunk_count s) (_processing_task s) (_barge_in_frames s) (_playback_ended_at s).
Definition last_speech_time v s := mkSession (conversation_history s) (is_active s) (_state s) (_state_entered_at s) (_audio_buffer s) (_silence_frames s) (_speech_frames s) (_is_speaking s) v (_chunk_count s) (_processing_task s) (_barge_in_frames s) (_playback_ended_at s).
Definition chunk_count v s := mkSession (conversation_history s) (is_active s) (_state s) (_state_entered_at s) (_audio_buffer s) (_silence_frames s) (_speech_frames s) (_is_speaking s) (_last_speech_time s) v (_processing_task s) (_barge_in_frames s) (_playback_ended_at s).
Definition processing_task v s := mkSession (conversation_history s) (is_active s) (_state s) (_state_entered_at s) (_audio_buffer s) (_silence_frames s) (_speech_frames s) (_is_speaking s) (_last_speech_time s) (_chunk_count s) v (_barge_in_frames s) (_playback_ended_at s).
Definition barge_in_frames v s := mkSession (conversation_history s) (is_active s) (_state s) (_state_entered_at s) (_audio_buffer s) (_silence_frames s) (_speech_frames s) (_is_speaking s) (_last_speech_time s) (_chunk_count s) (_processing_task s) v (_playback_ended_at s).
Definition playback_ended_at v s := mkSession (conversation_history s) (is_active s) (_state s) (_state_entered_at s) (_audio_buffer s) (_silence_frames s) (_speech_frames s) (_is_speaking s) (_last_speech_time s) (_chunk_count s) (_processing_task s) (_barge_in_frames s) v.
End Upd.

(* ===================================================================== *)
(** ** The peer protocol, the backends and the event loop *)
(* ===================================================================== *)

Inductive stage : Type :=
| StListening | StTranscribing | StSearching | StThinking | StSpeaking.

(** Outbound messages of the peer protocol. *)
Inductive event : Type :=
| EvVad (speaking : bool)
| EvTranscript (text : pystr) (r : role)
| EvToken (text : pystr)
| EvAudio (data : list byte)
| EvStatus (st : stage)
| EvInterrupt
| EvPerf
| EvPing
| EvError.

(** The two coroutines the session runs as tasks. *)
Inductive coroutine : Type :=
| AutoGreet
| ProcessUtterance (audio_data : list byte).

(** What an observer of the session sees, in order: messages sent to the
    peer, calls made to the backends, tasks created and cancelled. *)
Inductive obs : Type :=
| Sent (e : event)
| CallSTT (pcm : list byte)
| CallRAG (query : pystr)
| CallLLMStream (transcript : pystr) (rag_context : option pystr)
    (window : list turn)
| CallLLMFallback
| CallTTS (inputs : pystr)
| TaskCreated (t : task_id) (c : coroutine)
| TaskCancelled (t : task_id).

(** A call placed under [asyncio.wait_for]: it answers, or the timer fires
    first. *)
Inductive timed (A : Type) : Type :=
| Returned (a : A)
| TimedOut.
Arguments TimedOut {A}.

Inductive http_err : Type := ReadTimeout | OtherError.

(** One line of the server-sent event stream of the generation backend,
    already classified the way [stream_llm] classifies it. *)
Inductive sse_line : Type :=
| NotData
| DoneMarker
| Delta (content : pystr)
| BadJson.

(** The answer to the streaming request: the request raises, or the
    response opens with a status; its body is the [lines], after which the
    connection may break with an error; [utf8] tells whether the body as a
    whole decodes as UTF-8, which only the error path asks for. *)
Inductive llm_stream_reply : Type :=
| StreamRaised (e : http_err)
| StreamOpened (status_code : Z) (lines : list sse_line)
    (broken : option http_err) (utf8 : bool).

Inductive llm_post_reply : Type :=
| PostRaised
| PostReplied (status_code : Z) (content : option pystr).

Inductive stt_post_reply : Type :=
| SttRaised (e : http_err)
| SttReplied (status_code : Z) (transcript : pystr).

Inductive tts_post_reply : Type :=
| TtsRaised (e : http_err)
| TtsReplied (status_code : Z) (first_audio : option (list byte)).

(** The remote collaborators, as the answers they give.  The synthesis
    backend may answer differently on each attempt of a turn. *)
Record Backend : Type := mkBackend {
  stt_post : list byte -> timed stt_post_reply;
  rag_search : pystr -> timed (option pystr);
  llm_stream : pystr -> option pystr -> list turn -> llm_stream_reply;
  llm_post : llm_post_reply;
  tts_post : nat -> pystr -> timed tts_post_reply
}.

Record World : Type := mkWorld {
  session : VoiceSession;
  clock : Z;
  trace : list obs;
  loop_tasks : list (task_id * coroutine);
  next_task : task_id
}.

Module W.
Definition with_session (f : VoiceSession -> VoiceSession) (w : World) : World :=
  mkWorld (f (session w)) (clock w) (trace w) (loop_tasks w) (next_task w).
Definition with_trace (o : obs) (w : World) : World :=
  mkWorld (session w) (clock w) (trace w ++ [o]) (loop_tasks w) (next_task w).
Definition with_tasks (ts : list (task_id * coroutine)) (w : World) : World :=
  mkWorld (session w) (clock w) (trace w) ts (next_task w).
Definition with_next (n : task_id) (w : World) : World :=
  mkWorld (session w) (clock w) (trace w) (loop_tasks w) n.
Definition with_clock (now : Z) (w : World) : World :=
  mkWorld (session w) now (trace w) (loop_tasks w) (next_task w).
End W.

(** Exceptions that cross a function boundary in the modelled code.
    [CancelledError] derives from [BaseException]: an [except Exception]
    clause lets it through. *)
Inductive exn : Type :=
| CancelledError
| TimeoutError
| StructError
| OtherException.

Definition is_Exception (e : exn) : bool :=
  match e with CancelledError => false | _ => true end.

Inductive res (A : Type) : Type :=
| Ok (a : A)
| Exc (e : exn).
Arguments Exc {A}.

(** A coroutine body.  The first argument is the number of suspension
    points the running task still passes before a pending cancellation is
    delivered to it ([None]: nobody cancels it). *)
Definition M (A : Type) : Type :=
  option nat -> World -> res A * World * option nat.

Definition ret {A : Type} (a : A) : M A := fun c w => (Ok a, w, c).

Definition bind {A B : Type} (m : M A) (k : A -> M B) : M B :=
  fun c w =>
    match m c w with
    | (Ok a, w', c') => k a c' w'
    | (Exc e, w', c') => (Exc e, w', c')
    end.

Definition raise {A : Type} (e : exn) : M A := fun c w => (Exc e, w, c).

(** [try: m  except <the exceptions h answers Some on>: h]. *)
Definition try_except {A : Type} (m : M A) (h : exn -> option (M A)) : M A :=
  fun c w =>
    match m c w with
    | (Ok a, w', c') => (Ok a, w', c')
    | (Exc e, w', c') =>
        match h e with
        | Some handler => handler c' w'
        | None => (Exc e, w', c')
        end
    end.

Declare Scope coro_scope.
Delimit Scope coro_scope with coro.
Notation "x <- m ;; k" := (bind m (fun x => k))
  (at level 61, m at next level, right associativity) : coro_scope.
Notation "m ;; k" := (bind m (fun _ => k))
  (at level 61, right associativity) : coro_scope.
Local Open Scope coro_scope.

(** An [await]: the point where a pending cancellation lands. *)
Definition await_point : M unit :=
  fun c w =>
    match c with
    | Some O => (Exc CancelledError, w, None)
    | Some (S n) => (Ok tt, w, Some n)
    | None => (Ok tt, w, None)
    end.

Definition get_session : M VoiceSession := fun c w => (Ok (session w), w, c).
Definition modify (f : VoiceSession -> VoiceSession) : M unit :=
  fun c w => (Ok tt, W.with_session f w, c).
Definition time_now : M Z := fun c w => (Ok (clock w), w, c).
Definition observe (o : obs) : M unit :=
  fun c w => (Ok tt, W.with_trace o w, c).
Definition get_trace : M (list obs) := fun c w => (Ok (trace w), w, c).

(** Running a handler of the main loop, which nobody cancels. *)
Definition exec {A : Type} (m : M A) (w : World) : res A * World :=
  fst (m None w).

(** [asyncio.create_task(c)]. *)
Definition create_task (body : coroutine) : M task_id :=
  fun c w =>
    let t := next_task w in
    (Ok t,
     W.with_trace (TaskCreated t body)
       (W.with_next (S t) (W.with_tasks ((t, body) :: loop_tasks w) w)),
     c).

Fixpoint find_task (t : task_id) (ts : list (task_id * coroutine))
  : option coroutine :=
  match ts with
  | [] => None
  | (t', body) :: rest => if Nat.eqb t t' then Some body else find_task t rest
  end.

Fixpoint remove_task (t : task_id) (ts : list (task_id * coroutine))
  : list (task_id * coroutine) :=
  match ts with
  | [] => []
  | (t', body) :: rest =>
      if Nat.eqb t t' then remove_task t rest
      else (t', body) :: remove_task t rest
  end.

(** [task.done()]: the task is no longer among the pending ones of the
    loop.  A task leaves them when it is cancelled and awaited
    ([cancel_and_await]) and when it runs to its end ([task_finishes]). *)
Definition task_done (t : task_id) : M bool :=
  fun c w =>
    (Ok (match find_task t (loop_tasks w) with Some _ => false | None => true end),
     w, c).

(* ===================================================================== *)
(** ** VoiceSession: state transitions, VAD, gating and barge-in *)
(* ===================================================================== *)

(** [_set_state] at time [now]. *)
Definition _set_state (new_state : SessionState) (now : Z)
  (s : VoiceSession) : VoiceSession :=
  Upd.state_entered_at now (Upd.state new_state s).

Definition set_state (new_state : SessionState) : M unit :=
  now <- time_now ;; modify (_set_state new_state now).

(** The property [is_ai_speaking]. *)
Definition is_ai_speaking (s : VoiceSession) : bool :=
  match _state s with
  | AI_SPEAKING | GREETING => true
  | _ => false
  end.

(** [send_event]: one suspension point, then the message is on the wire. *)
Definition send_event (e : event) : M unit :=
  await_point ;; observe (Sent e).

Inductive vad_result : Type :=
| speech_start | speech_continue | speech_end | silence.

(** [_detect_speech] on a frame whose energy is [r].  The method is
    synchronous: it is a function of the session and the current time. *)
Definition detect_on_rms (r : rms) (now : Z) (s : VoiceSession)
  : vad_result * VoiceSession :=
  let s := Upd.chunk_count (_chunk_count s + 1) s in
  if rms_gt r SPEECH_THRESHOLD then
    let s := Upd.silence_frames 0 s in
    let s := Upd.speech_frames (_speech_frames s + 1) s in
    if negb (_is_speaking s) then
      (speech_start, Upd.last_speech_time now (Upd.is_speaking true s))
    else (speech_continue, s)
  else
    let s := Upd.silence_frames (_silence_frames s + 1) s in
    let silence_ms := _silence_frames s * FRAME_DURATION_MS in
    if _is_speaking s && (SILENCE_DURATION_MS <=? silence_ms) then
      let speech_ms := _speech_frames s * FRAME_DURATION_MS in
      let s := Upd.is_speaking false s in
      let s := Upd.speech_frames 0 s in
      let s := Upd.silence_frames 0 s in
      if MIN_SPEECH_DURATION_MS <=? speech_ms then (speech_end, s)
      else (silence, Upd.audio_buffer [] s)
    else if negb (_is_speaking s) then (silence, s)
    else (speech_continue, s).

(** [_detect_speech]; [None] is the [struct.error] of the energy
    computation, raised before anything is written. *)
Definition _detect_speech (audio_bytes : list byte) (now : Z)
  (s : VoiceSession) : option (vad_result * VoiceSession) :=
  match _calculate_rms audio_bytes with
  | None => None
  | Some r => Some (detect_on_rms r now s)
  end.

(** [task.cancel()] followed by [await task]: the coroutine receives
    [CancelledError] at the suspension point it is parked on.  What it does
    with it is its own [except] clause: [_process_utterance] resets the
    state to [LISTENING] and re-raises; [_auto_greet] has no clause for it. *)
Definition on_cancelled (body : coroutine) (now : Z)
  (s : VoiceSession) : VoiceSession :=
  match body with
  | ProcessUtterance _ => _set_state LISTENING now s
  | AutoGreet => s
  end.

Definition cancel_and_await (t : task_id) : M unit :=
  fun c w =>
    match find_task t (loop_tasks w) with
    | None => (Ok tt, w, c)
    | Some body =>
        let w := W.with_session (on_cancelled body (clock w)) w in
        let w := W.with_tasks (remove_task t (loop_tasks w)) w in
        (Ok tt, W.with_trace (TaskCancelled t) w, c)
    end.

(** [_interrupt_ai]. *)
Definition _interrupt_ai : M unit :=
  s <- get_session ;;
  match _processing_task s with
  | Some t =>
      finished <- task_done t ;;
      if negb finished then
        cancel_and_await t ;;
        modify (Upd.processing_task None)
      else ret tt
  | None => ret tt
  end ;;
  send_event EvInterrupt ;;
  send_event (EvStatus StListening).

Definition raise_if_none {A : Type} (o : option A) (e : exn) : M A :=
  match o with
  | Some a => ret a
  | None => raise e
  end.

(** The barge-in branch of [handle_audio_chunk], taken in [AI_SPEAKING] and
    [GREETING]. *)
Definition barge_in_check (audio_bytes : list byte) : M unit :=
  r <- raise_if_none (_calculate_rms audio_bytes) StructError ;;
  modify (fun s => Upd.chunk_count (_chunk_count s + 1) s) ;;
  if rms_gt r BARGE_IN_THRESHOLD then
    modify (fun s => Upd.barge_in_frames (_barge_in_frames s + 1) s) ;;
    s <- get_session ;;
    if MIN_BARGE_IN_FRAMES <=? _barge_in_frames s then
      modify (Upd.barge_in_frames 0) ;;
      _interrupt_ai ;;
      modify (Upd.audio_buffer []) ;;
      modify (fun s => Upd.audio_buffer (_audio_buffer s ++ audio_bytes) s) ;;
      modify (Upd.is_speaking true) ;;
      modify (Upd.speech_frames 1) ;;
      modify (Upd.silence_frames 0) ;;
      set_state USER_SPEAKING ;;
      send_event (EvVad true)
    else ret tt
  else modify (Upd.barge_in_frames 0).

(** The VAD branch of [handle_audio_chunk], taken in [LISTENING] and
    [USER_SPEAKING] outside the cooldown window. *)
Definition vad_branch (audio_bytes : list byte) : M unit :=
  now <- time_now ;;
  s <- get_session ;;
  detected <- raise_if_none (_detect_speech audio_bytes now s) StructError ;;
  modify (fun _ => snd detected) ;;
  match fst detected with
  | speech_start =>
      set_state USER_SPEAKING ;;
      send_event (EvVad true) ;;
      modify (Upd.audio_buffer []) ;;
      modify (fun s => Upd.audio_buffer (_audio_buffer s ++ audio_bytes) s)
  | speech_continue =>
      s <- get_session ;;
      if _is_speaking s then
        modify (fun s => Upd.audio_buffer (_audio_buffer s ++ audio_bytes) s)
      else ret tt
  | speech_end =>
      send_event (EvVad false) ;;
      s <- get_session ;;
      if len (_audio_buffer s) <? MIN_AUDIO_BYTES then
        modify (Upd.audio_buffer []) ;;
        set_state LISTENING
      else
        set_state PROCESSING ;;
        s <- get_session ;;
        let audio_data := _audio_buffer s in
        modify (Upd.audio_buffer []) ;;
        t <- create_task (ProcessUtterance audio_data) ;;
        modify (Upd.processing_task (Some t))
  | silence => ret tt
  end.

(** [handle_audio_chunk]. *)
Definition handle_audio_chunk (audio_bytes : list byte) : M unit :=
  s <- get_session ;;
  if is_ai_speaking s then barge_in_check audio_bytes
  else if SessionState_eqb (_state s) PROCESSING then ret tt
  else
    now <- time_now ;;
    if (0 <? _playback_ended_at s)
       && (now - _playback_ended_at s <? PLAYBACK_COOLDOWN_MS)
    then ret tt
    else vad_branch audio_bytes.

(** [handle_playback_done] at time [now]. *)
Definition handle_playback_done (now : Z) (s : VoiceSession) : VoiceSession :=
  let s := Upd.playback_ended_at now s in
  let s := Upd.barge_in_frames 0 s in
  let s := Upd.is_speaking false s in
  let s := Upd.speech_frames 0 s in
  let s := Upd.silence_frames 0 s in
  let s := Upd.audio_buffer [] s in
  _set_state LISTENING now s.

(** [handle_user_interrupt] only writes a log line. *)
Definition handle_user_interrupt (s : VoiceSession) : VoiceSession := s.

(** [check_watchdog]; the deadlines are in seconds, the clock in
    milliseconds. *)
Definition check_watchdog : M unit :=
  s <- get_session ;;
  now <- time_now ;;
  match _state s with
  | AI_SPEAKING =>
      if WATCHDOG_TIMEOUT_S * 1000 <? now - _state_entered_at s then
        modify (Upd.playback_ended_at now) ;;
        set_state LISTENING ;;
        send_event (EvStatus StListening)
      else ret tt
  | GREETING =>
      if 120 * 1000 <? now - _state_entered_at s then
        set_state LISTENING ;;
        send_event (EvStatus StListening)
      else ret tt
  | _ => ret tt
  end.

(* ===================================================================== *)
(** ** streaming_service.py: the backend adapters *)
(* ===================================================================== *)

(** Characters [str.strip()] removes. *)
Definition py_space (c : N) : bool :=
  ((9 <=? c) && (c <=? 13) || (28 <=? c) && (c <=? 32) || (c =? 133)
   || (c =? 160) || (c =? 5760) || (8192 <=? c) && (c <=? 8202)
   || (c =? 8232) || (c =? 8233) || (c =? 8239) || (c =? 8287)
   || (c =? 12288))%N.

Fixpoint lstrip (s : pystr) : pystr :=
  match s with
  | [] => []
  | c :: t => if py_space c then lstrip t else s
  end.

Definition strip (s : pystr) : pystr := rev (lstrip (rev (lstrip s))).

(** The apology the generation adapter yields when the backend fails. *)
Definition APOLOGY : pystr :=
  [3093; 3149; 3127; 3118; 3135; 3074; 3098; 3074; 3105; 3135; 44; 32;
   3118; 3123; 3149; 3123; 3136; 32; 3098; 3142; 3114; 3149; 3114; 3095;
   3122; 3120; 3134; 63]%N.

(** The apology yielded on a read timeout. *)
Definition APOLOGY_DELAY : pystr :=
  [3093; 3149; 3127; 3118; 3135; 3074; 3098; 3074; 3105; 3135; 44; 32;
   3078; 3122; 3128; 3149; 3119; 3074; 32; 3077; 3125; 3137; 3108; 3147;
   3074; 3110; 3135; 46; 32; 3118; 3123; 3149; 3123; 3136; 32; 3098; 3142;
   3114; 3149; 3114; 3074; 3105; 3135; 46]%N.

Definition truthy_bytes (o : option (list byte)) : bool :=
  match o with
  | Some (_ :: _) => true
  | _ => false
  end.

(** [asyncio.wait_for(call, timeout)]. *)
Definition wait_for {A : Type} (call : M (timed A)) : M A :=
  r <- call ;;
  match r with
  | Returned a => ret a
  | TimedOut => raise TimeoutError
  end.

Definition is_CallTTS (o : obs) : bool :=
  match o with CallTTS _ => true | _ => false end.


Definition count_obs (p : obs -> bool) (tr : list obs) : nat :=
  length (filter p tr).

(** The lines of an opened stream, as [stream_llm] turns them into
    fragments; a stream that breaks yields the apology of its error. *)
Fixpoint read_lines (lines : list sse_line) (broken : option http_err)
  : list pystr :=
  match lines with
  | [] =>
      match broken with
      | None => []
      | Some ReadTimeout => [APOLOGY_DELAY]
      | Some OtherError => [APOLOGY]
      end
  | NotData :: rest => read_lines rest broken
  | BadJson :: rest => read_lines rest broken
  | DoneMarker :: _ => []
  | Delta content :: rest =>
      if truthy content then content :: read_lines rest broken
      else read_lines rest broken
  end.

(** [response.raise_for_status()] raises outside the 2xx range. *)
Definition raises_for_status (status_code : Z) : bool :=
  negb ((200 <=? status_code) && (status_code <=? 299)).

Section Adapters.

Variable env : Backend.

(** [rest_stt]: every failure is an empty transcript. *)
Definition rest_stt (audio_data : list byte) : M (timed pystr) :=
  observe (CallSTT audio_data) ;;
  await_point ;;
  match stt_post env audio_data with
  | TimedOut => ret TimedOut
  | Returned (SttRaised _) => ret (Returned [])
  | Returned (SttReplied status_code transcript) =>
      if negb (status_code =? 200) then ret (Returned [])
      else ret (Returned transcript)
  end.

(** [search_context], seen from its caller. *)
Definition search_context (query : pystr) : M (timed (option pystr)) :=
  observe (CallRAG query) ;;
  await_point ;;
  ret (rag_search env query).

(** [_llm_fallback]. *)
Definition _llm_fallback : M (option pystr) :=
  observe CallLLMFallback ;;
  await_point ;;
  match llm_post env with
  | PostRaised => ret None
  | PostReplied status_code content =>
      if negb (status_code =? 200) then ret None
      else
        match content with
        | None => ret None
        | Some text => ret (Some (strip text))
        end
  end.

(** [stream_llm]: the fragments the generator yields, in order.  On a
    status other than 200 the code first awaits the whole body and decodes
    it for the log; either step may raise, and every exception raised
    inside the [try] ends the generator with an apology. *)
Definition stream_llm (transcript : pystr) (rag_context : option pystr)
  (history : list turn) : M (list pystr) :=
  let window := slice_last history 4 in
  observe (CallLLMStream transcript rag_context window) ;;
  await_point ;;
  match llm_stream env transcript rag_context window with
  | StreamRaised ReadTimeout => ret [APOLOGY_DELAY]
  | StreamRaised OtherError => ret [APOLOGY]
  | StreamOpened status_code lines broken utf8 =>
      if negb (status_code =? 200) then
        await_point ;;
        match broken with
        | Some ReadTimeout => ret [APOLOGY_DELAY]
        | Some OtherError => ret [APOLOGY]
        | None =>
            if negb utf8 then ret [APOLOGY]
            else if status_code =? 400 then
              fallback <- _llm_fallback ;;
              match fallback with
              | Some text => if truthy text then ret [text] else ret [APOLOGY]
              | None => ret [APOLOGY]
              end
            else if raises_for_status status_code then ret [APOLOGY]
            else ret (read_lines lines None)
        end
      else ret (read_lines lines broken)
  end.

(** [rest_tts]: every failure is [None]. *)
Definition rest_tts (text : pystr) : M (timed (option (list byte))) :=
  let tts_text := Streaming._smart_truncate text Streaming.default_limit in
  tr <- get_trace ;;
  let attempt := count_obs is_CallTTS tr in
  observe (CallTTS tts_text) ;;
  await_point ;;
  match tts_post env attempt tts_text with
  | TimedOut => ret TimedOut
  | Returned (TtsRaised _) => ret (Returned None)
  | Returned (TtsReplied status_code first_audio) =>
      if negb (status_code =? 200) then ret (Returned None)
      else ret (Returned first_audio)
  end.

End Adapters.

(* ===================================================================== *)
(** ** VoiceSession: one conversational turn *)
(* ===================================================================== *)

(** The history cap applied after a turn is appended. *)
Definition cap_history (h : list turn) : list turn :=
  if MAX_HISTORY_ENTRIES <? len h then slice_last h MAX_HISTORY_ENTRIES
  else h.

Section Turn.

Variable env : Backend.

(** The [async for] loop over the fragments of [stream_llm].  [None] is the
    bare [return] taken when the session is no longer active. *)
Fixpoint consume_tokens (tokens : list pystr) (full_response : pystr)
  : M (option pystr) :=
  match tokens with
  | [] => await_point ;; ret (Some full_response)
  | token :: rest =>
      await_point ;;
      s <- get_session ;;
      if negb (is_active s) then ret None
      else
        send_event (EvToken token) ;;
        consume_tokens rest (full_response ++ token)
  end.

(** Step 3 of the turn, with its two [except] clauses. *)
Definition generate_reply (transcript : pystr) (rag_context : option pystr)
  : M (option pystr) :=
  try_except
    (s <- get_session ;;
     tokens <- stream_llm env transcript rag_context (conversation_history s) ;;
     consume_tokens tokens [])
    (fun e =>
       match e with
       | CancelledError => None
       | _ => Some (ret (Some APOLOGY))
       end).

(** Step 4 of the turn: the synthesis call and its single retry. *)
Definition synthesize (full_response : pystr) : M (option (list byte)) :=
  audio_bytes <-
    try_except (wait_for (rest_tts env full_response))
      (fun e =>
         match e with
         | TimeoutError => Some (ret None)
         | _ => None
         end) ;;
  if negb (truthy_bytes audio_bytes) then
    try_except (wait_for (rest_tts env full_response))
      (fun e => if is_Exception e then Some (ret audio_bytes) else None)
  else ret audio_bytes.

(** What follows the synthesis: the audio or the reset, the history, the
    performance report. *)
Definition finish_turn (transcript full_response : pystr)
  (audio_bytes : option (list byte)) : M unit :=
  match audio_bytes with
  | Some (b :: bs) =>
      set_state AI_SPEAKING ;;
      send_event (EvAudio (b :: bs))
  | _ =>
      set_state LISTENING ;;
      send_event (EvStatus StListening)
  end ;;
  modify (fun s =>
    Upd.history (conversation_history s ++ [Turn RoleUser transcript]) s) ;;
  modify (fun s =>
    Upd.history
      (conversation_history s ++ [Turn RoleAssistant full_response]) s) ;;
  modify (fun s => Upd.history (cap_history (conversation_history s)) s) ;;
  send_event EvPerf.

(** The body of the [try] of [_process_utterance]. *)
Definition turn_body (audio_data : list byte) : M unit :=
  send_event (EvStatus StTranscribing) ;;
  heard <-
    try_except
      (transcript <- wait_for (rest_stt env audio_data) ;;
       ret (Some transcript))
      (fun e =>
         match e with
         | TimeoutError =>
             Some (set_state LISTENING ;;
                   send_event (EvStatus StListening) ;;
                   ret None)
         | _ => None
         end) ;;
  match heard with
  | None => ret tt
  | Some transcript =>
      if forallb py_space transcript then
        set_state LISTENING ;;
        send_event (EvStatus StListening)
      else
        send_event (EvTranscript transcript RoleUser) ;;
        send_event (EvStatus StSearching) ;;
        rag_context <-
          try_except (wait_for (search_context env transcript))
            (fun e =>
               match e with
               | TimeoutError => Some (ret None)
               | _ => None
               end) ;;
        send_event (EvStatus StThinking) ;;
        generated <- generate_reply transcript rag_context ;;
        match generated with
        | None => ret tt
        | Some full_response =>
            send_event (EvTranscript full_response RoleAssistant) ;;
            send_event (EvStatus StSpeaking) ;;
            audio_bytes <- synthesize full_response ;;
            finish_turn transcript full_response audio_bytes
        end
  end.

(** [_process_utterance]. *)
Definition _process_utterance (audio_data : list byte) : M unit :=
  try_except (turn_body audio_data)
    (fun e =>
       match e with
       | CancelledError =>
           Some (set_state LISTENING ;; raise CancelledError)
       | _ =>
           Some (set_state LISTENING ;;
                 send_event EvError ;;
                 send_event (EvStatus StListening))
       end).

End Turn.

(* ===================================================================== *)
(** ** handle_voice_websocket: the inbound dispatch *)
(* ===================================================================== *)

(** What one iteration of the receive loop gets: a decoded JSON message, a
    binary frame, or the 30 s receive timeout.  [InAudio data] is an audio
    message whose base64 text is not empty and decodes to [data], which may
    be empty; [InAudioNoData] is one whose text is missing or empty;
    [InMalformed] is a text frame that [json.loads] or [base64.b64decode]
    rejects. *)
Inductive inbound : Type :=
| InAudio (data : list byte)
| InConfig
| InPlaybackDone
| InUserInterrupt
| InPong
| InEnd
| InUnknown
| InBinary (data : list byte)
| InIdle
| InAudioNoData
| InMalformed.

(** One iteration of the loop; [false] is the [break]. *)
Definition serve (m : inbound) : M bool :=
  match m with
  | InIdle =>
      send_event EvPing ;;
      check_watchdog ;;
      ret true
  | _ =>
      check_watchdog ;;
      match m with
      | InAudio data => handle_audio_chunk data ;; ret true
      | InBinary data => handle_audio_chunk data ;; ret true
      | InPlaybackDone =>
          now <- time_now ;;
          modify (handle_playback_done now) ;;
          send_event (EvStatus StListening) ;;
          ret true
      | InUserInterrupt => modify handle_user_interrupt ;; ret true
      | InEnd => ret false
      | InMalformed => raise OtherException
      | _ => ret true
      end
  end.

(** The loop receives [m] at time [now]. *)
Definition receive (now : Z) (m : inbound) (w : World) : res bool * World :=
  exec (serve m) (W.with_clock now w).

(** The loop receives the messages of [ms] one after the other, as long as
    no handler raises and the peer does not end the session. *)
Fixpoint receive_all (ms : list (Z * inbound)) (w : World) : World :=
  match ms with
  | [] => w
  | (now, m) :: rest =>
      match receive now m w with
      | (Ok true, w') => receive_all rest w'
      | (_, w') => w'
      end
  end.

(** The world right after the connection is accepted at time [now]: a fresh
    session whose greeting task has been created. *)
Definition connect (now : Z) : World :=
  snd (exec (t <- create_task AutoGreet ;;
             modify (Upd.processing_task (Some t)))
            (mkWorld (new_session now) now [] [] O)).

(** Number of tasks of the session that are still in flight. *)
Definition in_flight (w : World) : nat := length (loop_tasks w).

(* ===================================================================== *)
(** ** Vocabulary of the statements *)
(* ===================================================================== *)

(** The cooldown test of [handle_audio_chunk]. *)
Definition in_cooldown (w : World) : bool :=
  (0 <? _playback_ended_at (session w))
  && (clock w - _playback_ended_at (session w) <? PLAYBACK_COOLDOWN_MS).

(** Whether [handle_audio_chunk] gets as far as measuring the chunk: always
    in [AI_SPEAKING] and [GREETING], never in [PROCESSING], and outside the
    cooldown window in the two remaining states. *)
Definition analysed (w : World) : bool :=
  match _state (session w) with
  | AI_SPEAKING | GREETING => true
  | PROCESSING => false
  | LISTENING | USER_SPEAKING => negb (in_cooldown w)
  end.

(** The VAD fed a run of frames given by their energies. *)
Fixpoint detect_all (rs : list rms) (now : Z) (s : VoiceSession)
  : list vad_result * VoiceSession :=
  match rs with
  | [] => ([], s)
  | r :: rest =>
      let (v, s1) := detect_on_rms r now s in
      let (vs, s2) := detect_all rest now s1 in
      (v :: vs, s2)
  end.

Definition is_speech_end (v : vad_result) : bool :=
  match v with speech_end => true | _ => false end.

(** A frame the VAD counts as silence. *)
Definition quiet (r : rms) : Prop := rms_gt r SPEECH_THRESHOLD = false.


(** The session fed a run of audio chunks, one [handle_audio_chunk] each. *)
Fixpoint feed (chunks : list (list byte)) (w : World) : World :=
  match chunks with
  | [] => w
  | a :: rest => feed rest (snd (exec (handle_audio_chunk a) w))
  end.

(** A chunk the energy computation accepts. *)
Definition measurable (a : list byte) : Prop := _calculate_rms a <> None.

(** A chunk whose energy exceeds the barge-in threshold. *)
Definition chunk_loud (a : list byte) : bool :=
  match _calculate_rms a with
  | Some r => rms_gt r BARGE_IN_THRESHOLD
  | None => false
  end.

(** No three consecutive [true]. *)
Fixpoint no_triple (bs : list bool) : bool :=
  match bs with
  | [] => true
  | b :: rest =>
      match b, rest with
      | true, true :: true :: _ => false
      | _, _ => no_triple rest
      end
  end.

(** The task the session holds a handle to, when it is still in flight. *)
Definition task_in_flight (w : World) : option (task_id * coroutine) :=
  match _processing_task (session w) with
  | Some t =>
      match find_task t (loop_tasks w) with
      | Some body => Some (t, body)
      | None => None
      end
  | None => None
  end.

(** The part of the world a muted frame must leave alone when barge-in
    does not fire: state, buffer, VAD flags, history, tasks and trace. *)
Definition same_but_counters (w w' : World) : Prop :=
  _state (session w') = _state (session w) /\
  _state_entered_at (session w') = _state_entered_at (session w) /\
  _audio_buffer (session w') = _audio_buffer (session w) /\
  _is_speaking (session w') = _is_speaking (session w) /\
  _speech_frames (session w') = _speech_frames (session w) /\
  _silence_frames (session w') = _silence_frames (session w) /\
  _processing_task (session w') = _processing_task (session w) /\
  conversation_history (session w') = conversation_history (session w) /\
  loop_tasks w' = loop_tasks w /\
  trace w' = trace w /\
  clock w' = clock w.

(** The barge-in counter after a run of frames, none of which fires. *)
Definition trailing (c : nat) (bs : list bool) : nat :=
  fold_left (fun n (b : bool) => if b then S n else O) bs c.

(** The messages barge-in sends, after the cancellation it performs when a
    task is in flight. *)
Definition barge_in_trace (w : World) : list obs :=
  match task_in_flight w with
  | Some (t, _) => [TaskCancelled t]
  | None => []
  end ++ [Sent EvInterrupt; Sent (EvStatus StListening); Sent (EvVad true)].

(** The [finally] clause of [handle_voice_websocket]: the session is marked
    inactive and a task still in flight is cancelled.  The cancellation is
    not awaited there; the task handles it the next time the loop runs it,
    which is what [cancel_and_await] records. *)
Definition cleanup : M unit :=
  modify (Upd.active false) ;;
  s <- get_session ;;
  match _processing_task s with
  | Some t =>
      finished <- task_done t ;;
      if negb finished then cancel_and_await t else ret tt
  | None => ret tt
  end.

(** A session in the middle of an utterance: [speech] loud frames heard,
    [quiet_frames] quiet frames counted since, [buf] buffered, no task in
    flight. *)
Definition mid_utterance (speech quiet_frames : Z) (buf : list byte) : World :=
  mkWorld
    (Upd.audio_buffer buf
       (Upd.silence_frames quiet_frames
          (Upd.speech_frames speech
             (Upd.is_speaking true
                (Upd.state USER_SPEAKING (new_session 0))))))
    0 [] [] O.

(** A frame of 4096 samples of amplitude 4096, and one of 4096 zero
    samples: 8192 bytes each. *)
Definition loud_frame : list byte :=
  concat (repeat [x00; x10] (Z.to_nat 4096)).
Definition quiet_frame : list byte := repeat x00 (Z.to_nat 8192).

(** A peer that interrupts the greeting, speaks, reports the end of the
    interrupted playback while its utterance is being processed, and speaks
    again.  Times are in milliseconds since the connection. *)
Definition overlapping_turns : list (Z * inbound) :=
  [ (256, InBinary loud_frame); (512, InBinary loud_frame);
    (768, InBinary loud_frame); (1024, InBinary loud_frame);
    (1280, InBinary quiet_frame); (1536, InBinary quiet_frame);
    (1792, InBinary quiet_frame); (2048, InBinary quiet_frame);
    (2304, InPlaybackDone);
    (3072, InBinary loud_frame); (3328, InBinary loud_frame);
    (3584, InBinary quiet_frame); (3840, InBinary quiet_frame);
    (4096, InBinary quiet_frame); (4352, InBinary quiet_frame) ].

Definition is_pipeline (c : coroutine) : bool :=
  match c with ProcessUtterance _ => true | AutoGreet => false end.

Definition is_TaskCancelled (o : obs) : bool :=
  match o with TaskCancelled _ => true | _ => false end.


(** Every run of [m], whenever a cancellation lands in it or none does,
    takes a world to one that [R] relates to it. *)
Definition always {A : Type} (R : World -> World -> Prop) (m : M A) : Prop :=
  forall c w, R w (snd (fst (m c w))).

(** The trace only grows, by at most [n] observations that satisfy [p]. *)
Definition grows (p : obs -> bool) (n : nat) (w w' : World) : Prop :=
  exists new, trace w' = trace w ++ new /\ (count_obs p new <= n)%nat.

Definition same_history (w w' : World) : Prop :=
  conversation_history (session w') = conversation_history (session w).

(** The history is untouched, or it has received the complete turn: the
    user entry and the assistant entry, then the cap. *)
Definition whole_turn_or_nothing (w w' : World) : Prop :=
  same_history w w' \/
  exists transcript full_response,
    conversation_history (session w') =
      cap_history (conversation_history (session w)
                   ++ [Turn RoleUser transcript;
                       Turn RoleAssistant full_response]).

(** A synthesis attempt that yields no audio: the timer fires, the request
    raises, the status is not 200, or the answer holds no audio. *)
Definition tts_fails (env : Backend) (attempt : nat) (text : pystr) : Prop :=
  match tts_post env attempt text with
  | TimedOut => True
  | Returned (TtsRaised _) => True
  | Returned (TtsReplied status_code first_audio) =>
      status_code <> 200 \/ truthy_bytes first_audio = false
  end.

(** A non-streaming generation call that yields no text. *)
Definition fallback_fails (env : Backend) : Prop :=
  match llm_post env with
  | PostRaised => True
  | PostReplied status_code content =>
      status_code <> 200 \/
      match content with
      | None => True
      | Some text => strip text = []
      end
  end.

(** The transcription backend hears [transcript], which is not blank. *)
Definition hears (env : Backend) (audio_data : list byte) (transcript : pystr)
  : Prop :=
  stt_post env audio_data = Returned (SttReplied 200 transcript) /\
  forallb py_space transcript = false.

(** The context the retrieval stage hands to the generation stage. *)
Definition context_for (env : Backend) (transcript : pystr) : option pystr :=
  match rag_search env transcript with
  | Returned ctx => ctx
  | TimedOut => None
  end.

Definition add_trace (new : list obs) (w : World) : World :=
  mkWorld (session w) (clock w) (trace w ++ new) (loop_tasks w) (next_task w).

(** What one synthesis attempt placed under [wait_for] comes back with. *)
Definition tts_outcome (env : Backend) (attempt : nat) (text : pystr)
  : res (option (list byte)) :=
  match tts_post env attempt text with
  | TimedOut => Exc TimeoutError
  | Returned (TtsRaised _) => Ok None
  | Returned (TtsReplied status_code first_audio) =>
      if negb (status_code =? 200) then Ok None else Ok first_audio
  end.

(** The text handed to the synthesis backend for a reply. *)
Definition tts_input (full_response : pystr) : pystr :=
  Streaming._smart_truncate full_response Streaming.default_limit.

(** The messages and calls of a turn up to the moment the reply starts to
    be generated. *)
Definition turn_opening (audio_data : list byte) (transcript : pystr)
  : list obs :=
  [Sent (EvStatus StTranscribing); CallSTT audio_data;
   Sent (EvTranscript transcript RoleUser); Sent (EvStatus StSearching);
   CallRAG transcript; Sent (EvStatus StThinking)].

(** Backends for the examples.  All hear "hi" and find no context.
    [obliging_env] streams the reply "ok" and synthesizes one byte of
    audio; [mute_env] never answers a synthesis request in time;
    [refusing_env] rejects the streaming request with status 400 and fails
    the non-streaming one with status 500. *)
Definition obliging_env : Backend :=
  {| stt_post := fun _ => Returned (SttReplied 200 [104; 105]%N);
     rag_search := fun _ => Returned None;
     llm_stream := fun _ _ _ =>
       StreamOpened 200 [Delta [111; 107]%N; DoneMarker] None true;
     llm_post := PostRaised;
     tts_post := fun _ _ => Returned (TtsReplied 200 (Some [x01])) |}.

Definition mute_env : Backend :=
  {| stt_post := stt_post obliging_env;
     rag_search := rag_search obliging_env;
     llm_stream := llm_stream obliging_env;
     llm_post := llm_post obliging_env;
     tts_post := fun _ _ => TimedOut |}.



(** A session in [PROCESSING] whose pipeline task, number 1, has just been
    started on the utterance [audio_data]. *)
Definition turn_started (audio_data : list byte) : World :=
  mkWorld
    (Upd.processing_task (Some 1%nat)
       (Upd.state PROCESSING (new_session 0)))
    0 [] [(1%nat, ProcessUtterance audio_data)] 2%nat.

(** The same session once the reply is playing: the state the pipeline has
    set before its last two suspension points. *)
Definition reply_playing (audio_data : list byte) : World :=
  W.with_session (Upd.state AI_SPEAKING) (turn_started audio_data).

(** The outcome of a turn cancelled at its [k]-th suspension point. *)
Definition cancelled_at (env : Backend) (audio_data : list byte) (k : nat)
  (w : World) : res unit * World :=
  fst (_process_utterance env audio_data (Some k) w).

(** Inbound messages whose handler writes nothing to the session and lets
    the loop go on. *)
Definition is_passive (m : inbound) : bool :=
  match m with
  | InConfig | InUserInterrupt | InPong | InUnknown | InAudioNoData => true
  | _ => false
  end.

(** The states the watchdog does not look at. *)
Definition unwatched (st : SessionState) : bool :=
  match st with
  | LISTENING | USER_SPEAKING | PROCESSING => true
  | AI_SPEAKING | GREETING => false
  end.

(** A frame of 4096 samples of constant amplitude [amp], for
    [0 <= amp < 32768]: its RMS is [amp]. *)
Definition tone (amp : Z) : list byte :=
  let b (n : Z) := match Byte.of_N (Z.to_N n) with Some x => x | None => x00 end in
  concat (repeat [b (amp mod 256); b (amp / 256)] (Z.to_nat 4096)).

(** A session that has finished greeting and listens, nothing in flight. *)
Definition listening : World :=
  mkWorld (Upd.state LISTENING (new_session 0)) 0 [] [] O.

Definition is_sent (o : obs) : bool :=
  match o with Sent _ => true | _ => false end.

(* ===================================================================== *)
(** ** ws_handler.py: the WAV header *)
(* ===================================================================== *)

Module Wav.

Definition byte_of_Z (v : Z) : byte :=
  match Byte.of_N (Z.to_N (v mod 256)) with
  | Some b => b
  | None => x00
  end.

Definition byte_val (b : byte) : Z := Z.of_N (Byte.to_N b).

(** The [n] low-order bytes of [v], least significant first. *)
Fixpoint le_bytes (n : nat) (v : Z) : list byte :=
  match n with
  | O => []
  | S n' => byte_of_Z v :: le_bytes n' (v / 256)
  end.

(** The number a little-endian byte string stands for. *)
Fixpoint le_value (bs : list byte) : Z :=
  match bs with
  | [] => 0
  | b :: rest => byte_val b + 256 * le_value rest
  end.

(** [struct.pack] of one unsigned field of [n] bytes (formats [H] and [I]
    under [<]); [None] is the [struct.error] raised outside the range. *)
Definition pack_uint (n : nat) (v : Z) : option (list byte) :=
  if (0 <=? v) && (v <? 256 ^ Z.of_nat n) then Some (le_bytes n v) else None.

(** Concatenation of packed fields, failing as soon as one fails. *)
Definition then_field (a rest : option (list byte)) : option (list byte) :=
  match a, rest with
  | Some x, Some y => Some (x ++ y)
  | _, _ => None
  end.

Definition tag_RIFF : list byte := [x52; x49; x46; x46].
Definition tag_WAVE : list byte := [x57; x41; x56; x45].
Definition tag_fmt : list byte := [x66; x6d; x74; x20].
Definition tag_data : list byte := [x64; x61; x74; x61].

(** The header [struct.pack("<4sI4s4sIHHIIHH4sI", ...)] builds. *)
Definition wav_header (data_size sample_rate channels bits : Z)
  : option (list byte) :=
  then_field (Some tag_RIFF)
  (then_field (pack_uint 4 (36 + data_size))
  (then_field (Some tag_WAVE)
  (then_field (Some tag_fmt)
  (then_field (pack_uint 4 16)
  (then_field (pack_uint 2 1)
  (then_field (pack_uint 2 channels)
  (then_field (pack_uint 4 sample_rate)
  (then_field (pack_uint 4 (sample_rate * channels * bits / 8))
  (then_field (pack_uint 2 (channels * bits / 8))
  (then_field (pack_uint 2 bits)
  (then_field (Some tag_data)
              (pack_uint 4 data_size)))))))))))).

(** [_pcm_to_wav]; [None] is the [struct.error] of a field out of range. *)
Definition _pcm_to_wav (pcm_data : list byte) (sample_rate channels bits : Z)
  : option (list byte) :=
  let data_size := len pcm_data in
  match wav_header data_size sample_rate channels bits with
  | Some header => Some (header ++ pcm_data)
  | None => None
  end.

(** The bytes [first .. first + n - 1] of [bs], read as a little-endian
    number. *)
Definition field (first n : nat) (bs : list byte) : Z :=
  le_value (firstn n (skipn first bs)).

End Wav.

(** A synthesis request whose input is longer than 493 code points. *)
Definition tts_too_long (o : obs) : bool :=
  match o with
  | CallTTS inputs => 493 <? len inputs
  | _ => false
  end.

(** What a run of a turn may do to the history: leave it alone, or keep a
    tail of it and append the user entry and the assistant entry of the
    turn, the result being [min 10 (n + 2)] entries long. *)
Definition history_step (w w' : World) : Prop :=
  let h := conversation_history (session w) in
  let h' := conversation_history (session w') in
  h' = h \/
  exists transcript full_response dropped kept,
    h = dropped ++ kept /\
    h' = kept ++ [Turn RoleUser transcript; Turn RoleAssistant full_response] /\
    len h' = Z.min MAX_HISTORY_ENTRIES (len h + 2).

(** What the handlers maintain about the VAD fields of the session: the
    barge-in counter stays below its trigger, and the frame counters and
    the buffer agree with the speaking flag. *)
Definition vad_consistent (s : VoiceSession) : Prop :=
  0 <= _barge_in_frames s < MIN_BARGE_IN_FRAMES /\
  0 <= _silence_frames s /\
  if _is_speaking s
  then 1 <= _speech_frames s /\
       _silence_frames s * FRAME_DURATION_MS < SILENCE_DURATION_MS
  else _speech_frames s = 0 /\ _audio_buffer s = [].

(** The VAD fields are left alone. *)
Definition same_vad (w w' : World) : Prop :=
  _barge_in_frames (session w') = _barge_in_frames (session w) /\
  _silence_frames (session w') = _silence_frames (session w) /\
  _speech_frames (session w') = _speech_frames (session w) /\
  _is_speaking (session w') = _is_speaking (session w) /\
  _audio_buffer (session w') = _audio_buffer (session w).

(** A chunk the VAD counts as silence, and one it counts as speech. *)
Definition quiet_chunk (a : list byte) : Prop :=
  exists r, _calculate_rms a = Some r /\ quiet r.

Definition speech_chunk (a : list byte) : Prop :=
  exists r, _calculate_rms a = Some r /\ rms_gt r SPEECH_THRESHOLD = true.

(** A session whose VAD listens, with no utterance under way or one with
    less than 300 ms of speech counted so far. *)
Definition unconfirmed (w : World) : Prop :=
  (_state (session w) = USER_SPEAKING \/ _state (session w) = LISTENING) /\
  in_cooldown w = false /\
  0 <= _silence_frames (session w) /\
  if _is_speaking (session w)
  then _speech_frames (session w) * FRAME_DURATION_MS < MIN_SPEECH_DURATION_MS
       /\ _silence_frames (session w) * FRAME_DURATION_MS < SILENCE_DURATION_MS
  else _audio_buffer (session w) = [].

(** The transcription backend yields nothing to go on: the timer fires, the
    request raises, the status is not 200, or the transcript is blank. *)
Definition unheard (env : Backend) (audio_data : list byte) : Prop :=
  match stt_post env audio_data with
  | TimedOut => True
  | Returned (SttRaised _) => True
  | Returned (SttReplied status_code transcript) =>
      status_code <> 200 \/ forallb py_space transcript = true
  end.

(** A backend that never transcribes in time. *)
Definition deaf_env : Backend :=
  {| stt_post := fun _ => TimedOut;
     rag_search := rag_search obliging_env;
     llm_stream := llm_stream obliging_env;
     llm_post := llm_post obliging_env;
     tts_post := tts_post obliging_env |}.

Definition is_token_event (o : obs) : bool :=
  match o with Sent (EvToken _) => true | _ => false end.

(* ===================================================================== *)
(** ** streaming_service.py: the text side of the streaming synthesis *)
(* ===================================================================== *)

Module TtsStream.

(** The sentence boundaries [send_text] looks for: [.], the danda, [!],
    [?] and [,], in the order the code lists them. *)
Definition separators : list N := [46; 2404; 33; 63; 44]%N.

Fixpoint find_aux (l : pystr) (c : N) (i : Z) : Z :=
  match l with
  | [] => -1
  | x :: t => if N.eqb x c then i else find_aux t c (i + 1)
  end.

(** [l.find(c)] for a one-character needle: the lowest index holding [c],
    or [-1]. *)
Definition find (l : pystr) (c : N) : Z := find_aux l c 0.

(** [c in l] for a one-character needle. *)
Definition contains (c : N) (l : pystr) : bool := existsb (N.eqb c) l.

(** [l[k:]] for [k >= 0]. *)
Definition slice_from {A : Type} (l : list A) (k : Z) : list A :=
  skipn (Z.to_nat k) l.

(** The [for sep in ...] loop that finds the first boundary. *)
Definition first_boundary (accumulated : pystr) : Z :=
  fold_left
    (fun idx sep =>
       let pos := find accumulated sep in
       if negb (pos =? -1) && ((idx =? -1) || (pos <? idx)) then pos
       else idx)
    separators (-1).

(** The inner [while] loop of [send_text]: the sentences sent, in order,
    and what is left in [accumulated].  [fuel] bounds the iterations;
    [None] is a loop still running when the fuel is spent. *)
Fixpoint drain (fuel : nat) (accumulated : pystr)
  : option (list pystr * pystr) :=
  match fuel with
  | O => None
  | S fuel' =>
      if existsb (fun sep => contains sep accumulated) separators then
        let idx := first_boundary accumulated in
        if negb (idx =? -1) then
          let sentence := strip (slice_to accumulated (idx + 1)) in
          let accumulated := slice_from accumulated (idx + 1) in
          match drain fuel' accumulated with
          | Some (sent, remaining) =>
              Some ((if truthy sentence then [sentence] else []) ++ sent, remaining)
          | None => None
          end
        else drain fuel' accumulated
      else Some ([], accumulated)
  end.

(** What [send_text] writes to the synthesis socket. *)
Inductive ws_out : Type :=
| SendText (text : pystr)
| SendEof.

(** [send_text] run on the items the queue delivers, [None] being the end
    marker; items after it are never read.  A queue that runs dry without
    the marker leaves the coroutine waiting, with what it has sent so far.
    Each inner loop is given one more iteration than [accumulated] has
    characters. *)
Fixpoint send_text (queue : list (option pystr)) (accumulated : pystr)
  : option (list ws_out) :=
  match queue with
  | [] => Some []
  | None :: _ =>
      Some ((if truthy (strip accumulated) then [SendText accumulated] else [])
            ++ [SendEof])
  | Some text :: rest =>
      let accumulated := accumulated ++ text in
      match drain (S (length accumulated)) accumulated with
      | Some (sent, accumulated) =>
          match send_text rest accumulated with
          | Some later => Some (map SendText sent ++ later)
          | None => None
          end
      | None => None
      end
  end.

End TtsStream.

(** A separator of [send_text]. *)
Definition is_sep (c : N) : bool := existsb (N.eqb c) TtsStream.separators.

Definition sep_free (l : pystr) : Prop := Forall (fun c => is_sep c = false) l.

(** A run of characters closed by its only separator. *)
Definition sentence_piece (p : pystr) : Prop :=
  exists body sep, p = body ++ [sep] /\ is_sep sep = true /\ sep_free body.

(** A text cut after each separator: the pieces, and the unfinished tail
    that follows [pending]. *)
Fixpoint sentences (pending s : pystr) : list pystr * pystr :=
  match s with
  | [] => ([], pending)
  | c :: t =>
      if is_sep c then
        let (pieces, remaining) := sentences [] t in
        ((pending ++ [c]) :: pieces, remaining)
      else sentences (pending ++ [c]) t
  end.

(** The sentences [send_text] sends for a list of pieces. *)
Definition spoken (pieces : list pystr) : list pystr :=
  filter truthy (map strip pieces).

(* ===================================================================== *)
(** ** The greeting: generate_greeting and VoiceSession._auto_greet *)
(* ===================================================================== *)

(** The greeting used when none can be generated. *)
Definition GENERIC_GREETING : pystr :=
  [3112; 3118; 3128; 3149; 3093; 3134; 3120; 3074; 33; 32; 3112; 3143; 3112;
   3137; 32; 3114; 3149; 3120; 3135; 3119; 44; 32; 3118; 3136; 3093; 3137;
   32; 3086; 3122; 3134; 32; 3128; 3129; 3134; 3119; 3074; 32; 3098; 3143;
   3119; 3095; 3122; 3112; 3137; 63]%N.

(** The content of the user entry that opens the history of a call. *)
Definition CALL_STARTED : pystr :=
  [40; 3093; 3134; 3122; 3149; 32; 3114; 3149; 3120; 3134; 3120; 3074; 3117;
   3118; 3144; 3074; 3110; 3135; 41]%N.

(** The collaborators of the greeting, as the answers they give: the
    business summary ([get_business_summary] turns every failure into
    [None]), the request of [generate_greeting] placed under the 8 s timer,
    and the synthesis request, which [_auto_greet] awaits without a
    timer. *)
Record Greeter : Type := mkGreeter {
  business_summary : option pystr;
  greeting_post : pystr -> timed llm_post_reply;
  greeting_tts : pystr -> tts_post_reply
}.

(** What [rest_tts] returns for a reply of the synthesis backend. *)
Definition tts_reply_audio (reply : tts_post_reply) : option (list byte) :=
  match reply with
  | TtsRaised _ => None
  | TtsReplied status_code first_audio =>
      if negb (status_code =? 200) then None else first_audio
  end.

Section Greeting.

Variable g : Greeter.

(** [generate_greeting]; without a business context it returns before its
    first suspension point. *)
Definition generate_greeting (business_context : option pystr)
  : M (timed pystr) :=
  match business_context with
  | None => ret (Returned GENERIC_GREETING)
  | Some context =>
      if negb (truthy context) then ret (Returned GENERIC_GREETING)
      else
        await_point ;;
        match greeting_post g context with
        | TimedOut => ret TimedOut
        | Returned PostRaised => ret (Returned GENERIC_GREETING)
        | Returned (PostReplied status_code content) =>
            if raises_for_status status_code
            then ret (Returned GENERIC_GREETING)
            else
              match content with
              | None => ret (Returned GENERIC_GREETING)
              | Some text => ret (Returned (strip text))
              end
        end
  end.

(** [await rest_tts(text)], with no timer around it. *)
Definition rest_tts_awaited (text : pystr) : M (option (list byte)) :=
  let tts_text := Streaming._smart_truncate text Streaming.default_limit in
  observe (CallTTS tts_text) ;;
  await_point ;;
  ret (tts_reply_audio (greeting_tts g tts_text)).

(** [_auto_greet].  [get_business_summary] never suspends; its call and
    the request of [generate_greeting] leave no observation in the
    trace. *)
Definition _auto_greet : M unit :=
  try_except
    (send_event (EvStatus StThinking) ;;
     let business_context := business_summary g in
     greeting_text <-
       try_except (wait_for (generate_greeting business_context))
         (fun e =>
            match e with
            | TimeoutError => Some (ret GENERIC_GREETING)
            | _ => None
            end) ;;
     send_event (EvTranscript greeting_text RoleAssistant) ;;
     send_event (EvStatus StSpeaking) ;;
     audio_bytes <- rest_tts_awaited greeting_text ;;
     match audio_bytes with
     | Some (b :: bs) =>
         set_state AI_SPEAKING ;;
         send_event (EvAudio (b :: bs))
     | _ =>
         set_state LISTENING ;;
         send_event (EvStatus StListening)
     end ;;
     modify (fun s =>
       Upd.history (conversation_history s ++ [Turn RoleUser CALL_STARTED]) s) ;;
     modify (fun s =>
       Upd.history
         (conversation_history s ++ [Turn RoleAssistant greeting_text]) s))
    (fun e =>
       if is_Exception e
       then Some (set_state LISTENING ;; send_event (EvStatus StListening))
       else None).

End Greeting.

(** The text the greeting is given the chance to speak: the generated one,
    or the generic one whenever the summary is missing or empty, the
    request times out, raises, is answered outside the 2xx range or holds
    no content. *)
Definition greeting_of (g : Greeter) : pystr :=
  match business_summary g with
  | None => GENERIC_GREETING
  | Some context =>
      if negb (truthy context) then GENERIC_GREETING
      else
        match greeting_post g context with
        | Returned (PostReplied status_code (Some text)) =>
            if raises_for_status status_code then GENERIC_GREETING
            else strip text
        | _ => GENERIC_GREETING
        end
  end.

(** The history is untouched, or it has received the two entries of the
    greeting. *)
Definition greeting_step (w w' : World) : Prop :=
  same_history w w' \/
  exists greeting_text,
    conversation_history (session w') =
      conversation_history (session w)
      ++ [Turn RoleUser CALL_STARTED; Turn RoleAssistant greeting_text].

(** A greeter with a business summary and a backend that answers. *)
Definition welcoming : Greeter :=
  {| business_summary := Some [97]%N;
     greeting_post := fun _ => Returned (PostReplied 200 (Some [32; 104; 105]%N));
     greeting_tts := fun _ => TtsReplied 200 (Some [x01]) |}.

(** The frames of an utterance under way, none of which closes it: the
    silence and speech counters they lead to, from [sil] and [speech].
    [None] when a frame cannot be measured or closes the silence window. *)
Fixpoint utterance_tail (sil speech : Z) (chunks : list (list byte))
  : option (Z * Z) :=
  match chunks with
  | [] => Some (sil, speech)
  | a :: rest =>
      match _calculate_rms a with
      | None => None
      | Some r =>
          if rms_gt r SPEECH_THRESHOLD then utterance_tail 0 (speech + 1) rest
          else if SILENCE_DURATION_MS <=? (sil + 1) * FRAME_DURATION_MS
               then None
               else utterance_tail (sil + 1) speech rest
      end
  end.

(** The world [w] with the VAD counters, the buffer and the chunk count
    set. *)
Definition utter (w : World) (sil speech : Z) (buf : list byte) (count : Z)
  : World :=
  W.with_session
    (fun s =>
       Upd.audio_buffer buf
         (Upd.silence_frames sil
            (Upd.speech_frames speech (Upd.chunk_count count s))))
    w.

(* ===================================================================== *)
(** ** streaming_service.py: the shared HTTP client *)
(* ===================================================================== *)

Module HttpClient.

(** The clients created so far, named by their order of creation, with
    their [is_closed] flag, and the module variable [_http_client]. *)
Record Clients : Type := mkClients {
  is_closed : nat -> bool;
  created : nat;
  _http_client : option nat
}.

(** [httpx.AsyncClient(...)] assigned to the module variable. *)
Definition fresh (st : Clients) : nat * Clients :=
  (created st,
   mkClients (fun c => if Nat.eqb c (created st) then false else is_closed st c)
             (S (created st)) (Some (created st))).

Definition get_http_client (st : Clients) : nat * Clients :=
  match _http_client st with
  | None => fresh st
  | Some client => if is_closed st client then fresh st else (client, st)
  end.

(** [client.aclose()]. *)
Definition aclose (client : nat) (st : Clients) : Clients :=
  mkClients (fun c => if Nat.eqb c client then true else is_closed st c)
            (created st) (_http_client st).

Definition cleanup_http_client (st : Clients) : Clients :=
  match _http_client st with
  | Some client =>
      if negb (is_closed st client)
      then mkClients (is_closed (aclose client st)) (created st) None
      else st
  | None => st
  end.

(** At import time: no client yet. *)
Definition initial : Clients := mkClients (fun _ => false) O None.

(** The module variable names a client that exists. *)
Definition well_formed (st : Clients) : Prop :=
  match _http_client st with
  | Some client => (client < created st)%nat
  | None => True
  end.

End HttpClient.



(* ===================================================================== *)
(** ** The session over time: tasks that finish, and the teardown *)
(* ===================================================================== *)

(** The coroutine a task runs. *)
Definition body_of (env : Backend) (g : Greeter) (c : coroutine) : M unit :=
  match c with
  | AutoGreet => _auto_greet g
  | ProcessUtterance audio_data => _process_utterance env audio_data
  end.

(** Task [t] runs to its end, nobody cancelling it, and ends at time
    [now]; what it sends and writes is recorded together at that moment.
    A task that has finished is no longer pending: [task.done()] answers
    [True] for it from then on. *)
Definition task_finishes (env : Backend) (g : Greeter) (now : Z) (t : task_id)
  (w : World) : World :=
  match find_task t (loop_tasks w) with
  | Some c =>
      let w' := snd (exec (body_of env g c) (W.with_clock now w)) in
      W.with_tasks (remove_task t (loop_tasks w')) w'
  | None => w
  end.

(** What happens to a session: the loop receives a message, or a task
    finishes. *)
Inductive happening : Type :=
| Receives (now : Z) (m : inbound)
| Finishes (now : Z) (t : task_id).

(** [handle_voice_websocket] after the connection is accepted.  When the
    loop ends, by the [break] of an [end] message or by an exception of a
    handler, the [finally] clause runs and nothing more is received. *)
Fixpoint session_run (env : Backend) (g : Greeter) (hs : list happening)
  (w : World) : World :=
  match hs with
  | [] => w
  | Receives now m :: rest =>
      match receive now m w with
      | (Ok true, w') => session_run env g rest w'
      | (_, w') => snd (exec cleanup w')
      end
  | Finishes now t :: rest => session_run env g rest (task_finishes env g now t w)
  end.

(** A greeter whose synthesis request fails: the greeting is shown but not
    spoken. *)
Definition voiceless : Greeter :=
  {| business_summary := business_summary welcoming;
     greeting_post := greeting_post welcoming;
     greeting_tts := fun _ => TtsRaised OtherError |}.

(** A caller who coughs twice while the greeting is prepared, hears no
    greeting, then says something and is answered: the greeting task ends
    at 600 ms, the turn at 3000 ms, and the reply is playing.  Frames are
    8192 bytes; times are in milliseconds since the connection. *)
Definition cough_then_turn : list happening :=
  [ Receives 256 (InBinary loud_frame); Receives 512 (InBinary loud_frame);
    Finishes 600 0%nat;
    Receives 1024 (InBinary loud_frame); Receives 1280 (InBinary loud_frame);
    Receives 1536 (InBinary quiet_frame); Receives 1792 (InBinary quiet_frame);
    Receives 2048 (InBinary quiet_frame); Receives 2304 (InBinary quiet_frame);
    Finishes 3000 1%nat ].

(* ===================================================================== *)
(** * Properties *)
(* ===================================================================== *)

(** ** Truncation of the synthesis input *)

Module TruncateFacts.

Import Streaming.

Lemma rfind_aux_spec (c : N) (l : pystr) : forall i acc,
  (rfind_aux l c i acc = acc /\ forall j, nth_error l j <> Some c) \/
  (exists p, rfind_aux l c i acc = i + Z.of_nat p /\
             nth_error l p = Some c /\
             forall j, (p < j)%nat -> nth_error l j <> Some c).
Proof.
  induction l as [|x t IH]; intros i acc; simpl.
  - left. split; [reflexivity|]. intros [|j]; discriminate.
  - destruct (IH (i + 1) (if N.eqb x c then i else acc))
      as [[E H]|[p [E [Hp Hl]]]].
    + destruct (N.eqb_spec x c) as [->|Hx].
      * right. exists O. rewrite E. split; [lia|]. split; [reflexivity|].
        intros [|j] Hj; [lia|]. simpl. apply H.
      * left. split; [exact E|]. intros [|j]; simpl; [congruence|apply H].
    + right. exists (S p). rewrite E. split; [lia|]. split; [exact Hp|].
      intros [|j] Hj; [lia|]. simpl. apply Hl. lia.
Qed.

Lemma rfind_spec (c : N) (l : pystr) :
  (rfind l c = -1 /\ forall j, nth_error l j <> Some c) \/
  (exists p, rfind l c = Z.of_nat p /\ nth_error l p = Some c /\
             forall j, (p < j)%nat -> nth_error l j <> Some c).
Proof.
  unfold rfind. destruct (rfind_aux_spec c l 0 (-1)) as [H|[p [E H]]].
  - left; exact H.
  - right. exists p. rewrite E. split; [lia|exact H].
Qed.

(** A character that satisfies [P] is not found beyond the last position
    that satisfies [P]. *)
Lemma rfind_le_last (P : N -> bool) (c : N) (l : pystr) (m : Z) :
  P c = true -> -1 <= m -> none_after P l m -> rfind l c <= m.
Proof.
  intros Pc Hm Hn. destruct (rfind_spec c l) as [[E _]|[p [E [Hp _]]]].
  - lia.
  - rewrite E. destruct (Z_lt_le_dec m (Z.of_nat p)) as [Hlt|Hle]; [|exact Hle].
    specialize (Hn p c Hlt Hp). congruence.
Qed.

Lemma rfind_at_last (c : N) (l : pystr) (p : nat) :
  nth_error l p = Some c ->
  (forall j, (p < j)%nat -> nth_error l j <> Some c) ->
  rfind l c = Z.of_nat p.
Proof.
  intros Hp Hl. destruct (rfind_spec c l) as [[_ H]|[q [E [Hq Hql]]]].
  - exfalso. exact (H p Hp).
  - rewrite E. f_equal.
    destruct (Nat.lt_trichotomy p q) as [Hlt|[Heq|Hgt]]; [|exact (eq_sym Heq)|].
    + exfalso. exact (Hl q Hlt Hq).
    + exfalso. exact (Hql p Hgt Hp).
Qed.

Lemma last_at_none_after (P : N -> bool) (l : pystr) (p : nat) :
  last_at P l p -> none_after P l (Z.of_nat p).
Proof.
  intros [_ H] j c Hj. apply H. lia.
Qed.

Lemma last_at_lt_length (P : N -> bool) (l : pystr) (p : nat) :
  last_at P l p -> (p < length l)%nat.
Proof.
  intros [[c [Hc _]] _]. apply nth_error_Some. congruence.
Qed.

(** The highest of the four searches is the last sentence boundary. *)
Lemma last_period_at (l : pystr) (p : nat) :
  last_at sentence_end l p ->
  Z.max (Z.max (Z.max (rfind l ch_period) (rfind l ch_bang))
               (rfind l ch_question)) (rfind l ch_danda) = Z.of_nat p.
Proof.
  intros H. pose proof (last_at_none_after H) as Hn.
  assert (Hb : forall c, sentence_end c = true -> rfind l c <= Z.of_nat p).
  { intros c Hc. apply (@rfind_le_last sentence_end); [exact Hc|lia|exact Hn]. }
  pose proof (Hb ch_period eq_refl) as B1.
  pose proof (Hb ch_bang eq_refl) as B2.
  pose proof (Hb ch_question eq_refl) as B3.
  pose proof (Hb ch_danda eq_refl) as B4.
  destruct H as [[c [Hc Pc]] Hl].
  assert (Hr : rfind l c = Z.of_nat p).
  { apply rfind_at_last; [exact Hc|].
    intros j Hj Hjc. specialize (Hl j c Hj Hjc). congruence. }
  unfold sentence_end in Pc.
  repeat (apply orb_prop in Pc; destruct Pc as [Pc|Pc]);
    apply N.eqb_eq in Pc; subst c; lia.
Qed.

Lemma last_period_none (l : pystr) (m : Z) :
  -1 <= m -> none_after sentence_end l m ->
  Z.max (Z.max (Z.max (rfind l ch_period) (rfind l ch_bang))
               (rfind l ch_question)) (rfind l ch_danda) <= m.
Proof.
  intros Hm Hn.
  assert (Hb : forall c, sentence_end c = true -> rfind l c <= m).
  { intros c Hc. apply (@rfind_le_last sentence_end); assumption. }
  pose proof (Hb ch_period eq_refl). pose proof (Hb ch_bang eq_refl).
  pose proof (Hb ch_question eq_refl). pose proof (Hb ch_danda eq_refl). lia.
Qed.

Lemma last_space_at (l : pystr) (q : nat) :
  last_at word_gap l q -> rfind l ch_space = Z.of_nat q.
Proof.
  intros [[c [Hc Pc]] Hl]. unfold word_gap in Pc. apply N.eqb_eq in Pc. subst c.
  apply rfind_at_last; [exact Hc|].
  intros j Hj Hjc. specialize (Hl j ch_space Hj Hjc). discriminate.
Qed.

Lemma slice_to_nonneg {A : Type} (l : list A) (k : Z) :
  0 <= k -> slice_to l k = firstn (Z.to_nat k) l.
Proof.
  intros Hk. unfold slice_to. destruct (Z.leb_spec 0 k); [reflexivity|lia].
Qed.

Lemma slice_to_prefix {A : Type} (l : list A) (n k : nat) :
  (k <= n)%nat -> slice_to (firstn n l) (Z.of_nat k) = firstn k l.
Proof.
  intros Hk. rewrite slice_to_nonneg by lia. rewrite Nat2Z.id.
  rewrite firstn_firstn. f_equal. lia.
Qed.

(** C8 (as amended): text within the limit is returned unchanged; longer
    text is cut right after the last sentence punctuation of its first
    [limit] characters when that punctuation sits beyond index [limit / 2];
    failing that, it is cut before the last space beyond index [limit / 2]
    and the ellipsis is appended; failing that too, the first [limit]
    characters are kept and the ellipsis is appended.  The ellipsis marks
    the word-boundary cut as well as the hard cut. *)
Theorem smart_truncate_cases (text : pystr) (limit : Z) :
  0 <= limit ->
  let t := firstn (Z.to_nat limit) text in
  (len text <= limit -> _smart_truncate text limit = text) /\
  (limit < len text ->
   (forall p, last_at sentence_end t p -> limit / 2 < Z.of_nat p ->
      _smart_truncate text limit = firstn (S p) text) /\
   (none_after sentence_end t (limit / 2) ->
    (forall q, last_at word_gap t q -> limit / 2 < Z.of_nat q ->
       _smart_truncate text limit = firstn q text ++ ellipsis) /\
    (none_after word_gap t (limit / 2) ->
       _smart_truncate text limit = t ++ ellipsis))).
Proof.
  intros Hl t. split.
  - intros Hle. unfold _smart_truncate.
    destruct (Z.leb_spec (len text) limit); [reflexivity|lia].
  - intros Hlt.
    assert (Hcut : slice_to text limit = t).
    { apply slice_to_nonneg; exact Hl. }
    assert (Hhalf : -1 <= limit / 2).
    { pose proof (Z.div_pos limit 2 Hl ltac:(lia)). lia. }
    assert (Hlen : (length t <= Z.to_nat limit)%nat).
    { unfold t. rewrite length_firstn. lia. }
    unfold _smart_truncate.
    destruct (Z.leb_spec (len text) limit) as [Hc|_]; [lia|].
    rewrite Hcut. cbv zeta. split.
    + intros p Hp Hhi. rewrite (last_period_at Hp).
      destruct (Z.ltb_spec (limit / 2) (Z.of_nat p)) as [_|Hc]; [|lia].
      pose proof (last_at_lt_length Hp) as Hpl.
      replace (Z.of_nat p + 1) with (Z.of_nat (S p)) by lia.
      unfold t. apply slice_to_prefix. lia.
    + intros Hnone. pose proof (last_period_none Hhalf Hnone) as Hmax.
      match goal with
      | |- context [limit / 2 <? ?m] =>
          destruct (Z.ltb_spec (limit / 2) m) as [Hc|_]; [lia|]
      end.
      split.
      * intros q Hq Hhi. rewrite (last_space_at Hq).
        destruct (Z.ltb_spec (limit / 2) (Z.of_nat q)) as [_|Hc]; [|lia].
        pose proof (last_at_lt_length Hq) as Hql.
        f_equal. unfold t. apply slice_to_prefix. lia.
      * intros Hns.
        pose proof (@rfind_le_last word_gap ch_space t (limit / 2)
                      eq_refl Hhalf Hns) as Hsp.
        destruct (Z.ltb_spec (limit / 2) (rfind t ch_space)) as [Hc|_]; [lia|].
        reflexivity.
Qed.

(** The text ["Go. on and on"] cut at 8: the sentence boundary at index 2
    is too early, the space at index 5 is used and the ellipsis follows. *)
Lemma smart_truncate_cases_witness :
  _smart_truncate [71; 111; 46; 32; 111; 110; 32; 97; 110; 100; 32; 111; 110]%N 8
  = [71; 111; 46; 32; 111; 110; 46; 46; 46]%N.
Proof.
  pose proof (@smart_truncate_cases
    [71; 111; 46; 32; 111; 110; 32; 97; 110; 100; 32; 111; 110]%N 8
    ltac:(lia)) as H.
  cbv zeta in H. destruct H as [_ H].
  specialize (H ltac:(vm_compute; reflexivity)). destruct H as [_ H].
  assert (Hn : none_after sentence_end
            (firstn (Z.to_nat 8)
               [71; 111; 46; 32; 111; 110; 32; 97; 110; 100; 32; 111; 110]%N)
            (8 / 2)).
  { intros j c Hj Hc. change (8 / 2) with 4 in Hj.
    do 5 (destruct j as [|j]; [lia|]).
    do 3 (destruct j as [|j]; [simpl in Hc; inversion Hc; reflexivity|]).
    simpl in Hc. destruct j; discriminate. }
  destruct (H Hn) as [Hq _].
  apply (Hq 6%nat).
  - split.
    + exists 32%N. split; reflexivity.
    + intros j c Hj Hc.
      do 7 (destruct j as [|j]; [lia|]).
      destruct j as [|j]; [simpl in Hc; inversion Hc; reflexivity|].
      simpl in Hc. destruct j; discriminate.
  - vm_compute. reflexivity.
Defined.

(** C8 (as stated) fails: on ["aaaa bbbb"] with limit 6 the code cuts at the
    space and appends the ellipsis, where the claim keeps the ellipsis for
    hard cuts only. *)
Lemma smart_truncate_word_cut_has_ellipsis :
  _smart_truncate [97; 97; 97; 97; 32; 98; 98; 98; 98]%N 6
    = [97; 97; 97; 97; 46; 46; 46]%N /\
  spec_smart_truncate [97; 97; 97; 97; 32; 98; 98; 98; 98]%N 6
    = [97; 97; 97; 97]%N /\
  _smart_truncate [97; 97; 97; 97; 32; 98; 98; 98; 98]%N 6
    <> spec_smart_truncate [97; 97; 97; 97; 32; 98; 98; 98; 98]%N 6.
Proof.
  repeat split; try (vm_compute; reflexivity).
  vm_compute. discriminate.
Qed.

End TruncateFacts.

(** ** The energy computation *)

Module AudioFacts.

Lemma unpack_h_length (n : nat) : forall bs ss,
  unpack_h n bs = Some ss -> length bs = (2 * n)%nat.
Proof.
  induction n as [|n IH]; intros bs ss H.
  - destruct bs; [reflexivity|discriminate].
  - destruct bs as [|lo [|hi rest]]; try discriminate.
    simpl in H. destruct (unpack_h n rest) as [ss'|] eqn:E; [|discriminate].
    simpl. rewrite (IH _ _ E). lia.
Qed.

Lemma calculate_rms_short (bs : list byte) :
  len bs < 2 -> _calculate_rms bs = Some 0%Q.
Proof.
  intros H. unfold _calculate_rms.
  destruct (Z.ltb_spec (len bs) 2); [reflexivity|lia].
Qed.

Lemma calculate_rms_odd (bs : list byte) :
  3 <= len bs -> Z.odd (len bs) = true -> _calculate_rms bs = None.
Proof.
  intros H3 Hodd. unfold _calculate_rms.
  destruct (Z.ltb_spec (len bs) 2); [lia|].
  destruct (unpack_h (Z.to_nat (len bs / 2)) bs) as [ss|] eqn:E; [|reflexivity].
  exfalso. apply unpack_h_length in E.
  pose proof (Z.div_mod (len bs) 2 ltac:(lia)) as Hdm.
  rewrite Zmod_odd, Hodd in Hdm.
  unfold len in *. lia.
Qed.

Lemma unpack_h_total (n : nat) : forall bs,
  length bs = (2 * n)%nat -> exists ss, unpack_h n bs = Some ss /\ length ss = n.
Proof.
  induction n as [|n IH]; intros bs H.
  - destruct bs; [|discriminate]. exists []. split; reflexivity.
  - destruct bs as [|lo [|hi rest]]; try (simpl in H; lia).
    destruct (IH rest) as [ss [E L]]; [simpl in H; lia|].
    exists (sample lo hi :: ss). simpl. rewrite E, L. split; reflexivity.
Qed.

(** On an even number of bytes the computation returns a value. *)
Lemma calculate_rms_even (bs : list byte) :
  Z.even (len bs) = true -> exists r, _calculate_rms bs = Some r.
Proof.
  intros Hev. unfold _calculate_rms.
  destruct (Z.ltb_spec (len bs) 2); [eexists; reflexivity|].
  destruct (@unpack_h_total (Z.to_nat (len bs / 2)) bs) as [ss [E _]].
  - pose proof (Z.div_mod (len bs) 2 ltac:(lia)) as Hdm.
    rewrite Zmod_even, Hev in Hdm. unfold len in *. lia.
  - rewrite E. destruct ss; eexists; reflexivity.
Qed.

(** C10 (as amended): [_calculate_rms] returns 0 below two bytes and raises
    on every odd length from 3 up; [handle_audio_chunk] raises on such a
    chunk exactly when the chunk reaches the measurement (in [AI_SPEAKING]
    and [GREETING], and in [LISTENING] and [USER_SPEAKING] outside the
    cooldown window), leaving the session untouched; in [PROCESSING] and
    during the cooldown the chunk is dropped and nothing is raised. *)
Theorem odd_chunk_raises_when_analysed (bs : list byte) (w : World) :
  (len bs < 2 -> _calculate_rms bs = Some 0%Q) /\
  (3 <= len bs -> Z.odd (len bs) = true ->
   _calculate_rms bs = None /\
   exec (handle_audio_chunk bs) w =
     if analysed w then (Exc StructError, w) else (Ok tt, w)).
Proof.
  split; [apply calculate_rms_short|].
  intros H3 Hodd. pose proof (calculate_rms_odd bs H3 Hodd) as Hr.
  split; [exact Hr|].
  destruct w as [s clk tr ts nx].
  unfold exec, analysed, in_cooldown, handle_audio_chunk, barge_in_check,
    vad_branch, _detect_speech, is_ai_speaking, bind, get_session, time_now,
    raise_if_none, raise, ret.
  simpl. rewrite Hr.
  destruct (_state s); simpl; try reflexivity;
    destruct ((0 <? _playback_ended_at s)
              && (clk - _playback_ended_at s <? PLAYBACK_COOLDOWN_MS));
    reflexivity.
Qed.

Lemma odd_chunk_raises_when_analysed_witness :
  _calculate_rms [x01; x02; x03] = None /\
  exec (handle_audio_chunk [x01; x02; x03]) (connect 0) =
    (Exc StructError, connect 0).
Proof.
  destruct (@odd_chunk_raises_when_analysed [x01; x02; x03] (connect 0))
    as [_ H].
  exact (H ltac:(vm_compute; discriminate) ltac:(reflexivity)).
Defined.

(** C10 (as stated) fails: a three-byte chunk received in [PROCESSING] is
    dropped without an exception, and a one-byte chunk is measured as 0
    and raises nothing either. *)
Lemma odd_chunk_dropped_in_processing :
  let w := W.with_session (Upd.state PROCESSING) (connect 0) in
  exec (handle_audio_chunk [x01; x02; x03]) w = (Ok tt, w) /\
  fst (exec (handle_audio_chunk [x01])
         (W.with_session (Upd.state LISTENING) (connect 0))) = Ok tt.
Proof.
  split; vm_compute; reflexivity.
Qed.

End AudioFacts.

(** ** The voice activity detector *)

Module VadFacts.

(** The VAD on a quiet frame while speaking, as one equation. *)
Lemma detect_quiet_speaking (r : rms) (now : Z) (s : VoiceSession) :
  quiet r -> _is_speaking s = true ->
  detect_on_rms r now s =
    let s1 := Upd.silence_frames (_silence_frames s + 1)
                (Upd.chunk_count (_chunk_count s + 1) s) in
    if SILENCE_DURATION_MS <=? (_silence_frames s + 1) * FRAME_DURATION_MS then
      let s2 := Upd.silence_frames 0
                  (Upd.speech_frames 0 (Upd.is_speaking false s1)) in
      if MIN_SPEECH_DURATION_MS <=? _speech_frames s * FRAME_DURATION_MS
      then (speech_end, s2)
      else (silence, Upd.audio_buffer [] s2)
    else (speech_continue, s1).
Proof.
  intros Hq Hs. unfold detect_on_rms. unfold quiet in Hq. rewrite Hq.
  simpl. rewrite Hs. simpl.
  destruct (SILENCE_DURATION_MS <=? (_silence_frames s + 1) * FRAME_DURATION_MS);
    reflexivity.
Qed.

(** The VAD on a quiet frame while not speaking. *)
Lemma detect_quiet_idle (r : rms) (now : Z) (s : VoiceSession) :
  quiet r -> _is_speaking s = false ->
  detect_on_rms r now s =
    (silence, Upd.silence_frames (_silence_frames s + 1)
                (Upd.chunk_count (_chunk_count s + 1) s)).
Proof.
  intros Hq Hs. unfold detect_on_rms. unfold quiet in Hq. rewrite Hq.
  simpl. rewrite Hs. reflexivity.
Qed.

(** Quiet frames never end an utterance that is not under way. *)
Lemma quiet_idle_no_speech_end (rs : list rms) (now : Z) :
  Forall quiet rs -> forall s, _is_speaking s = false ->
  filter is_speech_end (fst (detect_all rs now s)) = [].
Proof.
  induction 1 as [|r rest Hr Hrest IH]; intros s Hs; [reflexivity|].
  simpl. rewrite (detect_quiet_idle now s Hr Hs).
  specialize (IH (Upd.silence_frames (_silence_frames s + 1)
                    (Upd.chunk_count (_chunk_count s + 1) s)) Hs).
  destruct (detect_all rest now _) as [vs s2]. simpl in *. exact IH.
Qed.

(** A long enough run of quiet frames ends the utterance exactly once. *)
Lemma quiet_run_one_speech_end (rs : list rms) (now : Z) :
  Forall quiet rs -> forall s,
  _is_speaking s = true ->
  0 <= _silence_frames s ->
  _silence_frames s * FRAME_DURATION_MS < SILENCE_DURATION_MS ->
  SILENCE_DURATION_MS <= (_silence_frames s + len rs) * FRAME_DURATION_MS ->
  MIN_SPEECH_DURATION_MS <= _speech_frames s * FRAME_DURATION_MS ->
  length (filter is_speech_end (fst (detect_all rs now s))) = 1%nat.
Proof.
  induction 1 as [|r rest Hr Hrest IH]; intros s Hs H0 Hlt Hsil Hsp.
  - exfalso. unfold len in Hsil. simpl in Hsil. lia.
  - simpl. rewrite (detect_quiet_speaking now s Hr Hs). cbv zeta.
    destruct (Z.leb_spec SILENCE_DURATION_MS
                ((_silence_frames s + 1) * FRAME_DURATION_MS)) as [Hend|Hgo].
    + destruct (Z.leb_spec MIN_SPEECH_DURATION_MS
                  (_speech_frames s * FRAME_DURATION_MS)) as [_|Hc]; [|lia].
      match goal with
      | |- context [detect_all rest now ?s1] =>
          pose proof (@quiet_idle_no_speech_end rest now Hrest s1 eq_refl) as Hz;
          destruct (detect_all rest now s1) as [vs s2]
      end.
      simpl in *. rewrite Hz. reflexivity.
    + match goal with
      | |- context [detect_all rest now ?s1] =>
          assert (Hone : length (filter is_speech_end
                                   (fst (detect_all rest now s1))) = 1%nat);
          [apply IH|destruct (detect_all rest now s1) as [vs s2]]
      end.
      * exact Hs.
      * simpl. lia.
      * simpl. exact Hgo.
      * simpl. unfold len in *. simpl length in Hsil. lia.
      * simpl. exact Hsp.
      * simpl in *. exact Hone.
Qed.

(** C6: a frame at or below the speech threshold, processed while the VAD
    is speaking, counts one more silence frame.  While the counted silence
    stays below 1000 ms the utterance continues; once it reaches 1000 ms the
    VAD stops speaking and answers [speech_end] when the accumulated speech
    is at least 300 ms, and otherwise clears the buffer and answers
    [silence].  Over a run of quiet frames long enough to reach the window,
    after at least 300 ms of speech, [speech_end] is answered exactly
    once. *)
Theorem silence_window_ends_speech
  (audio_bytes : list byte) (r : rms) (now : Z) (s : VoiceSession) :
  _calculate_rms audio_bytes = Some r -> quiet r -> _is_speaking s = true ->
  exists v s',
    _detect_speech audio_bytes now s = Some (v, s') /\
    ((_silence_frames s + 1) * FRAME_DURATION_MS < SILENCE_DURATION_MS ->
     v = speech_continue /\
     _silence_frames s' = _silence_frames s + 1 /\
     _is_speaking s' = true /\
     _speech_frames s' = _speech_frames s /\
     _audio_buffer s' = _audio_buffer s) /\
    (SILENCE_DURATION_MS <= (_silence_frames s + 1) * FRAME_DURATION_MS ->
     _is_speaking s' = false /\
     _silence_frames s' = 0 /\
     _speech_frames s' = 0 /\
     (MIN_SPEECH_DURATION_MS <= _speech_frames s * FRAME_DURATION_MS ->
      v = speech_end /\ _audio_buffer s' = _audio_buffer s) /\
     (_speech_frames s * FRAME_DURATION_MS < MIN_SPEECH_DURATION_MS ->
      v = silence /\ _audio_buffer s' = [])) /\
    (forall rs,
       Forall quiet rs ->
       0 <= _silence_frames s ->
       _silence_frames s * FRAME_DURATION_MS < SILENCE_DURATION_MS ->
       SILENCE_DURATION_MS <= (_silence_frames s + len rs) * FRAME_DURATION_MS ->
       MIN_SPEECH_DURATION_MS <= _speech_frames s * FRAME_DURATION_MS ->
       length (filter is_speech_end (fst (detect_all rs now s))) = 1%nat).
Proof.
  intros Hr Hq Hs. unfold _detect_speech. rewrite Hr.
  rewrite (detect_quiet_speaking now s Hq Hs). cbv zeta.
  destruct (Z.leb_spec SILENCE_DURATION_MS
              ((_silence_frames s + 1) * FRAME_DURATION_MS)) as [Hend|Hgo].
  - destruct (Z.leb_spec MIN_SPEECH_DURATION_MS
                (_speech_frames s * FRAME_DURATION_MS)) as [Hlong|Hshort];
      eexists; eexists; (split; [reflexivity|]);
      (split; [intros Hc; lia|]);
      (split; [|intros rs Hrs; apply quiet_run_one_speech_end; assumption]);
      intros _; simpl; repeat split; try reflexivity; lia.
  - eexists; eexists; (split; [reflexivity|]).
    split; [intros _; simpl; repeat split; try reflexivity; exact Hs|].
    split; [intros Hc; lia|].
    intros rs Hrs; apply quiet_run_one_speech_end; assumption.
Qed.

(** Two speech frames heard, three quiet frames counted: the fourth quiet
    frame closes the 1000 ms window and ends the utterance. *)
Lemma silence_window_ends_speech_witness :
  option_map fst
    (_detect_speech [x00; x00] 0
       (Upd.is_speaking true
          (Upd.speech_frames 2 (Upd.silence_frames 3 (new_session 0)))))
  = Some speech_end.
Proof.
  destruct (@silence_window_ends_speech [x00; x00] 0%Q 0
              (Upd.is_speaking true
                 (Upd.speech_frames 2 (Upd.silence_frames 3 (new_session 0))))
              ltac:(reflexivity) ltac:(reflexivity) ltac:(reflexivity))
    as [v [s' [E [_ [H _]]]]].
  rewrite E. simpl.
  destruct (H ltac:(vm_compute; discriminate)) as [_ [_ [_ [Hv _]]]].
  destruct (Hv ltac:(vm_compute; discriminate)) as [-> _]. reflexivity.
Defined.

End VadFacts.

(** ** Gating and barge-in *)

Module BargeInFacts.

Ltac run_coro :=
  cbv [exec handle_audio_chunk barge_in_check _interrupt_ai cancel_and_await
       task_done set_state send_event await_point observe modify get_session
       time_now raise_if_none raise ret bind fst snd].

(** A muted frame at or below the barge-in threshold. *)
Lemma muted_quiet_frame (a : list byte) (r : rms) (w : World) :
  is_ai_speaking (session w) = true ->
  _calculate_rms a = Some r ->
  rms_gt r BARGE_IN_THRESHOLD = false ->
  exec (handle_audio_chunk a) w =
    (Ok tt,
     W.with_session
       (fun s => Upd.barge_in_frames 0 (Upd.chunk_count (_chunk_count s + 1) s))
       w).
Proof.
  intros Hm Hr Hq. run_coro. rewrite Hm, Hr, Hq. reflexivity.
Qed.

(** A muted loud frame that does not complete the required run. *)
Lemma muted_loud_frame (a : list byte) (r : rms) (w : World) :
  is_ai_speaking (session w) = true ->
  _calculate_rms a = Some r ->
  rms_gt r BARGE_IN_THRESHOLD = true ->
  _barge_in_frames (session w) + 1 < MIN_BARGE_IN_FRAMES ->
  exec (handle_audio_chunk a) w =
    (Ok tt,
     W.with_session
       (fun s => Upd.barge_in_frames (_barge_in_frames s + 1)
                   (Upd.chunk_count (_chunk_count s + 1) s))
       w).
Proof.
  intros Hm Hr Hq Hc. run_coro. rewrite Hm, Hr, Hq. simpl.
  destruct (Z.leb_spec MIN_BARGE_IN_FRAMES (_barge_in_frames (session w) + 1));
    [lia|reflexivity].
Qed.

(** The muted loud frame that completes the run: barge-in fires. *)
Lemma muted_firing_frame (a : list byte) (r : rms) (w : World) :
  is_ai_speaking (session w) = true ->
  _calculate_rms a = Some r ->
  rms_gt r BARGE_IN_THRESHOLD = true ->
  MIN_BARGE_IN_FRAMES <= _barge_in_frames (session w) + 1 ->
  exists w',
    exec (handle_audio_chunk a) w = (Ok tt, w') /\
    _state (session w') = USER_SPEAKING /\
    _audio_buffer (session w') = a /\
    _is_speaking (session w') = true /\
    _speech_frames (session w') = 1 /\
    _silence_frames (session w') = 0 /\
    _barge_in_frames (session w') = 0 /\
    conversation_history (session w') = conversation_history (session w) /\
    trace w' = trace w ++ barge_in_trace w /\
    match task_in_flight w with
    | Some (t, _) =>
        loop_tasks w' = remove_task t (loop_tasks w) /\
        _processing_task (session w') = None
    | None =>
        loop_tasks w' = loop_tasks w /\
        _processing_task (session w') = _processing_task (session w)
    end.
Proof.
  intros Hm Hr Hq Hc. run_coro. rewrite Hm, Hr, Hq. simpl.
  destruct (Z.leb_spec MIN_BARGE_IN_FRAMES (_barge_in_frames (session w) + 1))
    as [_|Hlt]; [|lia].
  unfold barge_in_trace, task_in_flight.
  destruct w as [s clk tr ts nx]. simpl.
  destruct (_processing_task s) as [t|] eqn:Ht; simpl.
  - destruct (find_task t ts) as [body|] eqn:Hf; simpl; rewrite ?Hf; simpl.
    + eexists. split; [reflexivity|]. simpl.
      destruct body; simpl; rewrite <- ?app_assoc; repeat split; reflexivity.
    + eexists. split; [reflexivity|]. simpl.
      rewrite <- ?app_assoc. repeat split; try reflexivity. exact Ht.
  - eexists. split; [reflexivity|]. simpl.
    rewrite <- ?app_assoc. repeat split; try reflexivity. exact Ht.
Qed.

Lemma same_but_counters_refl (w : World) : same_but_counters w w.
Proof. unfold same_but_counters. repeat split; reflexivity. Qed.

Lemma same_but_counters_trans (w1 w2 w3 : World) :
  same_but_counters w1 w2 -> same_but_counters w2 w3 ->
  same_but_counters w1 w3.
Proof.
  unfold same_but_counters. intros H1 H2.
  repeat match goal with H : _ /\ _ |- _ => destruct H end.
  repeat split; congruence.
Qed.

Lemma same_but_counters_count (f g : VoiceSession -> Z) (w : World) :
  same_but_counters w
    (W.with_session
       (fun s => Upd.barge_in_frames (f s) (Upd.chunk_count (g s) s)) w).
Proof. unfold same_but_counters. repeat split; reflexivity. Qed.

Lemma feed_app (l1 l2 : list (list byte)) : forall w,
  feed (l1 ++ l2) w = feed l2 (feed l1 w).
Proof.
  induction l1 as [|a l1 IH]; intros w; [reflexivity|]. simpl. apply IH.
Qed.

Lemma no_triple_tail (b : bool) (l : list bool) :
  no_triple (b :: l) = true -> no_triple l = true.
Proof.
  destruct b; [|exact (fun H => H)].
  destruct l as [|[] [|[] l]]; simpl; intros H; try reflexivity;
    try discriminate; exact H.
Qed.

Lemma no_triple_suffix (xs ys : list bool) :
  no_triple (xs ++ ys) = true -> no_triple ys = true.
Proof.
  induction xs as [|x xs IH]; intros H; [exact H|].
  apply IH. exact (no_triple_tail _ _ H).
Qed.

Lemma trailing_app (c : nat) (xs ys : list bool) :
  trailing c (xs ++ ys) = trailing (trailing c xs) ys.
Proof. unfold trailing. apply fold_left_app. Qed.

(** Muted frames that never line up three loud ones in a row leave the
    session as it is; the counter holds the length of the current run. *)
Lemma muted_run (chunks : list (list byte)) :
  Forall measurable chunks -> forall (c : nat) (w : World),
  is_ai_speaking (session w) = true ->
  _barge_in_frames (session w) = Z.of_nat c ->
  (c <= 2)%nat ->
  no_triple (repeat true c ++ map chunk_loud chunks) = true ->
  same_but_counters w (feed chunks w) /\
  _barge_in_frames (session (feed chunks w))
    = Z.of_nat (trailing c (map chunk_loud chunks)) /\
  (trailing c (map chunk_loud chunks) <= 2)%nat.
Proof.
  induction 1 as [|a rest Ha Hrest IH]; intros c w Hm Hc Hc2 Hnt.
  - simpl. split; [apply same_but_counters_refl|]. split; assumption.
  - unfold measurable in Ha.
    destruct (_calculate_rms a) as [r|] eqn:Hr; [|congruence].
    assert (Hl : chunk_loud a = rms_gt r BARGE_IN_THRESHOLD).
    { unfold chunk_loud. rewrite Hr. reflexivity. }
    simpl map in *. simpl feed. rewrite Hl in *.
    destruct (rms_gt r BARGE_IN_THRESHOLD) eqn:Hq.
    + assert (Hlt : (c < 2)%nat).
      { destruct c as [|[|[|c]]]; try lia. simpl in Hnt. discriminate. }
      rewrite (@muted_loud_frame a r w Hm Hr Hq)
        by (rewrite Hc; unfold MIN_BARGE_IN_FRAMES; lia).
      simpl snd.
      match goal with
      | |- context [feed rest ?w1] =>
          destruct (IH (S c) w1) as [Hs [Hb Ht]]
      end.
      * exact Hm.
      * simpl. rewrite Hc. lia.
      * lia.
      * replace (repeat true (S c) ++ map chunk_loud rest)
          with (repeat true c ++ true :: map chunk_loud rest); [exact Hnt|].
        clear. induction c as [|c IHc]; [reflexivity|]. simpl. f_equal.
        exact IHc.
      * split; [|split; assumption].
        eapply same_but_counters_trans; [|exact Hs].
        apply (same_but_counters_count
                 (fun s => _barge_in_frames s + 1)
                 (fun s => _chunk_count s + 1)).
    + rewrite (@muted_quiet_frame a r w Hm Hr Hq). simpl snd.
      match goal with
      | |- context [feed rest ?w1] =>
          destruct (IH O w1) as [Hs [Hb Ht]]
      end.
      * exact Hm.
      * reflexivity.
      * lia.
      * simpl. apply no_triple_suffix in Hnt. exact (no_triple_tail _ _ Hnt).
      * split; [|split; assumption].
        eapply same_but_counters_trans; [|exact Hs].
        apply (same_but_counters_count
                 (fun _ => 0) (fun s => _chunk_count s + 1)).
Qed.

(** X21: the muted branch, frame by frame.  In [AI_SPEAKING] and
    [GREETING] a frame at or below the barge-in threshold only resets the
    counter to zero; a louder frame that leaves the counter below three
    only counts; the louder frame that takes the counter to three fires:
    the task in flight is cancelled and is no longer pending, [interrupt]
    is sent, the buffer holds the triggering frame alone, [speaking] is
    set, the state is [USER_SPEAKING] and [vad speaking=true] is sent.
    Over a run of muted frames that starts from a zero counter, nothing
    changes as long as no three consecutive frames are loud, and the third
    of three consecutive loud frames fires. *)
Theorem barge_in_debounce (a : list byte) (r : rms) (w : World) :
  is_ai_speaking (session w) = true ->
  _calculate_rms a = Some r ->
  (rms_gt r BARGE_IN_THRESHOLD = false ->
   exists w', exec (handle_audio_chunk a) w = (Ok tt, w') /\
              same_but_counters w w' /\
              _barge_in_frames (session w') = 0) /\
  (rms_gt r BARGE_IN_THRESHOLD = true ->
   _barge_in_frames (session w) + 1 < MIN_BARGE_IN_FRAMES ->
   exists w', exec (handle_audio_chunk a) w = (Ok tt, w') /\
              same_but_counters w w' /\
              _barge_in_frames (session w')
                = _barge_in_frames (session w) + 1) /\
  (rms_gt r BARGE_IN_THRESHOLD = true ->
   MIN_BARGE_IN_FRAMES <= _barge_in_frames (session w) + 1 ->
   exists w', exec (handle_audio_chunk a) w = (Ok tt, w') /\
              _state (session w') = USER_SPEAKING /\
              _audio_buffer (session w') = a /\
              _is_speaking (session w') = true /\
              _barge_in_frames (session w') = 0 /\
              trace w' = trace w ++ barge_in_trace w /\
              task_in_flight w' = None /\
              match task_in_flight w with
              | Some (t, _) => loop_tasks w' = remove_task t (loop_tasks w)
              | None => loop_tasks w' = loop_tasks w
              end) /\
  (_barge_in_frames (session w) = 0 ->
   (forall chunks,
      Forall measurable chunks ->
      no_triple (map chunk_loud chunks) = true ->
      same_but_counters w (feed chunks w)) /\
   (forall pre x1 x2 x3,
      Forall measurable (pre ++ [x1; x2; x3]) ->
      no_triple (map chunk_loud (pre ++ [x1; x2])) = true ->
      chunk_loud x1 = true -> chunk_loud x2 = true -> chunk_loud x3 = true ->
      let w' := feed (pre ++ [x1; x2; x3]) w in
      _state (session w') = USER_SPEAKING /\
      _audio_buffer (session w') = x3 /\
      _is_speaking (session w') = true /\
      trace w' = trace w ++ barge_in_trace w /\
      task_in_flight w' = None /\
      match task_in_flight w with
      | Some (t, _) => loop_tasks w' = remove_task t (loop_tasks w)
      | None => loop_tasks w' = loop_tasks w
      end)).
Proof.
  intros Hm Hr.
  assert (Hfire : forall (x : list byte) (rx : rms) (v : World),
            is_ai_speaking (session v) = true ->
            _calculate_rms x = Some rx ->
            rms_gt rx BARGE_IN_THRESHOLD = true ->
            MIN_BARGE_IN_FRAMES <= _barge_in_frames (session v) + 1 ->
            exists v', exec (handle_audio_chunk x) v = (Ok tt, v') /\
              _state (session v') = USER_SPEAKING /\
              _audio_buffer (session v') = x /\
              _is_speaking (session v') = true /\
              _barge_in_frames (session v') = 0 /\
              trace v' = trace v ++ barge_in_trace v /\
              task_in_flight v' = None /\
              match task_in_flight v with
              | Some (t, _) => loop_tasks v' = remove_task t (loop_tasks v)
              | None => loop_tasks v' = loop_tasks v
              end).
  { intros x rx v Hv Hx Hq Hc.
    destruct (@muted_firing_frame x rx v Hv Hx Hq Hc)
      as [v' [E [H1 [H2 [H3 [_ [_ [H6 [_ [H8 H9]]]]]]]]]].
    exists v'. do 6 (split; [assumption|]). split.
    - unfold task_in_flight in *.
      destruct (_processing_task (session v)) as [t|] eqn:Ht.
      + destruct (find_task t (loop_tasks v)) as [body|] eqn:Hf.
        * destruct H9 as [_ ->]. reflexivity.
        * destruct H9 as [-> ->]. rewrite Hf. reflexivity.
      + destruct H9 as [_ ->]. reflexivity.
    - destruct (task_in_flight v) as [[t body]|]; exact (proj1 H9). }
  split; [|split; [|split; [|]]].
  - intros Hq. rewrite (@muted_quiet_frame a r w Hm Hr Hq).
    eexists. split; [reflexivity|]. split; [|reflexivity].
    apply (same_but_counters_count (fun _ => 0) (fun s => _chunk_count s + 1)).
  - intros Hq Hc. rewrite (@muted_loud_frame a r w Hm Hr Hq Hc).
    eexists. split; [reflexivity|]. split; [|reflexivity].
    apply (same_but_counters_count
             (fun s => _barge_in_frames s + 1) (fun s => _chunk_count s + 1)).
  - intros Hq Hc. exact (Hfire a r w Hm Hr Hq Hc).
  - intros H0. split.
    + intros chunks Hms Hnt.
      exact (proj1 (@muted_run chunks Hms O w Hm H0 ltac:(lia) Hnt)).
    + intros pre x1 x2 x3 Hms Hnt L1 L2 L3 w'.
      assert (Hsplit : pre ++ [x1; x2; x3] = (pre ++ [x1; x2]) ++ [x3]).
      { rewrite <- app_assoc. reflexivity. }
      rewrite Hsplit in Hms. apply Forall_app in Hms. destruct Hms as [Hms H3].
      destruct (@muted_run (pre ++ [x1; x2]) Hms O w Hm H0 ltac:(lia) Hnt)
        as [Hs [Hb Ht]].
      assert (Htwo : trailing 0 (map chunk_loud (pre ++ [x1; x2])) = 2%nat).
      { rewrite map_app, trailing_app in *. simpl map in *.
        rewrite L1, L2 in *. simpl in *. lia. }
      rewrite Htwo in Hb.
      inversion H3 as [|? ? Hx3 _]; subst. unfold measurable in Hx3.
      destruct (_calculate_rms x3) as [r3|] eqn:Hr3; [|congruence].
      assert (Hq3 : rms_gt r3 BARGE_IN_THRESHOLD = true).
      { unfold chunk_loud in L3. rewrite Hr3 in L3. exact L3. }
      set (v := feed (pre ++ [x1; x2]) w) in *.
      assert (Hv : is_ai_speaking (session v) = true).
      { unfold is_ai_speaking in *. destruct Hs as [-> _]. exact Hm. }
      destruct (Hfire x3 r3 v Hv Hr3 Hq3)
        as [v' [E [F1 [F2 [F3 [_ [F5 [F6 F7]]]]]]]].
      { rewrite Hb. unfold MIN_BARGE_IN_FRAMES. lia. }
      assert (Hw' : w' = v').
      { unfold w'. rewrite Hsplit, feed_app. fold v. simpl. rewrite E.
        reflexivity. }
      assert (Hsame : task_in_flight v = task_in_flight w /\
                      loop_tasks v = loop_tasks w /\ trace v = trace w).
      { unfold task_in_flight. unfold same_but_counters in Hs.
        destruct Hs as [_ [_ [_ [_ [_ [_ [-> [_ [-> [-> _]]]]]]]]]].
        repeat split; reflexivity. }
      destruct Hsame as [Hfl [Hlt Htr]].
      rewrite Hw'. do 3 (split; [assumption|]).
      split; [|split; [exact F6|]].
      * rewrite F5. unfold barge_in_trace. rewrite Hfl, Htr. reflexivity.
      * rewrite Hfl, Hlt in F7. exact F7.
Qed.

(** During the greeting, two loud frames change nothing and the third
    interrupts: the greeting task is cancelled and the user has the floor. *)
Lemma barge_in_debounce_witness :
  _state (session (feed [[x00; x10]; [x00; x10]] (connect 0))) = GREETING /\
  _state (session (feed [[x00; x10]; [x00; x10]; [x00; x10]] (connect 0)))
    = USER_SPEAKING /\
  task_in_flight (feed [[x00; x10]; [x00; x10]; [x00; x10]] (connect 0)) = None.
Proof.
  destruct (@barge_in_debounce [x00; x10] (16777216 # 1) (connect 0)
              ltac:(reflexivity) ltac:(vm_compute; reflexivity))
    as [_ [_ [_ H]]].
  destruct (H ltac:(reflexivity)) as [Hquiet Hfire].
  assert (Hm : measurable [x00; x10]) by (vm_compute; discriminate).
  split.
  - destruct (Hquiet [[x00; x10]; [x00; x10]]) as [E _].
    + repeat constructor; exact Hm.
    + vm_compute. reflexivity.
    + rewrite E. reflexivity.
  - destruct (Hfire [] [x00; x10] [x00; x10] [x00; x10])
      as [E [_ [_ [_ [F _]]]]].
    + repeat constructor; exact Hm.
    + vm_compute. reflexivity.
    + vm_compute. reflexivity.
    + vm_compute. reflexivity.
    + vm_compute. reflexivity.
    + split; [exact E|exact F].
Defined.

(** C4 (a defect of the code): the barge-in counter outlives the muted
    episode in which it was raised.  A caller coughs twice while the
    greeting is prepared; the greeting cannot be synthesized, so the
    session listens, and the counter keeps its 2.  The caller then speaks,
    the reply plays, and the first and only frame above the barge-in
    threshold heard in [AI_SPEAKING] fires barge-in: [interrupt] is sent
    and the session goes to [USER_SPEAKING] after one loud frame, not
    three in a row. *)
Theorem stale_counter_fires :
  let run hs := session_run obliging_env voiceless hs (connect 0) in
  let before := run cough_then_turn in
  let after := run (cough_then_turn ++ [Receives 3256 (InBinary loud_frame)]) in
  _state (session (run (firstn 2 cough_then_turn))) = GREETING /\
  _state (session (run (firstn 3 cough_then_turn))) = LISTENING /\
  _barge_in_frames (session (run (firstn 3 cough_then_turn))) = 2 /\
  _state (session before) = AI_SPEAKING /\
  _barge_in_frames (session before) = 2 /\
  loop_tasks before = [] /\
  _state (session after) = USER_SPEAKING /\
  length (trace after) = (length (trace before) + 3)%nat /\
  skipn (length (trace before)) (trace after)
    = [Sent EvInterrupt; Sent (EvStatus StListening); Sent (EvVad true)] /\
  _audio_buffer (session after) = loud_frame.
Proof.
  vm_compute. repeat split.
Qed.

End BargeInFacts.

(** ** Utterances that are too short *)

Module ShortUtteranceFacts.

Import VadFacts.

Ltac run_vad :=
  cbv [exec handle_audio_chunk vad_branch create_task set_state send_event
       await_point observe modify get_session time_now raise_if_none raise
       ret bind fst snd].

(** In [LISTENING] and [USER_SPEAKING], outside the cooldown, the chunk goes
    to the VAD branch. *)
Lemma audio_reaches_vad (a : list byte) (w : World) :
  _state (session w) = USER_SPEAKING \/ _state (session w) = LISTENING ->
  in_cooldown w = false ->
  exec (handle_audio_chunk a) w = exec (vad_branch a) w.
Proof.
  intros Hst Hcd. unfold in_cooldown in Hcd.
  cbv [exec handle_audio_chunk get_session time_now bind fst].
  unfold is_ai_speaking. destruct Hst as [-> | ->]; simpl; rewrite Hcd;
    reflexivity.
Qed.

(** C2 (as amended): in [USER_SPEAKING], outside the cooldown, when the
    quiet frame that closes the silence window arrives: if the accumulated
    speech is below 300 ms, the VAD answers [silence], the buffer is
    discarded and nothing is sent to the peer; if the speech is long enough
    but fewer than 8192 bytes are buffered, the VAD answers [speech_end],
    [vad speaking=false] is sent, the buffer is discarded, no task is
    started and the session goes to [LISTENING]. *)
Theorem short_utterance_discarded (a : list byte) (r : rms) (w : World) :
  _state (session w) = USER_SPEAKING ->
  in_cooldown w = false ->
  _calculate_rms a = Some r ->
  quiet r ->
  _is_speaking (session w) = true ->
  SILENCE_DURATION_MS
    <= (_silence_frames (session w) + 1) * FRAME_DURATION_MS ->
  (_speech_frames (session w) * FRAME_DURATION_MS < MIN_SPEECH_DURATION_MS ->
   exists w',
     exec (handle_audio_chunk a) w = (Ok tt, w') /\
     _detect_speech a (clock w) (session w) = Some (silence, session w') /\
     _audio_buffer (session w') = [] /\
     _is_speaking (session w') = false /\
     trace w' = trace w /\
     loop_tasks w' = loop_tasks w) /\
  (MIN_SPEECH_DURATION_MS <= _speech_frames (session w) * FRAME_DURATION_MS ->
   len (_audio_buffer (session w)) < MIN_AUDIO_BYTES ->
   exists w',
     exec (handle_audio_chunk a) w = (Ok tt, w') /\
     option_map fst (_detect_speech a (clock w) (session w))
       = Some speech_end /\
     _audio_buffer (session w') = [] /\
     _is_speaking (session w') = false /\
     _state (session w') = LISTENING /\
     trace w' = trace w ++ [Sent (EvVad false)] /\
     loop_tasks w' = loop_tasks w).
Proof.
  intros Hst Hcd Hr Hq Hs Hwin.
  rewrite (@audio_reaches_vad a w (or_introl Hst) Hcd).
  unfold _detect_speech. rewrite Hr. cbv beta iota.
  pose proof (@detect_quiet_speaking r (clock w) (session w) Hq Hs) as Hd.
  cbv zeta in Hd.
  destruct (Z.leb_spec SILENCE_DURATION_MS
              ((_silence_frames (session w) + 1) * FRAME_DURATION_MS))
    as [_|Hc]; [|lia].
  split.
  - intros Hshort.
    destruct (Z.leb_spec MIN_SPEECH_DURATION_MS
                (_speech_frames (session w) * FRAME_DURATION_MS))
      as [Hc|_]; [lia|].
    run_vad. unfold _detect_speech. rewrite Hr. cbv beta iota.
    rewrite Hd. simpl.
    eexists. split; [reflexivity|].
    destruct w as [s clk tr ts nx]. simpl. repeat split; reflexivity.
  - intros Hlong Hbytes.
    destruct (Z.leb_spec MIN_SPEECH_DURATION_MS
                (_speech_frames (session w) * FRAME_DURATION_MS))
      as [_|Hc]; [|lia].
    run_vad. unfold _detect_speech. rewrite Hr. cbv beta iota.
    rewrite Hd. simpl.
    destruct (Z.ltb_spec (len (_audio_buffer (session w))) MIN_AUDIO_BYTES)
      as [_|Hc]; [|lia].
    eexists. split; [reflexivity|].
    destruct w as [s clk tr ts nx]. simpl. repeat split; reflexivity.
Qed.

(** One loud frame heard, three quiet frames counted, two bytes buffered:
    the fourth quiet frame discards the utterance. *)
Lemma short_utterance_discarded_witness :
  exists w',
    exec (handle_audio_chunk [x00; x00]) (mid_utterance 1 3 [x00; x10])
      = (Ok tt, w') /\
    _audio_buffer (session w') = [] /\
    trace w' = [].
Proof.
  destruct (@short_utterance_discarded [x00; x00] 0%Q
              (mid_utterance 1 3 [x00; x10])
              ltac:(reflexivity) ltac:(reflexivity) ltac:(reflexivity)
              ltac:(reflexivity) ltac:(reflexivity)
              ltac:(vm_compute; discriminate)) as [H _].
  destruct (H ltac:(vm_compute; reflexivity)) as [w' [E [_ [B [_ [T _]]]]]].
  exists w'. split; [exact E|]. split; [exact B|exact T].
Defined.

(** C2 (as stated) fails on both of its cases.  After 256 ms of speech the
    closing quiet frame does discard the buffer and the VAD does answer
    [silence], but the session stays in [USER_SPEAKING]; after 512 ms of
    speech with two bytes buffered the session does go to [LISTENING], but
    the VAD answers [speech_end] and [vad speaking=false] is sent. *)
Lemma short_utterance_not_as_stated :
  (_state (session (snd (exec (handle_audio_chunk [x00; x00])
                           (mid_utterance 1 3 [x00; x10]))))
     = USER_SPEAKING /\
   option_map fst (_detect_speech [x00; x00] 0
                     (session (mid_utterance 1 3 [x00; x10])))
     = Some silence) /\
  (_state (session (snd (exec (handle_audio_chunk [x00; x00])
                           (mid_utterance 2 3 [x00; x10]))))
     = LISTENING /\
   option_map fst (_detect_speech [x00; x00] 0
                     (session (mid_utterance 2 3 [x00; x10])))
     = Some speech_end /\
   trace (snd (exec (handle_audio_chunk [x00; x00])
                 (mid_utterance 2 3 [x00; x10])))
     = [Sent (EvVad false)]).
Proof.
  repeat split; vm_compute; reflexivity.
Qed.

End ShortUtteranceFacts.

(** ** Playback reports and the single pipeline *)

Module StateMachineFacts.

Ltac run_loop :=
  cbv [receive exec serve check_watchdog handle_audio_chunk set_state
       send_event await_point observe modify get_session time_now ret bind
       fst snd].

Lemma find_task_gone (t : task_id) (ts : list (task_id * coroutine)) :
  find_task t (remove_task t ts) = None.
Proof.
  induction ts as [|[t' body] rest IH]; [reflexivity|]. simpl.
  destruct (Nat.eqb t t') eqn:E; [exact IH|]. simpl. rewrite E. exact IH.
Qed.

(** C1 (as amended): a message of type [config], [user_interrupt], [pong]
    or of an unknown type, and an audio message without data, do nothing
    beyond the watchdog check that every poll performs, and the loop goes
    on; an audio frame received in [PROCESSING] is dropped and changes
    nothing; the watchdog check does nothing in [LISTENING],
    [USER_SPEAKING] and [PROCESSING].  A [playback_done] message, however,
    moves the session to [LISTENING] and empties the buffer from every
    state, [PROCESSING] and [USER_SPEAKING] included, and leaves the tasks
    in flight alone.  An [end] message writes nothing itself but ends the
    loop: the teardown marks the session inactive and cancels the task in
    flight, and a turn cancelled this way resets the state to
    [LISTENING]. *)
Theorem out_of_table_events (now : Z) (w : World) :
  (forall m, is_passive m = true ->
     receive now m w
       = (Ok true, snd (exec check_watchdog (W.with_clock now w)))) /\
  (_state (session w) = PROCESSING ->
   forall data,
     receive now (InBinary data) w = (Ok true, W.with_clock now w) /\
     receive now (InAudio data) w = (Ok true, W.with_clock now w)) /\
  (unwatched (_state (session w)) = true ->
   exec check_watchdog w = (Ok tt, w)) /\
  (let w' := snd (receive now InPlaybackDone w) in
   fst (receive now InPlaybackDone w) = Ok true /\
   _state (session w') = LISTENING /\
   _audio_buffer (session w') = [] /\
   _is_speaking (session w') = false /\
   _speech_frames (session w') = 0 /\
   _silence_frames (session w') = 0 /\
   _barge_in_frames (session w') = 0 /\
   loop_tasks w' = loop_tasks w) /\
  (let w1 := snd (exec check_watchdog (W.with_clock now w)) in
   receive now InEnd w = (Ok false, w1) /\
   forall env g,
     let w' := session_run env g [Receives now InEnd] w in
     is_active (session w') = false /\
     task_in_flight w' = None /\
     match task_in_flight w with
     | Some (t, body) =>
         loop_tasks w' = remove_task t (loop_tasks w) /\
         trace w' = trace w1 ++ [TaskCancelled t] /\
         (is_pipeline body = true -> _state (session w') = LISTENING)
     | None => loop_tasks w' = loop_tasks w /\ trace w' = trace w1
     end).
Proof.
  destruct w as [s clk tr ts nx]. split; [|split; [|split; [|split]]].
  - intros m Hm. destruct m; try discriminate Hm; run_loop; simpl;
      destruct (_state s); simpl;
      repeat match goal with
             | |- context [if ?b then _ else _] => destruct b; simpl
             end;
      reflexivity.
  - simpl. intros Hst data.
    split; run_loop; unfold is_ai_speaking; simpl;
      repeat (rewrite Hst; simpl); reflexivity.
  - simpl. intros Hst. run_loop. simpl.
    destruct (_state s); try discriminate Hst; reflexivity.
  - run_loop. simpl.
    destruct (_state s); simpl;
      repeat match goal with
             | |- context [if ?b then _ else _] => destruct b; simpl
             end;
      repeat split; reflexivity.
  - cbv zeta. split.
    + run_loop. simpl.
      destruct (_state s); simpl;
        repeat match goal with
               | |- context [if ?b then _ else _] => destruct b; simpl
               end;
        reflexivity.
    + intros env g. unfold session_run, task_in_flight.
      run_loop.
      cbv [cleanup cancel_and_await task_done modify get_session ret bind
           fst snd]. simpl.
      destruct (_state s); simpl;
        repeat match goal with
               | |- context [if ?b then _ else _] => destruct b; simpl
               end;
        (destruct (_processing_task s) as [t|] eqn:Ht; simpl;
         [ destruct (find_task t ts) as [body|] eqn:Hf; simpl;
           rewrite ?Hf; simpl; rewrite ?Ht; simpl;
           rewrite ?find_task_gone; simpl
         | ]);
        repeat split; try reflexivity;
        try (destruct body; simpl);
        rewrite ?Ht; simpl; rewrite ?Hf, ?find_task_gone;
        try reflexivity; discriminate.
Qed.

(** A frame that arrives while the pipeline runs is dropped. *)
Lemma out_of_table_events_witness :
  receive 5 (InBinary [x00; x10])
    (W.with_session (Upd.state PROCESSING) (connect 0))
  = (Ok true,
     W.with_clock 5 (W.with_session (Upd.state PROCESSING) (connect 0))).
Proof.
  destruct (@out_of_table_events 5
              (W.with_session (Upd.state PROCESSING) (connect 0)))
    as [_ [H _]].
  exact (proj1 (H ltac:(reflexivity) [x00; x10])).
Defined.

(** C1 (as stated) fails: on the peer of [overlapping_turns] the playback
    report arrives in [PROCESSING], with the pipeline of the first
    utterance in flight, and the state changes to [LISTENING]; received in
    the middle of an utterance, in [USER_SPEAKING], the report changes the
    state to [LISTENING] and discards the buffered audio. *)
Lemma playback_done_changes_state :
  (let before := receive_all (firstn 8 overlapping_turns) (connect 0) in
   let after := receive_all (firstn 9 overlapping_turns) (connect 0) in
   _state (session before) = PROCESSING /\
   in_flight before = 1%nat /\
   _state (session after) = LISTENING /\
   in_flight after = 1%nat) /\
  (let before := mid_utterance 2 0 [x00; x10] in
   let after := snd (receive 5 InPlaybackDone before) in
   _state (session before) = USER_SPEAKING /\
   _state (session after) = LISTENING /\
   _audio_buffer (session after) = []).
Proof.
  vm_compute. repeat split; reflexivity.
Qed.

(** C3 (what the code does): on the peer of [overlapping_turns] the second
    utterance starts a second pipeline task while the first one is still in
    flight; the only cancellation ever performed is that of the greeting.
    The task handle is overwritten without the task it held being cancelled
    or awaited. *)
Theorem second_pipeline_without_cancellation :
  let w := receive_all overlapping_turns (connect 0) in
  map fst (loop_tasks w) = [2; 1]%nat /\
  forallb (fun tc => is_pipeline (snd tc)) (loop_tasks w) = true /\
  in_flight w = 2%nat /\
  filter is_TaskCancelled (trace w) = [TaskCancelled 0%nat] /\
  _state (session w) = PROCESSING.
Proof.
  vm_compute. repeat split; reflexivity.
Qed.

(** The end-to-end scenario of the specification: frames of RMS 50, 50,
    250, 260, 270, 60, 60, 60, 60 fed to a listening session.  Speech
    starts at the third frame and [vad speaking=true] is sent; the fourth
    quiet frame closes the silence window, [vad speaking=false] is sent and
    the session enters [PROCESSING] with one pipeline task started. *)
Example rms_sequence_scenario :
  let frames := map tone [50; 50; 250; 260; 270; 60; 60; 60; 60] in
  map (fun n => _state (session (feed (firstn n frames) listening)))
      (seq 0 10)
  = [LISTENING; LISTENING; LISTENING; USER_SPEAKING; USER_SPEAKING;
     USER_SPEAKING; USER_SPEAKING; USER_SPEAKING; USER_SPEAKING; PROCESSING]
  /\ filter is_sent (trace (feed frames listening))
     = [Sent (EvVad true); Sent (EvVad false)]
  /\ in_flight (feed frames listening) = 1%nat.
Proof. vm_compute. repeat split; reflexivity. Qed.

End StateMachineFacts.

(** ** One conversational turn *)

Module TurnFacts.

Section Compose.

Context {A B : Type}.
Variables R1 R2 R3 : World -> World -> Prop.
Hypothesis R2_refl : forall w, R2 w w.
Hypothesis R_comp : forall w1 w2 w3, R1 w1 w2 -> R2 w2 w3 -> R3 w1 w3.

Lemma always_bind (m : M A) (k : A -> M B) :
  always R1 m -> (forall a, always R2 (k a)) -> always R3 (bind m k).
Proof.
  intros Hm Hk c w. unfold bind. specialize (Hm c w).
  destruct (m c w) as [[r w1] c1]. simpl in Hm. destruct r as [a|e].
  - apply (R_comp Hm). apply Hk.
  - simpl. apply (R_comp Hm). apply R2_refl.
Qed.

Lemma always_try (m : M A) (h : exn -> option (M A)) :
  always R1 m -> (forall e handler, h e = Some handler -> always R2 handler) ->
  always R3 (try_except m h).
Proof.
  intros Hm Hh c w. unfold try_except. specialize (Hm c w).
  destruct (m c w) as [[r w1] c1]. simpl in Hm. destruct r as [a|e].
  - simpl. apply (R_comp Hm). apply R2_refl.
  - destruct (h e) as [handler|] eqn:He.
    + apply (R_comp Hm). apply (Hh e handler He).
    + simpl. apply (R_comp Hm). apply R2_refl.
Qed.

End Compose.

Section Preorder.

Variable R : World -> World -> Prop.
Hypothesis R_refl : forall w, R w w.
Hypothesis R_trans : forall w1 w2 w3, R w1 w2 -> R w2 w3 -> R w1 w3.

Lemma always_ret {A : Type} (a : A) : always R (ret a).
Proof. intros c w. apply R_refl. Qed.

Lemma always_raise {A : Type} (e : exn) : always R (@raise A e).
Proof. intros c w. apply R_refl. Qed.

Lemma always_await : always R await_point.
Proof. intros [[|n]|] w; apply R_refl. Qed.

Lemma always_get_session : always R get_session.
Proof. intros c w. apply R_refl. Qed.

Lemma always_time_now : always R time_now.
Proof. intros c w. apply R_refl. Qed.

Lemma always_get_trace : always R get_trace.
Proof. intros c w. apply R_refl. Qed.

Lemma always_observe (o : obs) :
  (forall w, R w (W.with_trace o w)) -> always R (observe o).
Proof. intros H c w. apply H. Qed.

Lemma always_modify (f : VoiceSession -> VoiceSession) :
  (forall w, R w (W.with_session f w)) -> always R (modify f).
Proof. intros H c w. apply H. Qed.

Lemma always_seq {A B : Type} (m : M A) (k : A -> M B) :
  always R m -> (forall a, always R (k a)) -> always R (bind m k).
Proof. apply always_bind; assumption. Qed.

Lemma always_catch {A : Type} (m : M A) (h : exn -> option (M A)) :
  always R m -> (forall e handler, h e = Some handler -> always R handler) ->
  always R (try_except m h).
Proof. apply always_try; assumption. Qed.

Lemma always_wait_for {A : Type} (call : M (timed A)) :
  always R call -> always R (wait_for call).
Proof.
  intros H. unfold wait_for. apply always_seq; [exact H|].
  intros [a|]; [apply always_ret|apply always_raise].
Qed.

End Preorder.

(** Walks through a coroutine body, one construct at a time.  [rfl] and
    [trn] are the reflexivity and transitivity of the relation, [leaf]
    closes the observations and the field assignments. *)
Ltac walk rfl trn leaf :=
  repeat first
    [ solve [auto 2]
    | apply (always_ret _ rfl)
    | apply (always_raise _ rfl)
    | apply (always_await _ rfl)
    | apply (always_get_session _ rfl)
    | apply (always_time_now _ rfl)
    | apply (always_get_trace _ rfl)
    | apply (always_wait_for rfl trn)
    | apply (always_seq rfl trn); [|intro]
    | apply (always_catch rfl trn); [|intros ? ? ?]
    | apply always_observe; intro; leaf
    | apply always_modify; intro; leaf
    | match goal with
      | H : match ?e with _ => _ end = Some _ |- _ =>
          destruct e; try discriminate H; inversion H; subst; clear H
      | H : (if ?b then _ else _) = Some _ |- _ =>
          destruct b; try discriminate H; inversion H; subst; clear H
      | H : Some _ = Some _ |- _ => inversion H; subst; clear H
      | |- always _ (match ?x with _ => _ end) => destruct x
      end ].

Lemma same_history_refl (w : World) : same_history w w.
Proof. reflexivity. Qed.

Lemma same_history_trans (w1 w2 w3 : World) :
  same_history w1 w2 -> same_history w2 w3 -> same_history w1 w3.
Proof. unfold same_history. congruence. Qed.

Ltac walk_history :=
  walk same_history_refl same_history_trans ltac:(reflexivity).

Section HistoryOfStages.

Variable env : Backend.

Lemma send_event_history (e : event) : always same_history (send_event e).
Proof. unfold send_event. walk_history. Qed.

Lemma set_state_history (st : SessionState) :
  always same_history (set_state st).
Proof. unfold set_state. walk_history. Qed.

Lemma rest_stt_history (a : list byte) : always same_history (rest_stt env a).
Proof. unfold rest_stt. walk_history. Qed.

Lemma search_context_history (q : pystr) :
  always same_history (search_context env q).
Proof. unfold search_context. walk_history. Qed.

Lemma llm_fallback_history : always same_history (_llm_fallback env).
Proof. unfold _llm_fallback. walk_history. Qed.

Lemma stream_llm_history (t : pystr) (ctx : option pystr) (h : list turn) :
  always same_history (stream_llm env t ctx h).
Proof.
  pose proof llm_fallback_history. unfold stream_llm. walk_history.
Qed.

Lemma consume_tokens_history (tokens : list pystr) : forall acc,
  always same_history (consume_tokens tokens acc).
Proof.
  pose proof send_event_history.
  induction tokens as [|tok rest IH]; intros acc; simpl; walk_history.
Qed.

Lemma generate_reply_history (t : pystr) (ctx : option pystr) :
  always same_history (generate_reply env t ctx).
Proof.
  pose proof stream_llm_history. pose proof consume_tokens_history.
  unfold generate_reply. walk_history.
Qed.

Lemma rest_tts_history (text : pystr) :
  always same_history (rest_tts env text).
Proof. unfold rest_tts. walk_history. Qed.

Lemma synthesize_history (text : pystr) :
  always same_history (synthesize env text).
Proof.
  pose proof rest_tts_history. unfold synthesize. walk_history.
Qed.

End HistoryOfStages.

Lemma whole_turn_refl (w : World) : whole_turn_or_nothing w w.
Proof. left. reflexivity. Qed.

Lemma same_then_whole (w1 w2 w3 : World) :
  same_history w1 w2 -> whole_turn_or_nothing w2 w3 ->
  whole_turn_or_nothing w1 w3.
Proof.
  unfold whole_turn_or_nothing, same_history. intros H12 [H|[t [r H]]].
  - left. congruence.
  - right. exists t, r. rewrite H, H12. reflexivity.
Qed.

Lemma whole_then_same (w1 w2 w3 : World) :
  whole_turn_or_nothing w1 w2 -> same_history w2 w3 ->
  whole_turn_or_nothing w1 w3.
Proof.
  unfold whole_turn_or_nothing, same_history. intros [H|[t [r H]]] H23.
  - left. congruence.
  - right. exists t, r. rewrite H23, H. reflexivity.
Qed.

Lemma whole_of_same {A : Type} (m : M A) :
  always same_history m -> always whole_turn_or_nothing m.
Proof. intros H c w. left. apply H. Qed.

Ltac run_turn :=
  cbv [finish_turn set_state send_event await_point observe modify
       get_session time_now raise ret bind try_except fst snd].

(** The closing steps of a turn append the two entries together or not at
    all. *)
Lemma finish_turn_history (transcript full_response : pystr)
  (audio_bytes : option (list byte)) :
  always whole_turn_or_nothing
    (finish_turn transcript full_response audio_bytes).
Proof.
  intros c w. destruct w as [s clk tr ts nx].
  destruct audio_bytes as [[|b bs]|]; destruct c as [[|[|k]]|];
    run_turn; simpl;
    solve [ left; reflexivity
          | right; exists transcript, full_response; simpl;
            rewrite <- app_assoc; reflexivity ].
Qed.

Section HistoryOfTurn.

Variable env : Backend.

Ltac walk_whole :=
  repeat first
    [ apply finish_turn_history
    | apply whole_of_same; solve [walk_history]
    | apply (always_bind _ whole_turn_refl same_then_whole);
      [solve [walk_history]|intro]
    | match goal with
      | |- always _ (match ?x with _ => _ end) => destruct x
      | |- always _ (if ?b then _ else _) => destruct b
      end ].

Lemma turn_body_history (audio_data : list byte) :
  always whole_turn_or_nothing (turn_body env audio_data).
Proof.
  pose proof send_event_history. pose proof set_state_history.
  pose proof (rest_stt_history env). pose proof (search_context_history env).
  pose proof (generate_reply_history env).
  pose proof (synthesize_history env).
  unfold turn_body. walk_whole.
Qed.

(** A turn, however it ends, leaves the history as it was or extended by
    the complete turn. *)
Lemma process_utterance_history (audio_data : list byte) :
  always whole_turn_or_nothing (_process_utterance env audio_data).
Proof.
  pose proof send_event_history. pose proof set_state_history.
  unfold _process_utterance.
  apply (always_try _ same_history_refl whole_then_same).
  - apply turn_body_history.
  - intros e handler He. destruct e; inversion He; subst; walk_history.
Qed.


End HistoryOfTurn.

(** *** Runs that nobody cancels *)

Lemma add_trace_nil (w : World) : add_trace [] w = w.
Proof. destruct w. unfold add_trace. simpl. rewrite app_nil_r. reflexivity. Qed.

Lemma add_trace_add (l1 l2 : list obs) (w : World) :
  add_trace l2 (add_trace l1 w) = add_trace (l1 ++ l2) w.
Proof. unfold add_trace. simpl. rewrite app_assoc. reflexivity. Qed.

Lemma with_trace_add (o : obs) (l : list obs) (w : World) :
  W.with_trace o (add_trace l w) = add_trace (l ++ [o]) w.
Proof. unfold add_trace, W.with_trace. simpl. rewrite app_assoc. reflexivity. Qed.

Lemma with_trace_is_add (o : obs) (w : World) :
  W.with_trace o w = add_trace [o] w.
Proof. reflexivity. Qed.

Ltac run_stage :=
  cbv [send_event await_point observe modify get_session get_trace time_now
       set_state raise ret bind try_except wait_for fst snd].

Section Uncancelled.

Variable env : Backend.

Lemma consume_tokens_runs (tokens : list pystr) : forall acc w,
  is_active (session w) = true ->
  consume_tokens tokens acc None w =
    (Ok (Some (acc ++ concat tokens)),
     add_trace (map (fun t => Sent (EvToken t)) tokens) w, None).
Proof.
  induction tokens as [|tok rest IH]; intros acc w Hact.
  - simpl. run_stage. rewrite app_nil_r, add_trace_nil. reflexivity.
  - simpl consume_tokens. run_stage. rewrite Hact. simpl.
    rewrite with_trace_is_add, IH by exact Hact.
    rewrite add_trace_add, <- app_assoc. reflexivity.
Qed.

(** The text [_llm_fallback] hands back, if any. *)
Lemma llm_fallback_runs (w : World) :
  exists answer,
    _llm_fallback env None w = (Ok answer, add_trace [CallLLMFallback] w, None) /\
    (fallback_fails env -> answer = None \/ answer = Some []) /\
    (forall text,
       llm_post env = PostReplied 200 (Some text) -> answer = Some (strip text)).
Proof.
  unfold _llm_fallback, fallback_fails. run_stage.
  destruct (llm_post env) as [|status_code [text|]].
  - eexists. split; [reflexivity|]. split; [|intros; discriminate].
    intros _. left. reflexivity.
  - destruct (Z.eqb_spec status_code 200) as [E|E]; simpl.
    + eexists. split; [reflexivity|]. split.
      * intros [H|H]; [contradiction|]. right. rewrite H. reflexivity.
      * intros text' H. inversion H. reflexivity.
    + eexists. split; [reflexivity|]. split.
      * intros _. left. reflexivity.
      * intros text' H. inversion H. contradiction.
  - destruct (status_code =? 200); simpl; eexists;
      (split; [reflexivity|]); (split; [|intros; discriminate]);
      intros _; left; reflexivity.
Qed.

(** What the generator yields and which calls it makes.  The fallback
    call is made when the streaming request is answered with status 400
    and the body of the answer is read and decoded, and only then. *)
Lemma stream_llm_runs (t : pystr) (ctx : option pystr) (h : list turn)
  (w : World) :
  exists tokens calls,
    stream_llm env t ctx h None w =
      (Ok tokens, add_trace (CallLLMStream t ctx (slice_last h 4) :: calls) w,
       None) /\
    (calls = [] \/ calls = [CallLLMFallback]) /\
    (forall lines,
       llm_stream env t ctx (slice_last h 4) = StreamOpened 400 lines None true ->
       calls = [CallLLMFallback] /\
       exists reply, tokens = [reply] /\
                     (fallback_fails env -> reply = APOLOGY) /\
                     (forall text,
                        llm_post env = PostReplied 200 (Some text) ->
                        truthy (strip text) = true -> reply = strip text)) /\
    ((forall lines,
        llm_stream env t ctx (slice_last h 4)
          <> StreamOpened 400 lines None true) ->
     calls = []).
Proof.
  unfold stream_llm. run_stage.
  destruct (llm_stream env t ctx (slice_last h 4))
    as [[|]|status_code lines broken utf8] eqn:Hs.
  - exists [APOLOGY_DELAY], []. split; [reflexivity|].
    split; [left; reflexivity|]. split; [intros; discriminate|reflexivity].
  - exists [APOLOGY], []. split; [reflexivity|].
    split; [left; reflexivity|]. split; [intros; discriminate|reflexivity].
  - destruct (Z.eqb_spec status_code 200) as [E2|E2]; simpl.
    { exists (read_lines lines broken), []. split; [reflexivity|].
      split; [left; reflexivity|]. split; [|reflexivity].
      intros l' H. inversion H. lia. }
    destruct broken as [[|]|].
    { exists [APOLOGY_DELAY], []. split; [reflexivity|].
      split; [left; reflexivity|]. split; [intros; discriminate|reflexivity]. }
    { exists [APOLOGY], []. split; [reflexivity|].
      split; [left; reflexivity|]. split; [intros; discriminate|reflexivity]. }
    destruct utf8; simpl.
    2:{ exists [APOLOGY], []. split; [reflexivity|].
        split; [left; reflexivity|].
        split; [intros; discriminate|reflexivity]. }
    destruct (Z.eqb_spec status_code 400) as [E4|E4].
    + subst status_code.
      destruct (llm_fallback_runs (W.with_trace (CallLLMStream t ctx (slice_last h 4)) w))
        as [answer [Hrun [Hfail Hok]]].
      rewrite Hrun. rewrite with_trace_is_add, add_trace_add. simpl.
      destruct answer as [[|c text]|]; simpl.
      * exists [APOLOGY], [CallLLMFallback]. split; [reflexivity|].
        split; [right; reflexivity|].
        split; [|intros Hn; destruct (Hn lines eq_refl)].
        intros _ _. split; [reflexivity|].
        exists APOLOGY. split; [reflexivity|]. split; [reflexivity|].
        intros text' Hp Ht. specialize (Hok text' Hp). inversion Hok as [E].
        rewrite <- E in Ht. discriminate.
      * exists [c :: text], [CallLLMFallback]. split; [reflexivity|].
        split; [right; reflexivity|].
        split; [|intros Hn; destruct (Hn lines eq_refl)].
        intros _ _. split; [reflexivity|].
        exists (c :: text). split; [reflexivity|]. split.
        -- intros Hf. destruct (Hfail Hf); discriminate.
        -- intros text' Hp _. specialize (Hok text' Hp). inversion Hok.
           reflexivity.
      * exists [APOLOGY], [CallLLMFallback]. split; [reflexivity|].
        split; [right; reflexivity|].
        split; [|intros Hn; destruct (Hn lines eq_refl)].
        intros _ _. split; [reflexivity|].
        exists APOLOGY. split; [reflexivity|]. split; [reflexivity|].
        intros text' Hp _. specialize (Hok text' Hp). discriminate.
    + destruct (raises_for_status status_code).
      * exists [APOLOGY], []. split; [reflexivity|].
        split; [left; reflexivity|]. split; [|reflexivity].
        intros l' H. inversion H. contradiction.
      * exists (read_lines lines None), []. split; [reflexivity|].
        split; [left; reflexivity|]. split; [|reflexivity].
        intros l' H. inversion H. contradiction.
Qed.

Lemma generate_reply_runs (t : pystr) (ctx : option pystr) (w : World) :
  is_active (session w) = true ->
  exists tokens calls,
    generate_reply env t ctx None w =
      (Ok (Some (concat tokens)),
       add_trace
         (CallLLMStream t ctx
            (slice_last (conversation_history (session w)) 4)
          :: calls ++ map (fun tok => Sent (EvToken tok)) tokens) w,
       None) /\
    (calls = [] \/ calls = [CallLLMFallback]) /\
    (forall lines,
       llm_stream env t ctx (slice_last (conversation_history (session w)) 4)
         = StreamOpened 400 lines None true ->
       calls = [CallLLMFallback] /\
       exists reply, tokens = [reply] /\
                     (fallback_fails env -> reply = APOLOGY) /\
                     (forall text,
                        llm_post env = PostReplied 200 (Some text) ->
                        truthy (strip text) = true -> reply = strip text)) /\
    ((forall lines,
        llm_stream env t ctx (slice_last (conversation_history (session w)) 4)
          <> StreamOpened 400 lines None true) ->
     calls = []).
Proof.
  intros Hact.
  destruct (stream_llm_runs t ctx (conversation_history (session w)) w)
    as [tokens [calls [Hrun [Hcalls H400]]]].
  exists tokens, calls. split; [|split; assumption].
  unfold generate_reply. cbv [try_except bind get_session].
  rewrite Hrun. rewrite consume_tokens_runs by exact Hact.
  rewrite add_trace_add. simpl. reflexivity.
Qed.

Lemma count_obs_snoc (p : obs -> bool) (l : list obs) (o : obs) :
  count_obs p (l ++ [o]) = (count_obs p l + (if p o then 1 else 0))%nat.
Proof.
  unfold count_obs. rewrite filter_app, length_app. simpl.
  destruct (p o); reflexivity.
Qed.

Lemma count_obs_cons (p : obs -> bool) (o : obs) (l : list obs) :
  count_obs p (o :: l) = ((if p o then 1 else 0) + count_obs p l)%nat.
Proof. unfold count_obs. simpl. destruct (p o); reflexivity. Qed.

Lemma count_obs_app (p : obs -> bool) (l1 l2 : list obs) :
  count_obs p (l1 ++ l2) = (count_obs p l1 + count_obs p l2)%nat.
Proof. unfold count_obs. rewrite filter_app, length_app. reflexivity. Qed.

(** One synthesis attempt under [wait_for]. *)
Lemma tts_attempt_runs (full_response : pystr) (w : World) :
  wait_for (rest_tts env full_response) None w =
    (tts_outcome env (count_obs is_CallTTS (trace w)) (tts_input full_response),
     add_trace [CallTTS (tts_input full_response)] w, None).
Proof.
  unfold rest_tts, tts_outcome, tts_input. run_stage.
  destruct (tts_post env _ _) as [[e|status_code first_audio]|];
    try reflexivity.
  destruct (negb (status_code =? 200)); reflexivity.
Qed.

Lemma tts_fails_outcome (attempt : nat) (text : pystr) :
  tts_fails env attempt text ->
  tts_outcome env attempt text = Exc TimeoutError \/
  exists a, tts_outcome env attempt text = Ok a /\ truthy_bytes a = false.
Proof.
  unfold tts_fails, tts_outcome.
  destruct (tts_post env attempt text) as [[e|status_code first_audio]|].
  - intros _. right. exists None. split; reflexivity.
  - intros [H|H].
    + right. exists None. destruct (Z.eqb_spec status_code 200);
        [contradiction|]. split; reflexivity.
    + right. destruct (negb (status_code =? 200)).
      * exists None. split; reflexivity.
      * exists first_audio. split; [reflexivity|exact H].
  - intros _. left. reflexivity.
Qed.

Lemma tts_outcome_not_cancelled (attempt : nat) (text : pystr) :
  tts_outcome env attempt text = Exc TimeoutError \/
  exists a, tts_outcome env attempt text = Ok a.
Proof.
  unfold tts_outcome.
  destruct (tts_post env attempt text) as [[e|status_code first_audio]|].
  - right. eexists. reflexivity.
  - right. destruct (negb (status_code =? 200)); eexists; reflexivity.
  - left. reflexivity.
Qed.

(** The synthesis stage makes one call, or two when the first yields no
    audio; when both yield none, so does the stage. *)
Lemma synthesize_runs (full_response : pystr) (w : World) :
  exists audio_bytes calls,
    synthesize env full_response None w =
      (Ok audio_bytes,
       add_trace (CallTTS (tts_input full_response) :: calls) w, None) /\
    (calls = [] \/ calls = [CallTTS (tts_input full_response)]) /\
    (tts_fails env (count_obs is_CallTTS (trace w)) (tts_input full_response) ->
     calls = [CallTTS (tts_input full_response)] /\
     (tts_fails env (S (count_obs is_CallTTS (trace w)))
        (tts_input full_response) ->
      truthy_bytes audio_bytes = false)).
Proof.
  set (n0 := count_obs is_CallTTS (trace w)).
  set (text := tts_input full_response).
  assert (Hn1 : count_obs is_CallTTS (trace (add_trace [CallTTS text] w))
                = S n0).
  { unfold add_trace. simpl trace. rewrite count_obs_snoc. simpl.
    fold n0. lia. }
  unfold synthesize. cbv [try_except bind].
  rewrite tts_attempt_runs. fold n0 text.
  assert (Hsecond : forall first : option (list byte),
    truthy_bytes first = false ->
    exists audio_bytes,
      (if negb (truthy_bytes first)
       then try_except (wait_for (rest_tts env full_response))
              (fun e => if is_Exception e then Some (ret first) else None)
       else ret first) None (add_trace [CallTTS text] w)
      = (Ok audio_bytes, add_trace [CallTTS text; CallTTS text] w, None) /\
      (tts_fails env (S n0) text -> truthy_bytes audio_bytes = false)).
  { intros first Hfirst. rewrite Hfirst. change (negb false) with true.
    cbv [try_except]. rewrite tts_attempt_runs. fold text. rewrite Hn1.
    rewrite add_trace_add. simpl app.
    destruct (tts_outcome_not_cancelled (S n0) text) as [Ho|[a Ho]].
    - rewrite Ho. simpl. exists first. split; [reflexivity|].
      intros _. exact Hfirst.
    - rewrite Ho. exists a. split; [reflexivity|].
      intros Hf. destruct (tts_fails_outcome _ _ Hf) as [Hx|[a' [Hx Ha']]];
        rewrite Ho in Hx; [discriminate|]. inversion Hx. subst. exact Ha'. }
  destruct (tts_outcome_not_cancelled n0 text) as [Ho|[a Ho]]; rewrite Ho.
  - simpl. destruct (Hsecond None eq_refl) as [audio_bytes [Hrun Hfail]].
    exists audio_bytes, [CallTTS text]. split; [exact Hrun|].
    split; [right; reflexivity|]. intros _. split; [reflexivity|].
    exact Hfail.
  - destruct (truthy_bytes a) eqn:Hta.
    + exists a, []. simpl. rewrite Hta. simpl. split; [reflexivity|].
      split; [left; reflexivity|]. intros Hf1.
      destruct (tts_fails_outcome _ _ Hf1) as [Hx|[a' [Hx Ha']]];
        rewrite Ho in Hx; [discriminate|]. inversion Hx. subst. congruence.
    + destruct (Hsecond a Hta) as [audio_bytes [Hrun Hfail]].
      rewrite Hta in Hrun.
      exists audio_bytes, [CallTTS text]. split; [exact Hrun|].
      split; [right; reflexivity|]. intros _. split; [reflexivity|].
      exact Hfail.
Qed.

(** The closing steps of a turn that nobody cancels. *)
Lemma finish_turn_runs (transcript full_response : pystr)
  (audio_bytes : option (list byte)) (w : World) :
  exists closing w',
    finish_turn transcript full_response audio_bytes None w
      = (Ok tt, w', None) /\
    trace w' = trace w ++ [closing; Sent EvPerf] /\
    conversation_history (session w') =
      cap_history (conversation_history (session w)
                   ++ [Turn RoleUser transcript;
                       Turn RoleAssistant full_response]) /\
    (truthy_bytes audio_bytes = false ->
     closing = Sent (EvStatus StListening) /\
     _state (session w') = LISTENING) /\
    (truthy_bytes audio_bytes = true ->
     exists data, audio_bytes = Some data /\ closing = Sent (EvAudio data) /\
                  _state (session w') = AI_SPEAKING).
Proof.
  destruct w as [s clk tr ts nx].
  destruct audio_bytes as [[|b bs]|]; run_turn; simpl;
    eexists; eexists; (split; [reflexivity|]); simpl;
    rewrite <- ?app_assoc; simpl;
    (split; [reflexivity|]); (split; [reflexivity|]);
    split; intros H; try discriminate H.
  - split; reflexivity.
  - exists (b :: bs). repeat split; reflexivity.
  - split; reflexivity.
Qed.


Lemma bind_ok {A B : Type} (m : M A) (k : A -> M B)
  (c : option nat) (w : World) (a : A) (w' : World) (c' : option nat) :
  m c w = (Ok a, w', c') -> bind m k c w = k a c' w'.
Proof. intros H. unfold bind. rewrite H. reflexivity. Qed.

Lemma try_ok {A : Type} (m : M A) (h : exn -> option (M A))
  (c : option nat) (w : World) (a : A) (w' : World) (c' : option nat) :
  m c w = (Ok a, w', c') -> try_except m h c w = (Ok a, w', c').
Proof. intros H. unfold try_except. rewrite H. reflexivity. Qed.

Lemma send_event_runs (e : event) (w : World) :
  send_event e None w = (Ok tt, add_trace [Sent e] w, None).
Proof. reflexivity. Qed.

Lemma set_state_runs (st : SessionState) (w : World) :
  set_state st None w
    = (Ok tt, W.with_session (_set_state st (clock w)) w, None).
Proof. reflexivity. Qed.

(** Step 1 of a turn whose utterance is heard. *)
Lemma hearing_runs (audio_data : list byte) (transcript : pystr)
  (h : exn -> option (M (option pystr))) (w : World) :
  stt_post env audio_data = Returned (SttReplied 200 transcript) ->
  try_except
    (heard <- wait_for (rest_stt env audio_data) ;; ret (Some heard)) h None w
  = (Ok (Some transcript), add_trace [CallSTT audio_data] w, None).
Proof.
  intros Hstt. unfold rest_stt. run_stage. rewrite Hstt. reflexivity.
Qed.

(** Step 2 of a turn: a timeout is no context. *)
Lemma retrieval_runs (transcript : pystr) (w : World) :
  try_except (wait_for (search_context env transcript))
    (fun e => match e with
              | TimeoutError => Some (ret None)
              | _ => None
              end) None w
  = (Ok (context_for env transcript), add_trace [CallRAG transcript] w, None).
Proof.
  unfold search_context, context_for. run_stage.
  destruct (rag_search env transcript); reflexivity.
Qed.



End Uncancelled.

(** *** Counting the synthesis calls of any run *)

Lemma grows_refl (p : obs -> bool) (n : nat) (w : World) : grows p n w w.
Proof.
  exists []. split; [rewrite app_nil_r; reflexivity|]. unfold count_obs.
  simpl. lia.
Qed.

Lemma grows_comp (p : obs -> bool) (n k : nat) (w1 w2 w3 : World) :
  grows p n w1 w2 -> grows p k w2 w3 -> grows p (n + k) w1 w3.
Proof.
  intros [l1 [E1 C1]] [l2 [E2 C2]]. exists (l1 ++ l2). split.
  - rewrite E2, E1, app_assoc. reflexivity.
  - rewrite count_obs_app. lia.
Qed.

Lemma grows_quiet_trans (p : obs -> bool) (w1 w2 w3 : World) :
  grows p 0 w1 w2 -> grows p 0 w2 w3 -> grows p 0 w1 w3.
Proof. apply (@grows_comp p 0 0). Qed.

Lemma grows_observe (p : obs -> bool) (o : obs) (w : World) :
  p o = false -> grows p 0 w (W.with_trace o w).
Proof.
  intros Hp. exists [o]. split; [reflexivity|].
  rewrite count_obs_cons, Hp. unfold count_obs. simpl. lia.
Qed.

Lemma grows_modify (p : obs -> bool) (f : VoiceSession -> VoiceSession)
  (w : World) : grows p 0 w (W.with_session f w).
Proof.
  exists []. split; [simpl; rewrite app_nil_r; reflexivity|].
  unfold count_obs. simpl. lia.
Qed.

Ltac walk_tts :=
  walk (grows_refl is_CallTTS 0) (@grows_quiet_trans is_CallTTS)
       ltac:(first [apply grows_modify | apply grows_observe; reflexivity]).

Section TtsCalls.

Variable env : Backend.

Lemma send_event_no_tts (e : event) : always (grows is_CallTTS 0) (send_event e).
Proof. unfold send_event. walk_tts. Qed.

Lemma set_state_no_tts (st : SessionState) : always (grows is_CallTTS 0) (set_state st).
Proof. unfold set_state. walk_tts. Qed.














End TtsCalls.

(** *** Cancellation *)





(** On the obliging backend the turn passes fifteen suspension points; a
    cancellation at any of them ends the turn cancelled and in
    [LISTENING], and only the last one, the performance report, finds the
    two entries of the turn in the history. *)
Example every_suspension_point_cancels :
  map (fun k =>
         let end_ := cancelled_at obliging_env [x01] k (turn_started [x01]) in
         (match fst end_ with Exc CancelledError => true | _ => false end,
          _state (session (snd end_)),
          length (conversation_history (session (snd end_)))))
      (seq 0 15)
  = repeat (true, LISTENING, 0%nat) 14 ++ [(true, LISTENING, 2%nat)].
Proof. vm_compute. reflexivity. Qed.

(** *** Synthesis failure *)




(** *** Generation failure *)




End TurnFacts.

(** ** The WAV header *)

Module WavFacts.

Import Wav.

Lemma byte_val_of_Z (v : Z) : byte_val (byte_of_Z v) = v mod 256.
Proof.
  unfold byte_val, byte_of_Z.
  pose proof (Z.mod_pos_bound v 256 ltac:(lia)) as Hb.
  destruct (Byte.of_N (Z.to_N (v mod 256))) as [b|] eqn:E.
  - apply Byte.to_of_N in E. rewrite E. lia.
  - apply Byte.of_N_None_iff in E. lia.
Qed.

Lemma length_le_bytes (n : nat) : forall v, length (le_bytes n v) = n.
Proof. induction n as [|n IH]; intros v; simpl; [reflexivity|]. rewrite IH. reflexivity. Qed.

(** Reading back what was written: the value modulo the field width. *)
Lemma le_value_le_bytes (n : nat) : forall v,
  le_value (le_bytes n v) = v mod 256 ^ Z.of_nat n.
Proof.
  induction n as [|n IH]; intros v.
  - simpl. rewrite Z.mod_1_r. reflexivity.
  - cbn [le_bytes le_value]. rewrite byte_val_of_Z, IH.
    rewrite Nat2Z.inj_succ, Z.pow_succ_r by lia.
    rewrite Z.rem_mul_r by lia. lia.
Qed.

Lemma pack_uint_value (n : nat) (v : Z) (bs : list byte) :
  pack_uint n v = Some bs ->
  bs = le_bytes n v /\ le_value bs = v /\ 0 <= v < 256 ^ Z.of_nat n.
Proof.
  unfold pack_uint.
  destruct (Z.leb_spec 0 v); destruct (Z.ltb_spec v (256 ^ Z.of_nat n));
    simpl; intros Hp; inversion Hp; subst.
  split; [reflexivity|]. split; [|lia].
  rewrite le_value_le_bytes. apply Z.mod_small. lia.
Qed.

Lemma pack_uint_in_range (n : nat) (v : Z) :
  0 <= v < 256 ^ Z.of_nat n -> pack_uint n v = Some (le_bytes n v).
Proof.
  intros H. unfold pack_uint.
  destruct (Z.leb_spec 0 v); destruct (Z.ltb_spec v (256 ^ Z.of_nat n));
    simpl; try lia. reflexivity.
Qed.

(** X1: whenever [_pcm_to_wav] returns, the result is the 44-byte
    RIFF/WAVE header followed by the samples unchanged.  Every byte of the
    header is accounted for: the four tags are the ASCII of [RIFF], [WAVE],
    [fmt ] and [data] at offsets 0, 8, 12 and 36; the size fields read back
    as the payload length plus 36 and the payload length; the format chunk
    reads back as its size 16, PCM, the channel count, the sample rate, the
    byte rate, the block alignment and the bit depth.  With the arguments
    of the pipeline (16 kHz, mono, 16 bits) it returns exactly when the
    payload is shorter than 2^32 - 36 bytes and raises otherwise. *)
Theorem pcm_to_wav_layout (pcm : list byte) (sample_rate channels bits : Z) :
  (forall out,
     _pcm_to_wav pcm sample_rate channels bits = Some out ->
     length out = (44 + length pcm)%nat /\
     skipn 44 out = pcm /\
     firstn 4 out = [x52; x49; x46; x46] /\
     field 4 4 out = 36 + len pcm /\
     firstn 4 (skipn 8 out) = [x57; x41; x56; x45] /\
     firstn 4 (skipn 12 out) = [x66; x6d; x74; x20] /\
     field 16 4 out = 16 /\
     field 20 2 out = 1 /\
     field 22 2 out = channels /\
     field 24 4 out = sample_rate /\
     field 28 4 out = sample_rate * channels * bits / 8 /\
     field 32 2 out = channels * bits / 8 /\
     field 34 2 out = bits /\
     firstn 4 (skipn 36 out) = [x64; x61; x74; x61] /\
     field 40 4 out = len pcm) /\
  (len pcm + 36 < 2 ^ 32 ->
   exists out, _pcm_to_wav pcm 16000 1 16 = Some out) /\
  (2 ^ 32 <= len pcm + 36 -> _pcm_to_wav pcm 16000 1 16 = None).
Proof.
  split; [|split].
  - intros out. unfold _pcm_to_wav, wav_header.
    destruct (pack_uint 4 (36 + len pcm)) as [f1|] eqn:E1; [|discriminate].
    destruct (pack_uint 2 channels) as [f2|] eqn:E2;
      [|simpl; discriminate].
    destruct (pack_uint 4 sample_rate) as [f3|] eqn:E3;
      [|simpl; discriminate].
    destruct (pack_uint 4 (sample_rate * channels * bits / 8)) as [f4|] eqn:E4;
      [|simpl; discriminate].
    destruct (pack_uint 2 (channels * bits / 8)) as [f5|] eqn:E5;
      [|simpl; discriminate].
    destruct (pack_uint 2 bits) as [f6|] eqn:E6; [|simpl; discriminate].
    destruct (pack_uint 4 (len pcm)) as [f7|] eqn:E7; [|simpl; discriminate].
    destruct (pack_uint_value _ _ E1) as [-> [V1 _]].
    destruct (pack_uint_value _ _ E2) as [-> [V2 _]].
    destruct (pack_uint_value _ _ E3) as [-> [V3 _]].
    destruct (pack_uint_value _ _ E4) as [-> [V4 _]].
    destruct (pack_uint_value _ _ E5) as [-> [V5 _]].
    destruct (pack_uint_value _ _ E6) as [-> [V6 _]].
    destruct (pack_uint_value _ _ E7) as [-> [V7 _]].
    cbn [then_field pack_uint le_bytes app tag_RIFF tag_WAVE tag_fmt tag_data
         andb Z.leb Z.ltb Z.compare Z.pow Z.of_nat Pos.of_succ_nat Pos.succ
         Z.pow_pos Pos.iter Z.mul Pos.mul Pos.add Pos.compare
         Pos.compare_cont].
    intros H. inversion H. subst out. clear H.
    unfold field. cbn [skipn firstn length app].
    repeat split; try reflexivity; assumption.
  - intros Hlen. unfold _pcm_to_wav, wav_header.
    change (2 ^ 32) with 4294967296 in Hlen.
    assert (Hp : 0 <= len pcm) by (unfold len; lia).
    rewrite (@pack_uint_in_range 4 (36 + len pcm))
      by (change (256 ^ Z.of_nat 4) with 4294967296; lia).
    rewrite (@pack_uint_in_range 4 (len pcm))
      by (change (256 ^ Z.of_nat 4) with 4294967296; lia).
    simpl. eexists. reflexivity.
  - intros Hlen. unfold _pcm_to_wav, wav_header, pack_uint at 1.
    change (2 ^ 32) with 4294967296 in Hlen.
    change (256 ^ Z.of_nat 4) with 4294967296.
    destruct (Z.ltb_spec (36 + len pcm) 4294967296) as [Hc|_]; [lia|].
    rewrite andb_false_r. reflexivity.
Qed.

(** Two samples wrapped for the transcription backend. *)
Lemma pcm_to_wav_layout_witness :
  exists out,
    _pcm_to_wav [x01; x02; x03; x04] 16000 1 16 = Some out /\
    length out = 48%nat /\
    skipn 44 out = [x01; x02; x03; x04] /\
    field 40 4 out = 4.
Proof.
  destruct (@pcm_to_wav_layout [x01; x02; x03; x04] 16000 1 16)
    as [Hlay [Hsome _]].
  destruct (Hsome ltac:(vm_compute; reflexivity)) as [out E].
  destruct (Hlay out E)
    as [L [S [_ [_ [_ [_ [_ [_ [_ [_ [_ [_ [_ [_ F]]]]]]]]]]]]]].
  exists out. repeat split; assumption.
Defined.

End WavFacts.

(** ** Bounds on the synthesis input and on the history *)

Module BoundFacts.

Import Streaming TruncateFacts TurnFacts.

(** X2: for a non-negative limit, [_smart_truncate] returns a prefix of the
    text of at most [limit] characters, alone or followed by the ellipsis:
    the result is never longer than [limit + 3], and nothing but the
    ellipsis is ever added to the text. *)
Theorem smart_truncate_bound (text : pystr) (limit : Z) :
  0 <= limit ->
  len (_smart_truncate text limit) <= limit + 3 /\
  exists k,
    Z.of_nat k <= limit /\
    (_smart_truncate text limit = firstn k text \/
     _smart_truncate text limit = firstn k text ++ ellipsis).
Proof.
  intros Hl.
  assert (Hk : exists k,
    Z.of_nat k <= limit /\
    (_smart_truncate text limit = firstn k text \/
     _smart_truncate text limit = firstn k text ++ ellipsis)).
  { unfold _smart_truncate.
    destruct (Z.leb_spec (len text) limit) as [Hshort|Hlong].
    - exists (length text). split; [exact Hshort|]. left.
      rewrite firstn_all. reflexivity.
    - rewrite (slice_to_nonneg text Hl). cbv zeta.
      set (t := firstn (Z.to_nat limit) text).
      match goal with
      | |- context [limit / 2 <? ?m] =>
          destruct (Z.ltb_spec (limit / 2) m) as [Hp|Hp]
      end.
      + match goal with
        | |- context [slice_to t ?j] =>
            assert (Hj : 0 <= j)
              by (pose proof (Z.div_pos limit 2 Hl ltac:(lia)); lia);
            rewrite (slice_to_nonneg t Hj);
            exists (Nat.min (Z.to_nat j) (Z.to_nat limit))
        end.
        split; [lia|]. left. unfold t. apply firstn_firstn.
      + destruct (Z.ltb_spec (limit / 2) (rfind t ch_space)) as [Hs|Hs].
        * assert (Hj : 0 <= rfind t ch_space)
            by (pose proof (Z.div_pos limit 2 Hl ltac:(lia)); lia).
          rewrite (slice_to_nonneg t Hj).
          exists (Nat.min (Z.to_nat (rfind t ch_space)) (Z.to_nat limit)).
          split; [lia|]. right. unfold t. rewrite firstn_firstn. reflexivity.
        * exists (Z.to_nat limit). split; [lia|]. right. reflexivity. }
  split; [|exact Hk].
  destruct Hk as [k [Hkl [E|E]]]; rewrite E; unfold len.
  - pose proof (firstn_le_length k text). lia.
  - rewrite length_app. pose proof (firstn_le_length k text).
    unfold ellipsis. simpl. lia.
Qed.

(** With the default limit no more than 493 characters come back. *)
Lemma smart_truncate_bound_witness :
  len (_smart_truncate (repeat 97%N 600) default_limit) <= 493.
Proof.
  exact (proj1 (@smart_truncate_bound (repeat 97%N 600) default_limit
                  ltac:(vm_compute; discriminate))).
Defined.

(** *** What any run of a turn sends to the synthesis backend *)

Lemma truncated_fits (text : pystr) :
  tts_too_long (CallTTS (_smart_truncate text default_limit)) = false.
Proof.
  unfold tts_too_long.
  assert (Hl : 0 <= default_limit) by (vm_compute; discriminate).
  pose proof (proj1 (smart_truncate_bound text Hl)) as Hb.
  apply Z.ltb_ge. unfold default_limit in *. lia.
Qed.

Ltac walk_long :=
  walk (grows_refl tts_too_long 0) (@grows_quiet_trans tts_too_long)
       ltac:(first [ apply grows_modify
                   | apply grows_observe;
                     first [reflexivity | apply truncated_fits] ]).

Section SynthesisInput.

Variable env : Backend.

Lemma send_event_fits (e : event) :
  always (grows tts_too_long 0) (send_event e).
Proof. unfold send_event. walk_long. Qed.

Lemma set_state_fits (st : SessionState) :
  always (grows tts_too_long 0) (set_state st).
Proof. unfold set_state. walk_long. Qed.

Lemma rest_tts_fits (text : pystr) :
  always (grows tts_too_long 0) (rest_tts env text).
Proof. unfold rest_tts. walk_long. Qed.

Lemma llm_fallback_fits : always (grows tts_too_long 0) (_llm_fallback env).
Proof. unfold _llm_fallback. walk_long. Qed.

Lemma stream_llm_fits (t : pystr) (ctx : option pystr) (h : list turn) :
  always (grows tts_too_long 0) (stream_llm env t ctx h).
Proof. pose proof llm_fallback_fits. unfold stream_llm. walk_long. Qed.

Lemma consume_tokens_fits (tokens : list pystr) : forall acc,
  always (grows tts_too_long 0) (consume_tokens tokens acc).
Proof.
  pose proof send_event_fits.
  induction tokens as [|tok rest IH]; intros acc; simpl; walk_long.
Qed.

Lemma turn_body_fits (audio_data : list byte) :
  always (grows tts_too_long 0) (turn_body env audio_data).
Proof.
  pose proof send_event_fits. pose proof set_state_fits.
  pose proof rest_tts_fits. pose proof stream_llm_fits.
  pose proof consume_tokens_fits.
  unfold turn_body, generate_reply, synthesize, finish_turn, rest_stt,
    search_context.
  walk_long.
Qed.

Lemma process_utterance_fits (audio_data : list byte) :
  always (grows tts_too_long 0) (_process_utterance env audio_data).
Proof.
  pose proof send_event_fits. pose proof set_state_fits.
  pose proof turn_body_fits.
  unfold _process_utterance. walk_long.
Qed.

End SynthesisInput.

Lemma count_obs_none (p : obs -> bool) (l : list obs) :
  (count_obs p l <= 0)%nat -> forall o, In o l -> p o = false.
Proof.
  unfold count_obs. induction l as [|x rest IH]; intros Hc o Hin.
  - destruct Hin.
  - simpl in Hc. destruct (p x) eqn:Hx; [simpl in Hc; lia|].
    destruct Hin as [<-|Hin]; [exact Hx|]. exact (IH Hc o Hin).
Qed.

(** X3: however a turn runs, whether it completes, fails or is cancelled at
    any suspension point, every text it hands to the synthesis backend is
    at most 493 code points long, whatever the generation backend
    produced. *)
Theorem synthesis_input_bounded (env : Backend) (audio_data : list byte)
  (c : option nat) (w : World) :
  exists new,
    trace (snd (fst (_process_utterance env audio_data c w)))
      = trace w ++ new /\
    forall text, In (CallTTS text) new -> len text <= 493.
Proof.
  destruct (process_utterance_fits env audio_data c w) as [new [E C]].
  exists new. split; [exact E|]. intros text Hin.
  pose proof (count_obs_none _ _ C _ Hin) as Hp.
  unfold tts_too_long in Hp. apply Z.ltb_ge in Hp. exact Hp.
Qed.

(** *** The history across a turn *)

Lemma cap_history_pair (h : list turn) (x y : turn) :
  exists dropped kept,
    h = dropped ++ kept /\
    cap_history (h ++ [x; y]) = kept ++ [x; y] /\
    len (cap_history (h ++ [x; y])) = Z.min MAX_HISTORY_ENTRIES (len h + 2).
Proof.
  unfold cap_history, slice_last, len, MAX_HISTORY_ENTRIES.
  rewrite length_app. simpl length.
  destruct (Z.ltb_spec 10 (Z.of_nat (length h + 2))) as [Hlong|Hshort].
  - set (n := Z.to_nat (Z.of_nat (length h + 2) - 10)).
    assert (Hn : (n <= length h)%nat) by (unfold n; lia).
    exists (firstn n h), (skipn n h).
    split; [symmetry; apply firstn_skipn|].
    assert (E : skipn n (h ++ [x; y]) = skipn n h ++ [x; y]).
    { rewrite skipn_app. replace (n - length h)%nat with O by lia.
      reflexivity. }
    rewrite E. split; [reflexivity|].
    rewrite length_app, length_skipn. simpl length. unfold n. lia.
  - exists [], h. split; [reflexivity|]. split; [reflexivity|].
    rewrite length_app. simpl length. lia.
Qed.

Lemma whole_turn_is_step (w w' : World) :
  whole_turn_or_nothing w w' -> history_step w w'.
Proof.
  unfold whole_turn_or_nothing, same_history, history_step.
  intros [H|[t [r H]]]; [left; exact H|]. right.
  destruct (cap_history_pair (conversation_history (session w))
              (Turn RoleUser t) (Turn RoleAssistant r))
    as [dropped [kept [Hh [Hc Hl]]]].
  exists t, r, dropped, kept. rewrite H.
  split; [exact Hh|]. split; [exact Hc|exact Hl].
Qed.

(** X4: however a turn runs, the history afterwards is the history before,
    or a tail of it followed by the user entry and the assistant entry of
    the turn, and then it is [min 10 (n + 2)] entries long: nothing is
    reordered or rewritten, one entry is never added without the other, and
    a history of at most ten entries stays within ten. *)
Theorem history_capped (env : Backend) (audio_data : list byte)
  (c : option nat) (w : World) :
  let w' := snd (fst (_process_utterance env audio_data c w)) in
  history_step w w' /\
  (len (conversation_history (session w)) <= MAX_HISTORY_ENTRIES ->
   len (conversation_history (session w')) <= MAX_HISTORY_ENTRIES).
Proof.
  intros w'.
  assert (Hs : history_step w w')
    by (apply whole_turn_is_step; apply process_utterance_history).
  split; [exact Hs|]. intros Hb.
  destruct Hs as [E|[t [r [dropped [kept [_ [_ Hl]]]]]]].
  - rewrite E. exact Hb.
  - rewrite Hl. lia.
Qed.

(** A history of ten entries, and a completed turn on it. *)
Lemma history_capped_witness :
  len (conversation_history (session (snd (fst
    (_process_utterance obliging_env [x01] None
       (W.with_session
          (Upd.history (repeat (Turn RoleUser []) 10))
          (turn_started [x01]))))))) <= MAX_HISTORY_ENTRIES.
Proof.
  apply (@history_capped obliging_env [x01] None
           (W.with_session (Upd.history (repeat (Turn RoleUser []) 10))
              (turn_started [x01]))).
  vm_compute. discriminate.
Defined.

End BoundFacts.

(** ** The VAD fields of the session *)

Module SessionFacts.

Import BargeInFacts ShortUtteranceFacts StateMachineFacts TurnFacts.

Lemma same_vad_refl (w : World) : same_vad w w.
Proof. unfold same_vad. repeat split; reflexivity. Qed.

Lemma same_vad_trans (w1 w2 w3 : World) :
  same_vad w1 w2 -> same_vad w2 w3 -> same_vad w1 w3.
Proof. unfold same_vad. intuition congruence. Qed.

Lemma same_vad_consistent (w w' : World) :
  same_vad w w' -> vad_consistent (session w) -> vad_consistent (session w').
Proof.
  unfold same_vad, vad_consistent.
  intros [-> [-> [-> [-> ->]]]] H. exact H.
Qed.

Ltac walk_vad :=
  walk same_vad_refl same_vad_trans
       ltac:(unfold same_vad; simpl; repeat split; reflexivity).

Section VadOfStages.

Variable env : Backend.

Lemma send_event_vad (e : event) : always same_vad (send_event e).
Proof. unfold send_event. walk_vad. Qed.

Lemma set_state_vad (st : SessionState) : always same_vad (set_state st).
Proof. unfold set_state. walk_vad. Qed.

Lemma check_watchdog_vad : always same_vad check_watchdog.
Proof.
  pose proof send_event_vad. pose proof set_state_vad.
  unfold check_watchdog. walk_vad.
Qed.

Lemma stream_llm_vad (t : pystr) (ctx : option pystr) (h : list turn) :
  always same_vad (stream_llm env t ctx h).
Proof. unfold stream_llm, _llm_fallback. walk_vad. Qed.

Lemma consume_tokens_vad (tokens : list pystr) : forall acc,
  always same_vad (consume_tokens tokens acc).
Proof.
  pose proof send_event_vad.
  induction tokens as [|tok rest IH]; intros acc; simpl; walk_vad.
Qed.

Lemma process_utterance_vad (audio_data : list byte) :
  always same_vad (_process_utterance env audio_data).
Proof.
  pose proof send_event_vad. pose proof set_state_vad.
  pose proof stream_llm_vad. pose proof consume_tokens_vad.
  unfold _process_utterance, turn_body, generate_reply, synthesize,
    finish_turn, rest_stt, search_context, rest_tts.
  walk_vad.
Qed.

End VadOfStages.

Ltac close_consistent :=
  repeat match goal with
         | H : _ /\ _ |- _ => destruct H
         | H : _is_speaking ?s = _ |- context [_is_speaking ?s] => rewrite H
         | |- _ /\ _ => split
         end;
  unfold FRAME_DURATION_MS, SILENCE_DURATION_MS, MIN_BARGE_IN_FRAMES in *;
  try reflexivity; try assumption; try lia.

Lemma vad_branch_consistent (a : list byte) (w : World) :
  vad_consistent (session w) ->
  vad_consistent (session (snd (exec (vad_branch a) w))).
Proof.
  intros Hc. destruct w as [s clk tr ts nx]. run_vad.
  unfold _detect_speech. simpl.
  destruct (_calculate_rms a) as [r|]; [|exact Hc].
  cbv beta iota. unfold detect_on_rms, vad_consistent in *. simpl in Hc.
  destruct Hc as [Hb [Hs Hc]].
  destruct (rms_gt r SPEECH_THRESHOLD); simpl.
  - destruct (_is_speaking s) eqn:Hsp; simpl; rewrite ?Hsp; simpl;
      close_consistent.
  - destruct (_is_speaking s) eqn:Hsp; simpl.
    + destruct (Z.leb_spec SILENCE_DURATION_MS
                  ((_silence_frames s + 1) * FRAME_DURATION_MS)); simpl.
      * destruct (MIN_SPEECH_DURATION_MS <=? _speech_frames s * FRAME_DURATION_MS);
          simpl; [|close_consistent].
        destruct (len (_audio_buffer s) <? MIN_AUDIO_BYTES); simpl;
          close_consistent.
      * rewrite Hsp. simpl. rewrite Hsp. close_consistent.
    + rewrite Hsp. close_consistent.
Qed.

Lemma audio_chunk_consistent (a : list byte) (w : World) :
  vad_consistent (session w) ->
  vad_consistent (session (snd (exec (handle_audio_chunk a) w))).
Proof.
  intros Hc. destruct (is_ai_speaking (session w)) eqn:Hm.
  - destruct (_calculate_rms a) as [r|] eqn:Hr.
    + destruct (rms_gt r BARGE_IN_THRESHOLD) eqn:Hq.
      * destruct (Z.lt_ge_cases (_barge_in_frames (session w) + 1)
                    MIN_BARGE_IN_FRAMES) as [Hlt|Hge].
        -- rewrite (muted_loud_frame a w Hm Hr Hq Hlt).
           unfold vad_consistent in *. destruct w as [s clk tr ts nx].
           simpl in *. destruct (_is_speaking s); close_consistent.
        -- destruct (muted_firing_frame a w Hm Hr Hq Hge)
             as [w' [E [_ [_ [H1 [H2 [H3 [H4 _]]]]]]]].
           rewrite E. unfold vad_consistent. simpl. rewrite H1, H2, H3, H4.
           close_consistent.
      * rewrite (muted_quiet_frame a w Hm Hr Hq).
        unfold vad_consistent in *. destruct w as [s clk tr ts nx].
        simpl in *. destruct (_is_speaking s); close_consistent.
    + run_coro. rewrite Hm, Hr. exact Hc.
  - cbv [exec handle_audio_chunk get_session time_now bind ret fst snd].
    rewrite Hm.
    destruct (SessionState_eqb (_state (session w)) PROCESSING); [exact Hc|].
    destruct ((0 <? _playback_ended_at (session w))
              && (clock w - _playback_ended_at (session w)
                  <? PLAYBACK_COOLDOWN_MS)); [exact Hc|].
    apply (vad_branch_consistent a w Hc).
Qed.

Lemma exec_then_ret {A B : Type} (m : M A) (b : B) (w : World) :
  snd (exec (bind m (fun _ => ret b)) w) = snd (exec m w).
Proof.
  unfold exec, bind, ret. destruct (m None w) as [[[a|e] w'] c']; reflexivity.
Qed.

(** What the watchdog does when it runs from the receive loop. *)
Lemma check_watchdog_runs (w : World) :
  exists w',
    check_watchdog None w = (Ok tt, w', None) /\
    same_vad w w' /\ clock w' = clock w /\
    loop_tasks w' = loop_tasks w /\
    _processing_task (session w') = _processing_task (session w) /\
    conversation_history (session w')
      = conversation_history (session w) /\
    (_state (session w') = _state (session w) \/
     _state (session w') = LISTENING).
Proof.
  destruct w as [s clk tr ts nx].
  cbv [check_watchdog set_state send_event await_point observe modify
       get_session time_now ret bind fst snd]. simpl.
  destruct (_state s) eqn:Hst;
    repeat match goal with
           | |- context [if ?b then _ else _] => destruct b
           end;
    eexists; (split; [reflexivity|]); simpl;
    unfold same_vad; simpl; rewrite ?Hst; intuition auto.
Qed.

Lemma receive_consistent (now : Z) (m : inbound) (w : World) :
  vad_consistent (session w) ->
  vad_consistent (session (snd (receive now m w))).
Proof.
  intros Hc. unfold receive.
  assert (Hc0 : vad_consistent (session (W.with_clock now w))) by exact Hc.
  set (w0 := W.with_clock now w) in *. clearbody w0.
  assert (Hdog : forall v, vad_consistent (session v) ->
            forall (k : unit -> M bool),
            (forall v', vad_consistent (session v') ->
                        vad_consistent (session (snd (exec (k tt) v')))) ->
            vad_consistent (session (snd (exec (bind check_watchdog k) v)))).
  { intros v Hv k Hk.
    destruct (check_watchdog_runs v) as [v' [E [Hsame _]]].
    unfold exec. erewrite bind_ok by exact E. apply Hk.
    exact (same_vad_consistent Hsame Hv). }
  assert (Hchunk : forall data v, vad_consistent (session v) ->
            vad_consistent
              (session (snd (exec (handle_audio_chunk data ;; ret true) v)))).
  { intros data v Hv. rewrite exec_then_ret.
    apply audio_chunk_consistent. exact Hv. }
  destruct m; unfold serve.
  - apply Hdog; [exact Hc0|]. intros v Hv. apply Hchunk; exact Hv.
  - apply Hdog; [exact Hc0|]. intros v Hv. exact Hv.
  - apply Hdog; [exact Hc0|]. intros v Hv. destruct v as [s clk tr ts nx].
    unfold vad_consistent. vm_compute. intuition discriminate.
  - apply Hdog; [exact Hc0|]. intros v Hv. exact Hv.
  - apply Hdog; [exact Hc0|]. intros v Hv. exact Hv.
  - apply Hdog; [exact Hc0|]. intros v Hv. exact Hv.
  - apply Hdog; [exact Hc0|]. intros v Hv. exact Hv.
  - apply Hdog; [exact Hc0|]. intros v Hv. apply Hchunk; exact Hv.
  - unfold exec. erewrite bind_ok by (apply send_event_runs).
    apply (Hdog (add_trace [Sent EvPing] w0) Hc0 (fun _ => ret true)).
    intros v Hv. exact Hv.
  - apply Hdog; [exact Hc0|]. intros v Hv. exact Hv.
  - apply Hdog; [exact Hc0|]. intros v Hv. exact Hv.
Qed.

(** X5: the handlers keep the VAD fields of the session consistent.  A
    fresh session has the barge-in counter in [0, 3), a non-negative
    silence counter, and, as it is not speaking, no speech frame counted and
    an empty buffer; while it is speaking at least one speech frame is
    counted and the silence counted so far is below the silence window.
    Every message the receive loop handles preserves this, also when the
    handler raises; a turn leaves the VAD fields alone however it runs, and
    so does the clean-up at the end of the connection. *)
Theorem vad_fields_maintained :
  (forall now, vad_consistent (session (connect now))) /\
  (forall now m w,
     vad_consistent (session w) ->
     vad_consistent (session (snd (receive now m w)))) /\
  (forall env audio_data, always same_vad (_process_utterance env audio_data)) /\
  (forall w, same_vad w (snd (exec cleanup w))).
Proof.
  split; [|split; [|split]].
  - intros now. unfold vad_consistent. vm_compute. intuition discriminate.
  - apply receive_consistent.
  - apply process_utterance_vad.
  - intros [s clk tr ts nx].
    cbv [exec cleanup cancel_and_await task_done modify get_session ret bind
         fst snd]. simpl.
    destruct (_processing_task s) as [t|]; simpl;
      [destruct (find_task t ts) as [[|a]|] eqn:Hf; simpl; rewrite ?Hf; simpl|];
      unfold same_vad; simpl; repeat split; reflexivity.
Qed.

(** The first loud frame of a connection, received while the greeting is
    still muting the microphone. *)
Lemma vad_fields_maintained_witness :
  vad_consistent (session (snd (receive 256 (InBinary loud_frame) (connect 0)))).
Proof.
  destruct vad_fields_maintained as [H0 [H1 _]].
  apply H1. apply H0.
Defined.

(** X6: the watchdog, as the receive loop runs it before the handler of a
    message.  A session that has been in [AI_SPEAKING] for more than 30 s,
    or in [GREETING] for more than 120 s, is moved to [LISTENING] and the
    peer is sent [status listening]; the task in flight is neither
    cancelled nor forgotten, and the VAD fields are not reset.  Leaving
    [AI_SPEAKING] opens the playback cooldown, so the audio frame whose
    arrival tripped the watchdog is dropped without being measured;
    leaving [GREETING] opens none, and the frame goes on to
    [handle_audio_chunk] in [LISTENING].  Up to the deadline the watchdog
    does nothing.  (The clock is read once per message.) *)
Theorem watchdog_releases_mute (now : Z) (data : list byte) (w : World) :
  (_state (session w) = AI_SPEAKING ->
   WATCHDOG_TIMEOUT_S * 1000 < now - _state_entered_at (session w) ->
   0 < now ->
   exists w',
     receive now (InBinary data) w = (Ok true, w') /\
     _state (session w') = LISTENING /\
     _playback_ended_at (session w') = now /\
     trace w' = trace w ++ [Sent (EvStatus StListening)] /\
     same_vad w w' /\
     loop_tasks w' = loop_tasks w /\
     _processing_task (session w') = _processing_task (session w)) /\
  (_state (session w) = GREETING ->
   120 * 1000 < now - _state_entered_at (session w) ->
   exists w1,
     exec check_watchdog (W.with_clock now w) = (Ok tt, w1) /\
     _state (session w1) = LISTENING /\
     _playback_ended_at (session w1) = _playback_ended_at (session w) /\
     trace w1 = trace w ++ [Sent (EvStatus StListening)] /\
     same_vad w w1 /\
     loop_tasks w1 = loop_tasks w /\
     _processing_task (session w1) = _processing_task (session w) /\
     snd (receive now (InBinary data) w)
       = snd (exec (handle_audio_chunk data) w1)) /\
  (_state (session w) = AI_SPEAKING /\
   now - _state_entered_at (session w) <= WATCHDOG_TIMEOUT_S * 1000
   \/ _state (session w) = GREETING /\
      now - _state_entered_at (session w) <= 120 * 1000 ->
   exec check_watchdog (W.with_clock now w) = (Ok tt, W.with_clock now w)).
Proof.
  destruct w as [s clk tr ts nx]. simpl. unfold WATCHDOG_TIMEOUT_S.
  split; [|split].
  - intros Hst Hlate Hpos. run_loop. simpl. rewrite Hst.
    destruct (Z.ltb_spec 30000 (now - _state_entered_at s)) as [_|Hc];
      [|lia].
    simpl. unfold is_ai_speaking. simpl.
    destruct (Z.ltb_spec 0 now) as [_|Hc]; [|lia].
    replace (now - now) with 0 by lia. simpl.
    eexists. split; [reflexivity|]. simpl.
    unfold same_vad. simpl. repeat split; reflexivity.
  - intros Hst Hlate. unfold receive, serve, exec.
    cbv [check_watchdog set_state send_event await_point observe modify
         get_session time_now ret bind fst snd]. simpl. rewrite Hst.
    destruct (Z.ltb_spec 120000 (now - _state_entered_at s))
      as [_|Hc]; [|lia].
    eexists. split; [reflexivity|]. simpl.
    unfold same_vad. simpl. repeat split; try reflexivity.
    match goal with
    | |- context [handle_audio_chunk data None ?v] =>
        destruct (handle_audio_chunk data None v) as [[[u|e] v'] c']
    end; reflexivity.
  - intros [[Hst Hearly]|[Hst Hearly]];
      cbv [exec check_watchdog set_state send_event await_point observe
           modify get_session time_now ret bind fst snd]; simpl; rewrite Hst.
    + destruct (Z.ltb_spec 30000 (now - _state_entered_at s));
        [lia|reflexivity].
    + destruct (Z.ltb_spec 120000 (now - _state_entered_at s));
        [lia|reflexivity].
Qed.

(** A reply that has been playing for 31 s when an unreadable frame of
    three bytes arrives. *)
Lemma watchdog_releases_mute_witness :
  exists w',
    receive 31000 (InBinary [x01; x02; x03]) (reply_playing [x01])
      = (Ok true, w') /\
    _state (session w') = LISTENING.
Proof.
  destruct (proj1 (@watchdog_releases_mute 31000 [x01; x02; x03]
                     (reply_playing [x01]))
              ltac:(reflexivity) ltac:(vm_compute; reflexivity)
              ltac:(reflexivity))
    as [w' [E [Hst _]]].
  exists w'. split; [exact E|exact Hst].
Defined.

(** X7: the playback cooldown.  After a [playback_done] message handled at
    a time [t0 > 0], an audio frame that arrives less than 500 ms later is
    dropped: nothing is measured, counted, buffered or sent, whatever the
    frame holds.  From 500 ms on the frame reaches the VAD. *)
Theorem playback_cooldown (t0 t : Z) (data : list byte) (w : World) :
  0 < t0 ->
  let w1 := snd (receive t0 InPlaybackDone w) in
  (t - t0 < PLAYBACK_COOLDOWN_MS ->
   receive t (InBinary data) w1 = (Ok true, W.with_clock t w1)) /\
  (PLAYBACK_COOLDOWN_MS <= t - t0 ->
   snd (receive t (InBinary data) w1)
     = snd (exec (vad_branch data) (W.with_clock t w1))).
Proof.
  intros Hpos w1. unfold PLAYBACK_COOLDOWN_MS.
  assert (Hw1 : _state (session w1) = LISTENING /\
                _playback_ended_at (session w1) = t0).
  { unfold w1. destruct w as [s clk tr ts nx]. run_loop. simpl.
    destruct (_state s); simpl;
      repeat match goal with
             | |- context [if ?b then _ else _] => destruct b; simpl
             end;
      split; reflexivity. }
  clearbody w1. destruct Hw1 as [Hst Hend].
  destruct w1 as [s clk tr ts nx]. simpl in Hst, Hend.
  split; intros Ht.
  - run_loop. simpl. unfold is_ai_speaking. simpl.
    repeat (rewrite Hst; simpl). rewrite Hend.
    destruct (Z.ltb_spec 0 t0) as [_|Hc]; [|lia].
    unfold PLAYBACK_COOLDOWN_MS. simpl.
    destruct (Z.ltb_spec (t - t0) 500) as [_|Hc]; [|lia].
    reflexivity.
  - unfold receive, serve.
    cbv [exec check_watchdog handle_audio_chunk get_session time_now ret bind
         fst]. simpl. unfold is_ai_speaking. simpl.
    repeat (rewrite Hst; simpl). rewrite Hend.
    destruct (Z.ltb_spec 0 t0) as [_|Hc]; [|lia].
    unfold PLAYBACK_COOLDOWN_MS. simpl.
    destruct (Z.ltb_spec (t - t0) 500) as [Hc|_]; [lia|].
    simpl.
    match goal with
    | |- context [vad_branch data None ?v] =>
        destruct (vad_branch data None v) as [[[u|e] v'] c']
    end; reflexivity.
Qed.

Lemma playback_cooldown_witness :
  receive 1400 (InBinary loud_frame)
    (snd (receive 1000 InPlaybackDone (reply_playing [x01])))
  = (Ok true,
     W.with_clock 1400 (snd (receive 1000 InPlaybackDone (reply_playing [x01])))).
Proof.
  apply (proj1 (@playback_cooldown 1000 1400 loud_frame (reply_playing [x01])
                  ltac:(reflexivity))).
  reflexivity.
Defined.

(** *** Noise bursts *)

Ltac settle :=
  repeat match goal with
         | H : _ /\ _ |- _ => destruct H
         | H : _is_speaking ?s = _ |- context [_is_speaking ?s] => rewrite H
         | H : _ && _ = false |- context [_ && _] => rewrite H
         | |- _ /\ _ => split
         | |- _ -> _ => intro
         end;
  try reflexivity; try assumption; try discriminate; try lia.

(** A quiet frame heard before 300 ms of speech have been counted. *)
Lemma quiet_frame_fades (a : list byte) (w : World) :
  quiet_chunk a -> unconfirmed w ->
  let w' := snd (exec (handle_audio_chunk a) w) in
  unconfirmed w' /\ trace w' = trace w /\ loop_tasks w' = loop_tasks w /\
  _state (session w') = _state (session w) /\
  (_is_speaking (session w) = false -> _is_speaking (session w') = false) /\
  (SILENCE_DURATION_MS
     <= (_silence_frames (session w) + 1) * FRAME_DURATION_MS ->
   _is_speaking (session w') = false) /\
  (_is_speaking (session w') = true ->
   _silence_frames (session w') = _silence_frames (session w) + 1).
Proof.
  intros [r [Hr Hq]] [Hst [Hcd [Hsil Hsp]]].
  rewrite (audio_reaches_vad a w Hst Hcd).
  unfold unconfirmed, in_cooldown in *.
  destruct w as [s clk tr ts nx]. simpl in *.
  run_vad. unfold _detect_speech. simpl. rewrite Hr. cbv beta iota.
  unfold detect_on_rms. unfold quiet in Hq. rewrite Hq. simpl.
  destruct (_is_speaking s) eqn:Hs; simpl.
  - destruct (Z.leb_spec SILENCE_DURATION_MS
                ((_silence_frames s + 1) * FRAME_DURATION_MS)) as [Hw|Hw];
      simpl.
    + destruct (Z.leb_spec MIN_SPEECH_DURATION_MS
                  (_speech_frames s * FRAME_DURATION_MS)) as [Hc|_]; [lia|].
      simpl. settle.
    + rewrite ?Hs. simpl. settle.
  - rewrite ?Hs. simpl. settle.
Qed.

Lemma quiet_run_fades (chunks : list (list byte)) :
  Forall quiet_chunk chunks -> forall w,
  unconfirmed w ->
  let w' := feed chunks w in
  unconfirmed w' /\ trace w' = trace w /\ loop_tasks w' = loop_tasks w /\
  _state (session w') = _state (session w) /\
  (_is_speaking (session w) = false \/
   SILENCE_DURATION_MS
     <= (_silence_frames (session w) + len chunks) * FRAME_DURATION_MS ->
   _is_speaking (session w') = false).
Proof.
  induction 1 as [|a rest Ha Hrest IH]; intros w Hw.
  - simpl. split; [exact Hw|]. do 3 (split; [reflexivity|]).
    intros [Hidle|Hlong]; [exact Hidle|].
    destruct Hw as [_ [_ [H0 Hsp]]].
    destruct (_is_speaking (session w)); [|reflexivity].
    exfalso. unfold len in Hlong. simpl in Hlong. lia.
  - simpl feed.
    destruct (quiet_frame_fades Ha Hw) as [Hw1 [Ht [Hl [Hs [Hidle [Hcl Hgo]]]]]].
    destruct (IH _ Hw1) as [Hw' [Ht' [Hl' [Hs' Hend]]]].
    split; [exact Hw'|]. split; [congruence|]. split; [congruence|].
    split; [congruence|].
    intros Hcase. apply Hend.
    set (w1 := snd (exec (handle_audio_chunk a) w)) in *.
    destruct (_is_speaking (session w1)) eqn:Hs1; [|left; reflexivity].
    right. rewrite (Hgo eq_refl).
    destruct Hcase as [Hi|Hlong].
    + discriminate (Hidle Hi).
    + unfold len in *. simpl length in Hlong. lia.
Qed.

(** X8: a noise burst.  On a listening session outside the cooldown, one
    frame above the speech threshold followed by frames at or below it,
    however many, starts no turn: the peer is sent [vad speaking=true] and
    nothing after it, no task is created, and once four quiet frames have
    passed the utterance is dropped and the buffer is empty.  The session
    is left in [USER_SPEAKING]. *)
Theorem noise_burst_rejected (a : list byte) (chunks : list (list byte))
  (w : World) :
  _state (session w) = LISTENING ->
  in_cooldown w = false ->
  _is_speaking (session w) = false ->
  _speech_frames (session w) = 0 ->
  speech_chunk a ->
  Forall quiet_chunk chunks ->
  let w' := feed (a :: chunks) w in
  trace w' = trace w ++ [Sent (EvVad true)] /\
  loop_tasks w' = loop_tasks w /\
  _state (session w') = USER_SPEAKING /\
  (4 <= len chunks ->
   _is_speaking (session w') = false /\ _audio_buffer (session w') = []).
Proof.
  intros Hst Hcd Hidle Hzero [r [Hr Hloud]] Hq. simpl feed.
  set (w1 := snd (exec (handle_audio_chunk a) w)).
  assert (H1 : unconfirmed w1 /\ trace w1 = trace w ++ [Sent (EvVad true)] /\
               loop_tasks w1 = loop_tasks w /\
               _state (session w1) = USER_SPEAKING /\
               _is_speaking (session w1) = true /\
               _silence_frames (session w1) = 0).
  { unfold w1. rewrite (audio_reaches_vad a w (or_intror Hst) Hcd).
    unfold unconfirmed, in_cooldown in *.
    destruct w as [s clk tr ts nx]. simpl in *.
    run_vad. unfold _detect_speech. simpl. rewrite Hr. cbv beta iota.
    unfold detect_on_rms. rewrite Hloud. simpl. rewrite Hidle. simpl.
    rewrite Hzero, Hcd. settle. left. reflexivity. }
  destruct H1 as [Hu [Ht [Hl [Hs [Hsp Hsil]]]]].
  destruct (quiet_run_fades Hq Hu) as [Hu' [Ht' [Hl' [Hs' Hend]]]].
  split; [congruence|]. split; [congruence|]. split; [congruence|].
  intros Hfour.
  assert (Hoff : _is_speaking (session (feed chunks w1)) = false).
  { apply Hend. right. rewrite Hsil.
    unfold SILENCE_DURATION_MS, FRAME_DURATION_MS. lia. }
  split; [exact Hoff|].
  destruct Hu' as [_ [_ [_ Hb]]]. rewrite Hoff in Hb. exact Hb.
Qed.

Lemma noise_burst_rejected_witness :
  let w' := feed (loud_frame :: repeat quiet_frame 4) listening in
  trace w' = [Sent (EvVad true)] /\ loop_tasks w' = [] /\
  _state (session w') = USER_SPEAKING.
Proof.
  assert (Hloud : speech_chunk loud_frame)
    by (eexists; split; vm_compute; reflexivity).
  assert (Hquiet : Forall quiet_chunk (repeat quiet_frame 4))
    by (repeat constructor; eexists; split; vm_compute; reflexivity).
  destruct (@noise_burst_rejected loud_frame (repeat quiet_frame 4) listening
              eq_refl eq_refl eq_refl eq_refl Hloud Hquiet)
    as [Ht [Hl [Hs _]]].
  repeat split; assumption.
Defined.

End SessionFacts.

(** ** How a turn ends *)

Module TurnEndFacts.

Import TurnFacts.

(** X9: a turn whose utterance is not heard (the transcription times out
    after 10 s, fails, or comes back blank) ends quietly, whatever the
    other backends would answer: between [status transcribing] and
    [status listening] the only call made is the transcription, the peer is
    sent no error, the session is in [LISTENING] and the history is
    untouched. *)
Theorem unheard_turn_aborts (env : Backend) (audio_data : list byte)
  (w : World) :
  unheard env audio_data ->
  exists w',
    exec (_process_utterance env audio_data) w = (Ok tt, w') /\
    trace w' = trace w ++ [Sent (EvStatus StTranscribing); CallSTT audio_data;
                           Sent (EvStatus StListening)] /\
    _state (session w') = LISTENING /\
    _state_entered_at (session w') = clock w /\
    conversation_history (session w') = conversation_history (session w) /\
    loop_tasks w' = loop_tasks w.
Proof.
  unfold unheard. intros Hun. destruct w as [s clk tr ts nx].
  unfold exec, _process_utterance, turn_body, rest_stt. run_stage.
  destruct (stt_post env audio_data) as [[e|status_code transcript]|]; simpl.
  - eexists. split; [reflexivity|]. simpl. rewrite <- !app_assoc.
    repeat split; reflexivity.
  - destruct (Z.eqb_spec status_code 200) as [E|E]; simpl.
    + destruct Hun as [Hc|Hb]; [contradiction|]. rewrite Hb.
      eexists. split; [reflexivity|]. simpl. rewrite <- !app_assoc.
      repeat split; reflexivity.
    + eexists. split; [reflexivity|]. simpl. rewrite <- !app_assoc.
      repeat split; reflexivity.
  - eexists. split; [reflexivity|]. simpl. rewrite <- !app_assoc.
    repeat split; reflexivity.
Qed.

Lemma unheard_turn_aborts_witness :
  exists w',
    exec (_process_utterance deaf_env [x01]) (turn_started [x01]) = (Ok tt, w') /\
    trace w' = [Sent (EvStatus StTranscribing); CallSTT [x01];
                Sent (EvStatus StListening)] /\
    _state (session w') = LISTENING.
Proof.
  destruct (@unheard_turn_aborts deaf_env [x01] (turn_started [x01]) I)
    as [w' [E [Ht [Hs _]]]].
  exists w'. repeat split; assumption.
Defined.

Ltac then_step lem :=
  erewrite bind_ok by (apply lem); cbv beta; rewrite ?add_trace_add.

Lemma filter_token_events (tokens : list pystr) :
  filter is_token_event (map (fun tok => Sent (EvToken tok)) tokens)
    = map (fun tok => Sent (EvToken tok)) tokens.
Proof.
  induction tokens as [|tok rest IH]; [reflexivity|].
  simpl. rewrite IH. reflexivity.
Qed.

(** X10: what a completed turn leaves behind.  On an active session, a
    turn whose utterance is heard and that nobody cancels returns normally,
    whatever the other backends answer.  The reply shown to the peer in the
    assistant transcript is the concatenation, in order, of the fragments
    the turn sent as tokens; the history receives the transcript as heard
    and this same reply in full, not the text cut for synthesis, and it
    receives them also when the synthesis yields no audio. *)
Theorem completed_turn_record (env : Backend) (audio_data : list byte)
  (transcript : pystr) (w : World) :
  is_active (session w) = true ->
  hears env audio_data transcript ->
  exists tokens new w',
    exec (_process_utterance env audio_data) w = (Ok tt, w') /\
    trace w' = trace w ++ new /\
    filter is_token_event new = map (fun tok => Sent (EvToken tok)) tokens /\
    In (Sent (EvTranscript (concat tokens) RoleAssistant)) new /\
    conversation_history (session w') =
      cap_history (conversation_history (session w)
                   ++ [Turn RoleUser transcript;
                       Turn RoleAssistant (concat tokens)]).
Proof.
  intros Hact [Hstt Hblank].
  unfold exec, _process_utterance.
  assert (Hbody : exists tokens new w',
    turn_body env audio_data None w = (Ok tt, w', None) /\
    trace w' = trace w ++ new /\
    filter is_token_event new = map (fun tok => Sent (EvToken tok)) tokens /\
    In (Sent (EvTranscript (concat tokens) RoleAssistant)) new /\
    conversation_history (session w') =
      cap_history (conversation_history (session w)
                   ++ [Turn RoleUser transcript;
                       Turn RoleAssistant (concat tokens)])).
  { unfold turn_body.
    then_step send_event_runs.
    erewrite bind_ok by (apply hearing_runs; exact Hstt).
    cbv beta iota. rewrite ?add_trace_add. rewrite Hblank.
    then_step send_event_runs. then_step send_event_runs.
    then_step retrieval_runs. then_step send_event_runs.
    simpl app.
    match goal with
    | |- context [bind (generate_reply env transcript ?ctx) _ None ?w0] =>
        destruct (@generate_reply_runs env transcript ctx w0 Hact)
          as [tokens [calls [Hgen [Hcalls _]]]]
    end.
    erewrite bind_ok by (exact Hgen). cbv beta iota. rewrite ?add_trace_add.
    then_step send_event_runs. then_step send_event_runs.
    match goal with
    | |- context [bind (synthesize env (concat tokens)) _ None ?w0] =>
        destruct (@synthesize_runs env (concat tokens) w0)
          as [audio_bytes [tts_calls [Hsyn [Htts _]]]]
    end.
    erewrite bind_ok by (exact Hsyn). cbv beta. rewrite ?add_trace_add.
    match goal with
    | |- context [finish_turn transcript (concat tokens) audio_bytes None ?w0] =>
        destruct (@finish_turn_runs transcript (concat tokens) audio_bytes w0)
          as [closing [w' [Hfin [Htr [Hhist [Hquiet Hloud]]]]]]
    end.
    assert (Hclosing : is_token_event closing = false).
    { destruct (truthy_bytes audio_bytes) eqn:Hta.
      - destruct (Hloud eq_refl) as [d [_ [-> _]]]. reflexivity.
      - destruct (Hquiet eq_refl) as [-> _]. reflexivity. }
    exists tokens. eexists. exists w'.
    split; [exact Hfin|]. split.
    { rewrite Htr. unfold add_trace. simpl trace.
      rewrite <- !app_assoc. reflexivity. }
    split.
    { repeat first [rewrite filter_app | progress simpl filter].
      rewrite filter_token_events, Hclosing.
      destruct Hcalls as [-> | ->]; destruct Htts as [-> | ->];
        simpl; rewrite ?app_nil_r; reflexivity. }
    split.
    { repeat first [rewrite in_app_iff | progress simpl In]. intuition. }
    rewrite Hhist. reflexivity. }
  destruct Hbody as [tokens [new [w' [Hrun Hrest]]]].
  exists tokens, new, w'.
  split; [erewrite try_ok by (exact Hrun); reflexivity|exact Hrest].
Qed.

Lemma completed_turn_record_witness :
  exists w',
    exec (_process_utterance mute_env [x01]) (turn_started [x01]) = (Ok tt, w') /\
    conversation_history (session w') =
      [Turn RoleUser [104; 105]%N; Turn RoleAssistant [111; 107]%N].
Proof.
  destruct (@completed_turn_record mute_env [x01] [104; 105]%N
              (turn_started [x01]) eq_refl (conj eq_refl eq_refl))
    as [tokens [new [w' [E _]]]].
  exists w'. split; [exact E|].
  vm_compute in E. inversion E. reflexivity.
Defined.

Lemma generate_reply_inactive (env : Backend) (t : pystr)
  (ctx : option pystr) (w w1 : World) (tok : pystr) (rest : list pystr) :
  is_active (session w) = false ->
  stream_llm env t ctx (conversation_history (session w)) None w
    = (Ok (tok :: rest), w1, None) ->
  session w1 = session w ->
  generate_reply env t ctx None w = (Ok None, w1, None).
Proof.
  intros Hact Hs Hsess.
  unfold generate_reply, try_except, bind at 1, get_session.
  unfold bind at 1. rewrite Hs. simpl consume_tokens. run_stage.
  rewrite Hsess, Hact. reflexivity.
Qed.

(** X11: a turn on a session that is no longer active, which happens when
    the connection has ended and the task was not cancelled.  The
    utterance is still transcribed, the context searched and the generation
    backend called; at the first fragment the turn returns.  Nothing is
    sent after [status thinking], no synthesis is requested, and the
    session is not written to: the state is not reset and the history is
    untouched. *)
Theorem inactive_turn_stops (env : Backend) (audio_data : list byte)
  (transcript : pystr) (w : World) :
  is_active (session w) = false ->
  hears env audio_data transcript ->
  let ctx := context_for env transcript in
  let h := conversation_history (session w) in
  let w0 := add_trace (turn_opening audio_data transcript) w in
  exists tokens calls,
    fst (fst (stream_llm env transcript ctx h None w0)) = Ok tokens /\
    (calls = [] \/ calls = [CallLLMFallback]) /\
    (tokens <> [] ->
     exec (_process_utterance env audio_data) w =
       (Ok tt,
        add_trace (CallLLMStream transcript ctx (slice_last h 4) :: calls) w0)).
Proof.
  intros Hact [Hstt Hblank] ctx h w0.
  destruct (stream_llm_runs env transcript ctx h w0)
    as [tokens [calls [Hs [Hcalls _]]]].
  exists tokens, calls. split; [rewrite Hs; reflexivity|].
  split; [exact Hcalls|]. intros Hne.
  destruct tokens as [|tok rest]; [contradiction|].
  unfold exec, _process_utterance.
  erewrite try_ok; [reflexivity|].
  unfold turn_body.
  then_step send_event_runs.
  erewrite bind_ok by (apply hearing_runs; exact Hstt).
  cbv beta iota. rewrite ?add_trace_add. rewrite Hblank.
  then_step send_event_runs. then_step send_event_runs.
  then_step retrieval_runs. then_step send_event_runs.
  simpl app. fold ctx.
  erewrite bind_ok
    by (apply generate_reply_inactive with (tok := tok) (rest := rest);
        [exact Hact|exact Hs|reflexivity]).
  reflexivity.
Qed.

(** The session of [turn_started], closed before the task runs. *)
Lemma inactive_turn_stops_witness :
  let w := W.with_session (Upd.active false) (turn_started [x01]) in
  exists calls,
    exec (_process_utterance obliging_env [x01]) w
    = (Ok tt,
       add_trace (CallLLMStream [104; 105]%N None [] :: calls)
         (add_trace (turn_opening [x01] [104; 105]%N) w)).
Proof.
  intros w.
  destruct (@inactive_turn_stops obliging_env [x01] [104; 105]%N w
              eq_refl (conj eq_refl eq_refl))
    as [tokens [calls [Hs [Hcalls Hrun]]]].
  exists calls.
  vm_compute in Hs. inversion Hs. subst tokens.
  exact (Hrun ltac:(discriminate)).
Defined.

End TurnEndFacts.

(** ** The fragments of a generated reply *)

Module StreamFacts.

Import TurnFacts.







End StreamFacts.

(** ** The energy of a chunk *)

Module EnergyFacts.

Lemma sample_range (lo hi : byte) : -32768 <= sample lo hi <= 32767.
Proof.
  unfold sample.
  assert (Hlo : 0 <= Z.of_N (Byte.to_N lo) < 256).
  { pose proof (Byte.to_N_bounded lo). lia. }
  assert (Hhi : 0 <= Z.of_N (Byte.to_N hi) < 256).
  { pose proof (Byte.to_N_bounded hi). lia. }
  destruct (Z.ltb_spec (Z.of_N (Byte.to_N lo) + 256 * Z.of_N (Byte.to_N hi))
              32768); lia.
Qed.

Lemma unpack_h_range (n : nat) : forall bs ss,
  unpack_h n bs = Some ss -> Forall (fun s => Z.abs s <= 32768) ss.
Proof.
  induction n as [|n IH]; intros bs ss H.
  - destruct bs; [|discriminate]. inversion H. constructor.
  - destruct bs as [|lo [|hi rest]]; try discriminate. simpl in H.
    destruct (unpack_h n rest) as [ss'|] eqn:E; [|discriminate].
    inversion H. subst. constructor; [|exact (IH _ _ E)].
    pose proof (sample_range lo hi). lia.
Qed.

Lemma sum_squares_bound (T : Z) (ss : list Z) :
  Forall (fun s => Z.abs s <= T) ss ->
  0 <= sum_squares ss <= T * T * Z.of_nat (length ss).
Proof.
  induction 1 as [|s rest Hs Hrest IH]; [simpl; lia|].
  change (sum_squares (s :: rest)) with (s * s + sum_squares rest).
  simpl length. rewrite Nat2Z.inj_succ.
  assert (0 <= s * s <= T * T) by nia. lia.
Qed.

Lemma rms_zero_quiet (T : Z) : rms_gt 0%Q T = false.
Proof.
  unfold rms_gt, Qle_bool. simpl.
  destruct (Z.leb_spec 0 (T * T * 1)); [reflexivity|nia].
Qed.

Lemma mean_square_quiet (T : Z) (s : Z) (ss : list Z) :
  Forall (fun x => Z.abs x <= T) (s :: ss) ->
  rms_gt (Qmake (sum_squares (s :: ss)) (Pos.of_nat (length (s :: ss)))) T
    = false.
Proof.
  intros H. pose proof (sum_squares_bound H) as Hb.
  unfold rms_gt, Qle_bool. cbn [Qnum Qden inject_Z].
  replace (Z.pos (Pos.of_nat (length (s :: ss))))
    with (Z.of_nat (length (s :: ss))) by (simpl length; lia).
  destruct (Z.leb_spec (sum_squares (s :: ss) * 1)
              (T * T * Z.of_nat (length (s :: ss)))); [reflexivity|lia].
Qed.

Lemma calculate_rms_cases (bs : list byte) (r : rms) :
  _calculate_rms bs = Some r ->
  r = 0%Q \/
  exists s ss,
    unpack_h (Z.to_nat (len bs / 2)) bs = Some (s :: ss) /\
    r = Qmake (sum_squares (s :: ss)) (Pos.of_nat (length (s :: ss))).
Proof.
  unfold _calculate_rms.
  destruct (len bs <? 2); [intros H; inversion H; left; reflexivity|].
  destruct (unpack_h (Z.to_nat (len bs / 2)) bs) as [[|s ss]|];
    intros H; inversion H.
  - left. reflexivity.
  - right. exists s, ss. split; reflexivity.
Qed.

(** X13: the energy measure is sound for the thresholds.  A chunk whose
    samples all lie within [-T, T] never measures above [T]: samples within
    200 are never counted as speech and samples within 500 never count
    towards barge-in, whatever the length of the chunk.  No chunk measures
    above 32768, and a chunk that measures above [T] holds a sample beyond
    [T]. *)
Theorem energy_within_amplitude (bs : list byte) (r : rms) :
  _calculate_rms bs = Some r ->
  rms_gt r 32768 = false /\
  forall samples T,
    unpack_h (Z.to_nat (len bs / 2)) bs = Some samples ->
    0 <= T ->
    (Forall (fun s => Z.abs s <= T) samples -> rms_gt r T = false) /\
    (rms_gt r T = true -> Exists (fun s => T < Z.abs s) samples).
Proof.
  intros Hr.
  assert (Hquiet : forall samples T,
            unpack_h (Z.to_nat (len bs / 2)) bs = Some samples ->
            Forall (fun s => Z.abs s <= T) samples -> rms_gt r T = false).
  { intros samples T Hu Hall.
    destruct (calculate_rms_cases bs Hr) as [-> | [s [ss [Hu' ->]]]];
      [apply rms_zero_quiet|].
    rewrite Hu in Hu'. inversion Hu'. subst samples.
    apply mean_square_quiet. exact Hall. }
  split.
  - destruct (calculate_rms_cases bs Hr) as [-> | [s [ss [Hu _]]]];
      [apply rms_zero_quiet|].
    apply (Hquiet _ 32768 Hu). exact (unpack_h_range _ _ Hu).
  - intros samples T Hu HT. split; [apply Hquiet; exact Hu|].
    intros Hloud.
    destruct (Forall_Exists_dec (fun s => Z.abs s <= T)
                (fun s => Z_le_dec (Z.abs s) T) samples) as [Hall|Hex].
    + rewrite (Hquiet samples T Hu Hall) in Hloud. discriminate.
    + revert Hex. apply Exists_impl. intros s Hs. lia.
Qed.

(** A frame of constant amplitude 4096 is loud, so it is not made of
    samples within 500. *)
Lemma energy_within_amplitude_witness :
  Exists (fun s => 500 < Z.abs s) (repeat 4096 (Z.to_nat 4096)).
Proof.
  assert (Hr : _calculate_rms loud_frame = Some (Qmake 68719476736 4096))
    by (vm_compute; reflexivity).
  destruct (@energy_within_amplitude loud_frame _ Hr) as [_ H].
  apply (H (repeat 4096 (Z.to_nat 4096)) 500);
    [vm_compute; reflexivity|lia|vm_compute; reflexivity].
Defined.

End EnergyFacts.

(** ** Sentence chunking for the streaming synthesis *)

Module TtsStreamFacts.

Import TtsStream.

Lemma is_sep_in (c : N) : is_sep c = true <-> In c separators.
Proof.
  unfold is_sep. rewrite existsb_exists. split.
  - intros [x [Hin Hx]]. apply N.eqb_eq in Hx. subst. exact Hin.
  - intros Hin. exists c. split; [exact Hin|apply N.eqb_refl].
Qed.

Lemma find_aux_miss (l : pystr) (c : N) : forall i,
  Forall (fun x => x <> c) l -> find_aux l c i = -1.
Proof.
  induction l as [|x t IH]; intros i H; [reflexivity|].
  inversion H as [|? ? Hx Ht]. subst. simpl.
  destruct (N.eqb_spec x c); [contradiction|]. apply IH. exact Ht.
Qed.

Lemma find_aux_hit (body tail : pystr) (c : N) : forall i,
  Forall (fun x => x <> c) body ->
  find_aux (body ++ c :: tail) c i = i + len body.
Proof.
  induction body as [|x t IH]; intros i H.
  - simpl. rewrite N.eqb_refl. unfold len. simpl. lia.
  - inversion H as [|? ? Hx Ht]. subst. simpl.
    destruct (N.eqb_spec x c); [contradiction|].
    rewrite IH by exact Ht. unfold len. simpl length. lia.
Qed.

Lemma find_aux_beyond (body tail : pystr) (c : N) : forall i,
  Forall (fun x => x <> c) body ->
  find_aux (body ++ tail) c i = -1 \/ i + len body <= find_aux (body ++ tail) c i.
Proof.
  induction body as [|x t IH]; intros i H.
  - simpl. unfold len. simpl. clear H. revert i.
    induction tail as [|y u IHu]; intros i; [left; reflexivity|].
    simpl. destruct (N.eqb y c); [right; lia|].
    destruct (IHu (i + 1)) as [E|E]; [left; exact E|right; lia].
  - inversion H as [|? ? Hx Ht]. subst. simpl.
    destruct (N.eqb_spec x c); [contradiction|].
    destruct (IH (i + 1) Ht) as [E|E]; [left; exact E|].
    right. unfold len in *. simpl length. lia.
Qed.

Lemma sep_free_misses (body : pystr) (c : N) :
  sep_free body -> is_sep c = true -> Forall (fun x => x <> c) body.
Proof.
  intros Hb Hc. unfold sep_free in Hb. rewrite Forall_forall in *.
  intros x Hx E. subst. rewrite (Hb c Hx) in Hc. discriminate.
Qed.

(** The boundary loop returns the least of the positions found. *)
Lemma fold_boundary (acc : pystr) (n : Z) (seps : list N) : forall idx,
  0 <= n ->
  (idx = -1 \/ n <= idx) ->
  (forall c, In c seps -> find acc c = -1 \/ n <= find acc c) ->
  let r := fold_left
             (fun idx sep =>
                let pos := find acc sep in
                if negb (pos =? -1) && ((idx =? -1) || (pos <? idx)) then pos
                else idx) seps idx in
  (r = -1 \/ n <= r) /\
  (idx = n \/ (exists c, In c seps /\ find acc c = n) -> r = n).
Proof.
  induction seps as [|sep rest IH]; intros idx Hn Hidx Hall.
  - simpl. split; [exact Hidx|].
    intros [E|[c [[] _]]]. exact E.
  - simpl fold_left.
    assert (Hsep : find acc sep = -1 \/ n <= find acc sep)
      by (apply Hall; left; reflexivity).
    set (idx' := if negb (find acc sep =? -1)
                    && ((idx =? -1) || (find acc sep <? idx))
                 then find acc sep else idx).
    assert (Hidx' : idx' = -1 \/ n <= idx').
    { unfold idx'. destruct (negb (find acc sep =? -1)
                             && ((idx =? -1) || (find acc sep <? idx)));
        assumption. }
    destruct (IH idx' Hn Hidx' (fun c Hc => Hall c (or_intror Hc)))
      as [Hr Hmin].
    split; [exact Hr|].
    intros Hhit. apply Hmin.
    destruct Hhit as [E|[c [[E|Hin] Hc]]].
    + left. unfold idx'. subst idx.
      destruct (Z.eqb_spec (find acc sep) (-1)); simpl; [reflexivity|].
      destruct (Z.eqb_spec n (-1)); simpl; [lia|].
      destruct (Z.ltb_spec (find acc sep) n); [lia|reflexivity].
    + subst c. left. unfold idx'. rewrite Hc.
      destruct (Z.eqb_spec n (-1)); simpl; [lia|].
      destruct (Z.eqb_spec idx (-1)); simpl; [reflexivity|].
      destruct (Z.ltb_spec n idx); [reflexivity|lia].
    + right. exists c. split; assumption.
Qed.

Lemma first_boundary_at (body tail : pystr) (s : N) :
  sep_free body -> is_sep s = true ->
  first_boundary (body ++ s :: tail) = len body.
Proof.
  intros Hb Hs. unfold first_boundary.
  apply (@fold_boundary (body ++ s :: tail) (len body) separators (-1)).
  - unfold len. lia.
  - left. reflexivity.
  - intros c Hc. apply is_sep_in in Hc.
    pose proof (@find_aux_beyond body (s :: tail) c 0
                  (@sep_free_misses body c Hb Hc)) as H.
    unfold find. lia.
  - right. exists s. split; [apply is_sep_in; exact Hs|].
    unfold find. rewrite find_aux_hit by (apply sep_free_misses; assumption).
    lia.
Qed.

Lemma contains_sep (acc : pystr) :
  existsb (fun sep => contains sep acc) separators = existsb is_sep acc.
Proof.
  apply eq_true_iff_eq. rewrite !existsb_exists. unfold contains, is_sep.
  split.
  - intros [sep [Hin Hc]]. apply existsb_exists in Hc.
    destruct Hc as [x [Hx E]]. apply N.eqb_eq in E. subst x.
    exists sep. split; [exact Hx|]. apply existsb_exists.
    exists sep. split; [exact Hin|apply N.eqb_refl].
  - intros [x [Hx Hc]]. apply existsb_exists in Hc.
    destruct Hc as [sep [Hin E]]. apply N.eqb_eq in E. subst sep.
    exists x. split; [exact Hin|]. apply existsb_exists.
    exists x. split; [exact Hx|apply N.eqb_refl].
Qed.

Lemma first_sep_split (acc : pystr) :
  sep_free acc \/
  exists body s tail,
    acc = body ++ s :: tail /\ sep_free body /\ is_sep s = true.
Proof.
  induction acc as [|c t IH]; [left; constructor|].
  destruct (is_sep c) eqn:Hc.
  - right. exists [], c, t. repeat split; [constructor|exact Hc].
  - destruct IH as [Hf|[body [s [tail [E [Hb Hs]]]]]].
    + left. constructor; assumption.
    + right. exists (c :: body), s, tail. subst t.
      repeat split; [constructor; assumption|exact Hs].
Qed.

Lemma sep_free_no_sep (acc : pystr) :
  sep_free acc -> existsb is_sep acc = false.
Proof.
  induction 1 as [|c t Hc Ht IH]; [reflexivity|].
  simpl. rewrite Hc. exact IH.
Qed.

Lemma sentences_free (s : pystr) : forall pending,
  sep_free s -> sentences pending s = ([], pending ++ s).
Proof.
  induction s as [|c t IH]; intros pending H.
  - simpl. rewrite app_nil_r. reflexivity.
  - inversion H as [|? ? Hc Ht]. subst. simpl. rewrite Hc.
    rewrite IH by exact Ht. rewrite <- app_assoc. reflexivity.
Qed.

Lemma sentences_cut (body tail : pystr) (s : N) : forall pending,
  sep_free body -> is_sep s = true ->
  sentences pending (body ++ s :: tail) =
    ((pending ++ body ++ [s]) :: fst (sentences [] tail),
     snd (sentences [] tail)).
Proof.
  induction body as [|c t IH]; intros pending Hb Hs.
  - simpl. rewrite Hs. destruct (sentences [] tail). reflexivity.
  - inversion Hb as [|? ? Hc Ht]. subst. simpl. rewrite Hc.
    rewrite IH by assumption. rewrite <- app_assoc. reflexivity.
Qed.

Lemma drain_step (fuel : nat) (acc : pystr) :
  drain (S fuel) acc =
    if existsb (fun sep => contains sep acc) separators then
      let idx := first_boundary acc in
      if negb (idx =? -1) then
        match drain fuel (slice_from acc (idx + 1)) with
        | Some (sent, remaining) =>
            Some ((if truthy (strip (slice_to acc (idx + 1)))
                   then [strip (slice_to acc (idx + 1))] else []) ++ sent,
                  remaining)
        | None => None
        end
      else drain fuel acc
    else Some ([], acc).
Proof. reflexivity. Qed.

(** The inner loop ends within one iteration per character, and cuts the
    text after each separator. *)
Lemma drain_sentences (fuel : nat) : forall acc,
  (length acc < fuel)%nat ->
  drain fuel acc
    = Some (spoken (fst (sentences [] acc)), snd (sentences [] acc)).
Proof.
  induction fuel as [|fuel IH]; intros acc Hlen; [lia|].
  rewrite drain_step, contains_sep.
  destruct (first_sep_split acc) as [Hf|[body [s [tail [E [Hb Hs]]]]]].
  - rewrite (@sep_free_no_sep acc Hf), (@sentences_free acc [] Hf). reflexivity.
  - subst acc.
    assert (Hex : existsb is_sep (body ++ s :: tail) = true).
    { apply existsb_exists. exists s. split; [|exact Hs].
      apply in_or_app. right. left. reflexivity. }
    rewrite Hex, (@first_boundary_at body tail s Hb Hs).
    assert (Hne : negb (len body =? -1) = true).
    { unfold len. destruct (Z.eqb_spec (Z.of_nat (length body)) (-1));
        [lia|reflexivity]. }
    cbv zeta. rewrite Hne.
    assert (Hcut : slice_to (body ++ s :: tail) (len body + 1) = body ++ [s]).
    { unfold slice_to, len.
      destruct (Z.leb_spec 0 (Z.of_nat (length body) + 1)); [|lia].
      replace (Z.to_nat (Z.of_nat (length body) + 1))
        with (length body + 1)%nat by lia.
      rewrite firstn_app. rewrite firstn_all2 by lia.
      replace (length body + 1 - length body)%nat with 1%nat by lia.
      reflexivity. }
    assert (Hrest : slice_from (body ++ s :: tail) (len body + 1) = tail).
    { unfold slice_from, len.
      replace (Z.to_nat (Z.of_nat (length body) + 1))
        with (length body + 1)%nat by lia.
      rewrite skipn_app. rewrite skipn_all2 by lia.
      replace (length body + 1 - length body)%nat with 1%nat by lia.
      reflexivity. }
    rewrite Hcut, Hrest.
    rewrite IH by (rewrite length_app in Hlen; simpl in Hlen; lia).
    rewrite (@sentences_cut body tail s [] Hb Hs). unfold spoken.
    cbn [fst snd map filter app].
    destruct (truthy (strip (body ++ [s]))); reflexivity.
Qed.

Lemma sentences_spec (s : pystr) : forall pending,
  sep_free pending ->
  pending ++ s = concat (fst (sentences pending s)) ++ snd (sentences pending s) /\
  Forall sentence_piece (fst (sentences pending s)) /\
  sep_free (snd (sentences pending s)).
Proof.
  induction s as [|c t IH]; intros pending Hp.
  - simpl. rewrite app_nil_r. repeat split; [constructor|exact Hp].
  - simpl. destruct (is_sep c) eqn:Hc.
    + destruct (IH [] ltac:(constructor)) as [E [Hpieces Hrest]].
      destruct (sentences [] t) as [pieces remaining].
      cbn [fst snd app] in *.
      split; [cbn [concat]; rewrite <- !app_assoc, <- E; reflexivity|].
      split; [|exact Hrest].
      constructor; [|exact Hpieces].
      exists pending, c. repeat split; assumption.
    + assert (Hp' : sep_free (pending ++ [c])).
      { apply Forall_app. split; [exact Hp|]. constructor; [exact Hc|constructor]. }
      destruct (IH _ Hp') as [E [Hpieces Hrest]].
      split; [rewrite <- E, <- app_assoc; reflexivity|].
      split; assumption.
Qed.

Lemma sentences_app (s1 s2 : pystr) : forall pending,
  sentences pending (s1 ++ s2) =
    (fst (sentences pending s1)
       ++ fst (sentences (snd (sentences pending s1)) s2),
     snd (sentences (snd (sentences pending s1)) s2)).
Proof.
  induction s1 as [|c t IH]; intros pending.
  - simpl. destruct (sentences pending s2). reflexivity.
  - simpl. destruct (is_sep c).
    + rewrite IH. destruct (sentences [] t) as [pieces remaining].
      reflexivity.
    + apply IH.
Qed.

Lemma sentences_pending (p s : pystr) : forall q,
  sep_free p -> sentences q (p ++ s) = sentences (q ++ p) s.
Proof.
  induction p as [|c t IH]; intros q Hp.
  - rewrite app_nil_r. reflexivity.
  - inversion Hp as [|? ? Hc Ht]. subst. simpl. rewrite Hc.
    rewrite IH by exact Ht. rewrite <- app_assoc. reflexivity.
Qed.

Lemma spoken_app (ps1 ps2 : list pystr) :
  spoken (ps1 ++ ps2) = spoken ps1 ++ spoken ps2.
Proof. unfold spoken. rewrite map_app, filter_app. reflexivity. Qed.

(** The whole of [send_text], in terms of the concatenated text. *)
Lemma send_text_sentences (texts : list pystr) : forall acc,
  sep_free acc ->
  send_text (map Some texts ++ [None]) acc =
    Some (map SendText (spoken (fst (sentences acc (concat texts))))
          ++ (if truthy (strip (snd (sentences acc (concat texts))))
              then [SendText (snd (sentences acc (concat texts)))] else [])
          ++ [SendEof]).
Proof.
  induction texts as [|t rest IH]; intros acc Hacc; [reflexivity|].
  cbn [map app send_text concat].
  rewrite drain_sentences by lia.
  rewrite (@sentences_pending acc t [] Hacc). simpl app.
  destruct (@sentences_spec t acc Hacc) as [_ [_ Hleft]].
  rewrite (IH _ Hleft), sentences_app. cbn [fst snd].
  rewrite spoken_app, map_app, <- app_assoc. reflexivity.
Qed.

(** X14: the sentence loop of [send_text] terminates, within one
    iteration per character of the accumulated text.  It cuts the text
    after each separator ([.], the danda, [!], [?], [,]): each piece is sent
    stripped, unless it is blank, and what is left over holds no
    separator. *)
Theorem sentence_loop_terminates (accumulated : pystr) (fuel : nat) :
  (length accumulated < fuel)%nat ->
  exists pieces remaining,
    drain fuel accumulated
      = Some (filter truthy (map strip pieces), remaining) /\
    accumulated = concat pieces ++ remaining /\
    Forall sentence_piece pieces /\
    sep_free remaining.
Proof.
  intros Hfuel. rewrite (@drain_sentences fuel accumulated Hfuel).
  destruct (@sentences_spec accumulated [] ltac:(constructor))
    as [E [Hpieces Hrest]].
  exists (fst (sentences [] accumulated)), (snd (sentences [] accumulated)).
  split; [reflexivity|]. split; [exact E|]. split; assumption.
Qed.

(** "a, b. c" is cut into "a," and "b.", and " c" is left. *)
Lemma sentence_loop_terminates_witness :
  exists pieces,
    drain 9 [97; 44; 32; 98; 46; 32; 99]%N
      = Some (filter truthy (map strip pieces), [32; 99]%N).
Proof.
  destruct (@sentence_loop_terminates [97; 44; 32; 98; 46; 32; 99]%N 9
              ltac:(simpl; lia))
    as [pieces [remaining [E _]]].
  exists pieces. rewrite E. vm_compute in E. inversion E. reflexivity.
Defined.

(** X15: what [send_text] sends depends only on the concatenation of the
    texts it is given, not on how the text arrives split over the queue:
    the stripped non-blank sentences in order, then the unfinished tail
    unstripped if it is not blank, then the end marker, which is sent
    exactly once and last.  No character other than surrounding blanks is
    lost. *)
Theorem send_text_regrouping (texts : list pystr) :
  (exists pieces remaining,
     send_text (map Some texts ++ [None]) [] =
       Some (map SendText (filter truthy (map strip pieces))
             ++ (if truthy (strip remaining) then [SendText remaining] else [])
             ++ [SendEof]) /\
     concat texts = concat pieces ++ remaining /\
     Forall sentence_piece pieces /\
     sep_free remaining) /\
  (forall texts',
     concat texts' = concat texts ->
     send_text (map Some texts' ++ [None]) []
       = send_text (map Some texts ++ [None]) []).
Proof.
  split.
  - rewrite (@send_text_sentences texts [] ltac:(constructor)).
    destruct (@sentences_spec (concat texts) [] ltac:(constructor))
      as [E [Hpieces Hrest]].
    exists (fst (sentences [] (concat texts))),
           (snd (sentences [] (concat texts))).
    split; [reflexivity|]. split; [exact E|]. split; assumption.
  - intros texts' E.
    rewrite !(@send_text_sentences _ [] ltac:(constructor)), E.
    reflexivity.
Qed.

(** "a, b" arriving as "a", ", " and "b", or in one piece. *)
Lemma send_text_regrouping_witness :
  send_text [Some [97]%N; Some [44; 32]%N; Some [98]%N; None] []
  = send_text [Some [97; 44; 32; 98]%N; None] [].
Proof.
  exact (proj2 (@send_text_regrouping [[97; 44; 32; 98]%N])
           [[97]%N; [44; 32]%N; [98]%N] eq_refl).
Defined.

End TtsStreamFacts.

(** ** The greeting *)

Module GreetingFacts.

Import Streaming TurnFacts BoundFacts SessionFacts.

Lemma generate_greeting_runs (g : Greeter) (w : World) :
  try_except (wait_for (generate_greeting g (business_summary g)))
    (fun e =>
       match e with
       | TimeoutError => Some (ret GENERIC_GREETING)
       | _ => None
       end) None w
  = (Ok (greeting_of g), w, None).
Proof.
  unfold generate_greeting, greeting_of. run_stage.
  destruct (business_summary g) as [context|]; [|reflexivity].
  destruct (negb (truthy context)); [reflexivity|]. simpl.
  destruct (greeting_post g context) as [[|status_code [text|]]|];
    try reflexivity;
    destruct (raises_for_status status_code); reflexivity.
Qed.

(** X16: a greeting that nobody cancels.  It always returns, having sent
    [status thinking], the greeting as an assistant transcript and
    [status speaking], and having asked once for the synthesis of the
    greeting cut to the synthesis limit; there is no second attempt.  With
    audio the session ends in [AI_SPEAKING] and the audio is sent, without
    it the session ends in [LISTENING] and [status listening] is sent: it
    never stays in [GREETING].  The history receives the opening user
    entry and the greeting, uncapped.  The greeting is the generic one
    whenever the business summary is missing or empty or the request times
    out, fails or holds no content. *)
Theorem greeting_outcome (g : Greeter) (w : World) :
  let text := greeting_of g in
  exists closing w',
    exec (_auto_greet g) w = (Ok tt, w') /\
    trace w' =
      trace w ++ [Sent (EvStatus StThinking);
                  Sent (EvTranscript text RoleAssistant);
                  Sent (EvStatus StSpeaking);
                  CallTTS (tts_input text);
                  closing] /\
    conversation_history (session w') =
      conversation_history (session w)
      ++ [Turn RoleUser CALL_STARTED; Turn RoleAssistant text] /\
    (truthy_bytes (tts_reply_audio (greeting_tts g (tts_input text))) = false ->
     closing = Sent (EvStatus StListening) /\
     _state (session w') = LISTENING) /\
    (forall data,
       tts_reply_audio (greeting_tts g (tts_input text)) = Some data ->
       truthy data = true ->
       closing = Sent (EvAudio data) /\ _state (session w') = AI_SPEAKING).
Proof.
  intros text. unfold exec, _auto_greet.
  assert (Hbody : exists closing w',
    (send_event (EvStatus StThinking) ;;
     greeting_text <-
       try_except (wait_for (generate_greeting g (business_summary g)))
         (fun e =>
            match e with
            | TimeoutError => Some (ret GENERIC_GREETING)
            | _ => None
            end) ;;
     send_event (EvTranscript greeting_text RoleAssistant) ;;
     send_event (EvStatus StSpeaking) ;;
     audio_bytes <- rest_tts_awaited g greeting_text ;;
     match audio_bytes with
     | Some (b :: bs) =>
         set_state AI_SPEAKING ;;
         send_event (EvAudio (b :: bs))
     | _ =>
         set_state LISTENING ;;
         send_event (EvStatus StListening)
     end ;;
     modify (fun s =>
       Upd.history (conversation_history s ++ [Turn RoleUser CALL_STARTED]) s) ;;
     modify (fun s =>
       Upd.history
         (conversation_history s ++ [Turn RoleAssistant greeting_text]) s))
      None w = (Ok tt, w', None) /\
    trace w' =
      trace w ++ [Sent (EvStatus StThinking);
                  Sent (EvTranscript text RoleAssistant);
                  Sent (EvStatus StSpeaking);
                  CallTTS (tts_input text);
                  closing] /\
    conversation_history (session w') =
      conversation_history (session w)
      ++ [Turn RoleUser CALL_STARTED; Turn RoleAssistant text] /\
    (truthy_bytes (tts_reply_audio (greeting_tts g (tts_input text))) = false ->
     closing = Sent (EvStatus StListening) /\
     _state (session w') = LISTENING) /\
    (forall data,
       tts_reply_audio (greeting_tts g (tts_input text)) = Some data ->
       truthy data = true ->
       closing = Sent (EvAudio data) /\ _state (session w') = AI_SPEAKING)).
  { erewrite bind_ok by (apply send_event_runs). cbv beta.
    erewrite bind_ok by (apply generate_greeting_runs). cbv beta.
    fold text. unfold rest_tts_awaited. fold (tts_input text).
    destruct w as [s clk tr ts nx]. run_stage. simpl.
    destruct (tts_reply_audio (greeting_tts g (tts_input text)))
      as [[|b bs]|]; simpl;
      eexists; eexists; (split; [reflexivity|]); simpl;
      rewrite <- ?app_assoc; simpl;
      (split; [reflexivity|]); (split; [reflexivity|]);
      split; try (intros H; discriminate H);
      try (intros data H; inversion H; subst; intros Ht; try discriminate Ht);
      try (intros _); split; reflexivity. }
  destruct Hbody as [closing [w' [Hrun Hrest]]].
  exists closing, w'. split; [|exact Hrest].
  erewrite try_ok by (exact Hrun). reflexivity.
Qed.

Lemma greeting_outcome_witness :
  exists w',
    exec (_auto_greet welcoming) (connect 0) = (Ok tt, w') /\
    _state (session w') = AI_SPEAKING /\
    conversation_history (session w') =
      [Turn RoleUser CALL_STARTED; Turn RoleAssistant [104; 105]%N].
Proof.
  destruct (@greeting_outcome welcoming (connect 0))
    as [closing [w' [E [_ [Hh [_ Hloud]]]]]].
  exists w'. split; [exact E|]. split; [|exact Hh].
  exact (proj2 (Hloud [x01] eq_refl eq_refl)).
Defined.

(** *** Any run of the greeting *)

Section GreetingRuns.

Variable g : Greeter.

Lemma greeting_vad : always same_vad (_auto_greet g).
Proof.
  pose proof send_event_vad. pose proof set_state_vad.
  unfold _auto_greet, generate_greeting, rest_tts_awaited.
  walk same_vad_refl same_vad_trans
       ltac:(unfold same_vad; simpl; repeat split; reflexivity).
Qed.

Lemma greeting_fits : always (grows tts_too_long 0) (_auto_greet g).
Proof.
  pose proof send_event_fits. pose proof set_state_fits.
  unfold _auto_greet, generate_greeting, rest_tts_awaited.
  walk (grows_refl tts_too_long 0) (@grows_quiet_trans tts_too_long)
       ltac:(first [ apply grows_modify
                   | apply grows_observe;
                     first [reflexivity | apply truncated_fits] ]).
Qed.

Lemma rest_tts_awaited_one_call (text : pystr) :
  always (grows is_CallTTS 1) (rest_tts_awaited g text).
Proof.
  intros c w. unfold rest_tts_awaited. run_stage.
  exists [CallTTS (_smart_truncate text default_limit)].
  split; [|unfold count_obs; simpl; lia].
  destruct c as [[|k]|]; reflexivity.
Qed.

Ltac quiet_prefix :=
  apply (always_bind _ (grows_refl is_CallTTS 1) (@grows_comp is_CallTTS 0 1));
  [ solve [ walk (grows_refl is_CallTTS 0) (@grows_quiet_trans is_CallTTS)
              ltac:(first [apply grows_modify
                          | apply grows_observe; reflexivity]) ]
  | intro ].

Lemma greeting_one_call : always (grows is_CallTTS 1) (_auto_greet g).
Proof.
  pose proof send_event_no_tts as Hsend. pose proof set_state_no_tts as Hset.
  unfold _auto_greet.
  apply (always_try _ (grows_refl is_CallTTS 0) (@grows_comp is_CallTTS 1 0)).
  - quiet_prefix.
    cbv zeta. unfold generate_greeting.
    quiet_prefix. quiet_prefix. quiet_prefix.
    apply (always_bind _ (grows_refl is_CallTTS 0) (@grows_comp is_CallTTS 1 0));
      [apply rest_tts_awaited_one_call|intro].
    walk (grows_refl is_CallTTS 0) (@grows_quiet_trans is_CallTTS)
         ltac:(first [apply grows_modify | apply grows_observe; reflexivity]).
  - intros e handler He. destruct e; inversion He; subst;
      walk (grows_refl is_CallTTS 0) (@grows_quiet_trans is_CallTTS)
           ltac:(first [apply grows_modify | apply grows_observe; reflexivity]).
Qed.

Lemma greeting_history (c : option nat) (w : World) :
  greeting_step w (snd (fst (_auto_greet g c w))) /\
  forall e,
    fst (fst (_auto_greet g c w)) = Exc e ->
    e = CancelledError /\ same_history w (snd (fst (_auto_greet g c w))).
Proof.
  destruct w as [s clk tr ts nx].
  unfold _auto_greet, generate_greeting, rest_tts_awaited, greeting_step,
    same_history.
  run_stage.
  destruct c as [[|[|[|[|[|[|k]]]]]]|]; simpl;
    (destruct (business_summary g) as [ctx|];
     [ destruct (negb (truthy ctx));
       [| destruct (greeting_post g ctx) as [[|code [text|]]|];
          try destruct (raises_for_status code) ]
     | ]);
    simpl;
    repeat match goal with
           | |- context [tts_reply_audio ?r] =>
               destruct (tts_reply_audio r) as [[|? ?]|]; simpl
           end;
    (split;
     [ first [ left; reflexivity
             | right; eexists; rewrite <- app_assoc; reflexivity ]
     | intros e He; first [discriminate He
                          | inversion He; split; reflexivity] ]).
Qed.

End GreetingRuns.

(** X17: the greeting, however it runs.  Whether it completes or is
    cancelled at any of its suspension points, it leaves the VAD fields
    alone, asks for at most one synthesis, of a text of at most 493 code
    points, and adds to the history both of its entries or neither.  The
    only exception that leaves it is the cancellation, and a cancelled
    greeting leaves the history as it was. *)
Theorem greeting_any_run (g : Greeter) (c : option nat) (w : World) :
  let w' := snd (fst (_auto_greet g c w)) in
  same_vad w w' /\
  greeting_step w w' /\
  (exists new,
     trace w' = trace w ++ new /\
     (count_obs is_CallTTS new <= 1)%nat /\
     forall text, In (CallTTS text) new -> len text <= 493) /\
  (forall e,
     fst (fst (_auto_greet g c w)) = Exc e ->
     e = CancelledError /\ same_history w w').
Proof.
  intros w'. split; [apply greeting_vad|].
  destruct (greeting_history g c w) as [Hstep Hexc].
  split; [exact Hstep|]. split; [|exact Hexc].
  destruct (greeting_one_call g c w) as [new [E C]].
  destruct (greeting_fits g c w) as [new' [E' C']].
  exists new. split; [exact E|]. split; [exact C|].
  intros text Hin.
  assert (Hnew : new' = new).
  { apply (app_inv_head (trace w)). rewrite <- E, <- E'. reflexivity. }
  subst new'.
  pose proof (count_obs_none _ _ C' _ Hin) as Hp.
  unfold tts_too_long in Hp. apply Z.ltb_ge in Hp. exact Hp.
Qed.

(** The greeting of a fresh connection, cancelled while it sends the
    transcript. *)
Lemma greeting_any_run_witness :
  same_history (connect 0)
    (snd (fst (_auto_greet welcoming (Some 2%nat) (connect 0)))).
Proof.
  apply (proj2 (proj2 (proj2 (@greeting_any_run welcoming (Some 2%nat)
                                (connect 0)))) CancelledError).
  vm_compute. reflexivity.
Defined.

End GreetingFacts.

(** ** From frames to an utterance *)

Module UtteranceFacts.

Import BargeInFacts ShortUtteranceFacts.

(** A frame heard in the middle of an utterance that it does not close. *)
Lemma utterance_frame (a : list byte) (r : rms) (w : World)
  (sil speech count : Z) (buf : list byte) :
  _state (session w) = USER_SPEAKING ->
  in_cooldown w = false ->
  _is_speaking (session w) = true ->
  _calculate_rms a = Some r ->
  (rms_gt r SPEECH_THRESHOLD = false ->
   (sil + 1) * FRAME_DURATION_MS < SILENCE_DURATION_MS) ->
  exec (handle_audio_chunk a) (utter w sil speech buf count) =
    (Ok tt,
     if rms_gt r SPEECH_THRESHOLD
     then utter w 0 (speech + 1) (buf ++ a) (count + 1)
     else utter w (sil + 1) speech (buf ++ a) (count + 1)).
Proof.
  intros Hst Hcd Hsp Hr Hwin.
  rewrite audio_reaches_vad; [|left; exact Hst|exact Hcd].
  destruct w as [s clk tr ts nx]. simpl in *.
  run_vad. unfold _detect_speech. simpl. rewrite Hr. cbv beta iota.
  unfold detect_on_rms. simpl.
  destruct (rms_gt r SPEECH_THRESHOLD) eqn:Hq; simpl.
  - repeat (rewrite ?Hsp; simpl). reflexivity.
  - repeat (rewrite ?Hsp; simpl).
    destruct (Z.leb_spec SILENCE_DURATION_MS ((sil + 1) * FRAME_DURATION_MS))
      as [Hc|_]; [specialize (Hwin eq_refl); lia|].
    repeat (rewrite ?Hsp; simpl). reflexivity.
Qed.

Lemma utterance_frames (mids : list (list byte)) : forall w sil speech count buf sil' speech',
  _state (session w) = USER_SPEAKING ->
  in_cooldown w = false ->
  _is_speaking (session w) = true ->
  utterance_tail sil speech mids = Some (sil', speech') ->
  feed mids (utter w sil speech buf count) =
    utter w sil' speech' (buf ++ concat mids) (count + len mids).
Proof.
  induction mids as [|a rest IH];
    intros w sil speech count buf sil' speech' Hst Hcd Hsp Htail.
  - simpl in *. inversion Htail. subst. rewrite app_nil_r.
    unfold len. simpl. rewrite Z.add_0_r. reflexivity.
  - simpl in Htail. destruct (_calculate_rms a) as [r|] eqn:Hr; [|discriminate].
    simpl feed.
    rewrite (@utterance_frame a r w sil speech count buf Hst Hcd Hsp Hr).
    + simpl snd. simpl concat. rewrite app_assoc.
      replace (count + len (a :: rest)) with (count + 1 + len rest)
        by (unfold len; simpl length; lia).
      destruct (rms_gt r SPEECH_THRESHOLD); [apply IH; assumption|].
      destruct (SILENCE_DURATION_MS <=? (sil + 1) * FRAME_DURATION_MS);
        [discriminate|]. apply IH; assumption.
    + intros Hq. rewrite Hq in Htail.
      destruct (Z.leb_spec SILENCE_DURATION_MS ((sil + 1) * FRAME_DURATION_MS));
        [discriminate|lia].
Qed.

(** The frame that opens an utterance. *)
Lemma utterance_opens (a : list byte) (w : World) :
  _state (session w) = LISTENING ->
  in_cooldown w = false ->
  _is_speaking (session w) = false ->
  _speech_frames (session w) = 0 ->
  speech_chunk a ->
  exists wb,
    snd (exec (handle_audio_chunk a) w)
      = utter wb 0 1 a (_chunk_count (session w) + 1) /\
    _state (session wb) = USER_SPEAKING /\
    in_cooldown wb = false /\
    _is_speaking (session wb) = true /\
    trace wb = trace w ++ [Sent (EvVad true)] /\
    loop_tasks wb = loop_tasks w /\
    next_task wb = next_task w.
Proof.
  intros Hst Hcd Hidle Hzero [r [Hr Hloud]].
  exists (snd (exec (handle_audio_chunk a) w)).
  rewrite audio_reaches_vad; [|right; exact Hst|exact Hcd].
  unfold in_cooldown in *. destruct w as [s clk tr ts nx]. simpl in *.
  run_vad. unfold _detect_speech. simpl. rewrite Hr. cbv beta iota.
  unfold detect_on_rms. rewrite Hloud. simpl. rewrite Hidle. simpl.
  rewrite Hzero, Hcd. repeat split; reflexivity.
Qed.

(** The quiet frame that closes an utterance long enough to be kept. *)
Lemma utterance_closes (a : list byte) (w : World)
  (sil speech count : Z) (buf : list byte) :
  _state (session w) = USER_SPEAKING ->
  in_cooldown w = false ->
  _is_speaking (session w) = true ->
  quiet_chunk a ->
  SILENCE_DURATION_MS <= (sil + 1) * FRAME_DURATION_MS ->
  MIN_SPEECH_DURATION_MS <= speech * FRAME_DURATION_MS ->
  MIN_AUDIO_BYTES <= len buf ->
  let w' := snd (exec (handle_audio_chunk a) (utter w sil speech buf count)) in
  _state (session w') = PROCESSING /\
  trace w' = trace w ++ [Sent (EvVad false);
                         TaskCreated (next_task w) (ProcessUtterance buf)] /\
  loop_tasks w' = (next_task w, ProcessUtterance buf) :: loop_tasks w /\
  _processing_task (session w') = Some (next_task w) /\
  _audio_buffer (session w') = [] /\
  _is_speaking (session w') = false.
Proof.
  intros Hst Hcd Hsp [r [Hr Hq]] Hwin Hlong Hbytes.
  rewrite audio_reaches_vad; [|left; exact Hst|exact Hcd].
  destruct w as [s clk tr ts nx]. simpl in *.
  run_vad. unfold _detect_speech. simpl. rewrite Hr. cbv beta iota.
  unfold detect_on_rms. unfold quiet in Hq. rewrite Hq. simpl.
  repeat (rewrite ?Hsp; simpl).
  destruct (Z.leb_spec SILENCE_DURATION_MS ((sil + 1) * FRAME_DURATION_MS))
    as [_|Hc]; [|lia].
  destruct (Z.leb_spec MIN_SPEECH_DURATION_MS (speech * FRAME_DURATION_MS))
    as [_|Hc]; [|lia].
  simpl.
  destruct (Z.ltb_spec (len buf) MIN_AUDIO_BYTES) as [Hc|_]; [lia|].
  simpl. rewrite <- app_assoc. repeat split; reflexivity.
Qed.

(** X18: from frames to an utterance.  On a listening session outside
    the cooldown, a frame above the speech threshold opens an utterance;
    the frames that follow, loud or quiet, are buffered as long as none of
    them completes a second of silence.  When the quiet frame that
    completes it arrives after at least 300 ms of speech and 8192 buffered
    bytes, the peer has been sent [vad speaking=true] and
    [vad speaking=false], the session is in [PROCESSING] with an empty
    buffer, and one task has been created on the audio of the utterance:
    the opening frame and every frame after it, the trailing quiet ones
    included, the closing one excluded. *)
Theorem utterance_handed_over (a0 closing : list byte)
  (mids : list (list byte)) (sil speech : Z) (w : World) :
  _state (session w) = LISTENING ->
  in_cooldown w = false ->
  _is_speaking (session w) = false ->
  _speech_frames (session w) = 0 ->
  speech_chunk a0 ->
  utterance_tail 0 1 mids = Some (sil, speech) ->
  quiet_chunk closing ->
  SILENCE_DURATION_MS <= (sil + 1) * FRAME_DURATION_MS ->
  MIN_SPEECH_DURATION_MS <= speech * FRAME_DURATION_MS ->
  MIN_AUDIO_BYTES <= len (concat (a0 :: mids)) ->
  let w' := feed (a0 :: mids ++ [closing]) w in
  let audio := concat (a0 :: mids) in
  _state (session w') = PROCESSING /\
  trace w' = trace w ++ [Sent (EvVad true); Sent (EvVad false);
                         TaskCreated (next_task w) (ProcessUtterance audio)] /\
  loop_tasks w' = (next_task w, ProcessUtterance audio) :: loop_tasks w /\
  _processing_task (session w') = Some (next_task w) /\
  _audio_buffer (session w') = [] /\
  _is_speaking (session w') = false.
Proof.
  intros Hst Hcd Hidle Hzero Ha0 Htail Hclosing Hwin Hlong Hbytes w' audio.
  destruct (@utterance_opens a0 w Hst Hcd Hidle Hzero Ha0)
    as [wb [E [Hst1 [Hcd1 [Hsp1 [Htr1 [Hl1 Hn1]]]]]]].
  unfold w'. simpl feed. rewrite E, feed_app.
  rewrite (@utterance_frames mids wb 0 1 _ a0 sil speech Hst1 Hcd1 Hsp1 Htail).
  simpl feed.
  destruct (@utterance_closes closing wb sil speech
              (_chunk_count (session w) + 1 + len mids) (a0 ++ concat mids)
              Hst1 Hcd1 Hsp1 Hclosing Hwin Hlong Hbytes)
    as [H1 [H2 [H3 [H4 [H5 H6]]]]].
  unfold audio. simpl concat.
  rewrite H2, H3, H4, Htr1, Hl1, Hn1, <- app_assoc.
  repeat split; assumption.
Qed.

(** Two loud frames and four quiet ones. *)
Lemma utterance_handed_over_witness :
  let w' := feed ([loud_frame; loud_frame]
                  ++ repeat quiet_frame 3 ++ [quiet_frame]) listening in
  _state (session w') = PROCESSING /\
  loop_tasks w' =
    [(O, ProcessUtterance (concat ([loud_frame; loud_frame]
                                   ++ repeat quiet_frame 3)))].
Proof.
  assert (Hloud : speech_chunk loud_frame)
    by (eexists; split; vm_compute; reflexivity).
  assert (Hquiet : quiet_chunk quiet_frame)
    by (eexists; split; vm_compute; reflexivity).
  destruct (@utterance_handed_over loud_frame quiet_frame
              (loud_frame :: repeat quiet_frame 3) 3 2 listening
              eq_refl eq_refl eq_refl eq_refl Hloud
              ltac:(vm_compute; reflexivity) Hquiet
              ltac:(vm_compute; discriminate) ltac:(vm_compute; discriminate)
              ltac:(vm_compute; discriminate))
    as [H1 [_ [H3 _]]].
  split; [exact H1|exact H3].
Defined.

End UtteranceFacts.

(** ** Retrieval failures *)

Module RetrievalFacts.

Import TurnFacts.



End RetrievalFacts.

(** ** The shared HTTP client *)

Module HttpClientFacts.

Import HttpClient.

(** X20: the life of the shared HTTP client.  [get_http_client] hands out
    a client that is open and leaves it in the module variable; while that
    client stays open it is the one handed out again, and no other is
    created.  [cleanup_http_client] closes the client in the variable and
    clears the variable, and doing it twice changes nothing more.  After a
    clean-up, or once the client has been closed by anyone, the next call
    creates a client that did not exist before; a closed client is never
    handed out and never reopened. *)
Theorem shared_client_lifecycle (st : Clients) :
  well_formed st ->
  let (client, st1) := get_http_client st in
  is_closed st1 client = false /\
  _http_client st1 = Some client /\
  well_formed st1 /\
  get_http_client st1 = (client, st1) /\
  (forall c, (c < created st)%nat -> is_closed st c = true ->
             c <> client /\ is_closed st1 c = true) /\
  let st2 := cleanup_http_client st1 in
  _http_client st2 = None /\
  is_closed st2 client = true /\
  cleanup_http_client st2 = st2 /\
  created st2 = created st1 /\
  fst (get_http_client st2) = created st1 /\
  fst (get_http_client (aclose client st1)) = created st1.
Proof.
  unfold well_formed, get_http_client. intros Hwf.
  destruct st as [closed n var]. simpl in *.
  destruct var as [c0|]; [destruct (closed c0) eqn:Hc0|];
    unfold fresh, cleanup_http_client, aclose; simpl;
    rewrite ?Nat.eqb_refl, ?Hc0; simpl; rewrite ?Nat.eqb_refl; simpl;
    repeat split; try reflexivity; try lia; try assumption;
    try (intros E; subst; first [lia | congruence]);
    match goal with
    | |- (if Nat.eqb ?c ?n then false else _) = true =>
        destruct (Nat.eqb_spec c n); [lia|assumption]
    end.
Qed.

Lemma shared_client_lifecycle_witness :
  fst (get_http_client (cleanup_http_client (snd (get_http_client initial))))
    = 1%nat.
Proof.
  pose proof (@shared_client_lifecycle initial I) as H.
  simpl in H. destruct H as [_ [_ [_ [_ [_ [_ [_ [_ [_ [H _]]]]]]]]]].
  exact H.
Defined.

End HttpClientFacts.
